(** * Praise cards: a shallow embedding of the card renderer

    The repository holds three pages of one Next.js application, each a
    single React component in [src/praise-cards/src/app/page.tsx]:

    - the paginated praise wall  (lines 1-860),
    - the live praise wall       (lines 861-1622),
    - the card generator         (lines 1623-2930).

    Each page carries its own copy of the rendering helpers.  The modules
    [Wall], [LiveWall] and [Generator] below follow that layout.

    Modelling conventions.

    - A JavaScript [number] is a rational ([Q]), and the arithmetic is
      modelled twice.  In the modules [Helpers], [Wall], [LiveWall] and
      [Generator] it is exact; they serve the statements that follow the
      calls of a rendering or compare two runs, which rounding does not
      touch.  In [Binary64], [Helpers64] and [Generator64], and in the
      resize handlers of the generator, every operation is rounded to
      binary64 as the engine does; they serve the statements that give
      sizes, font sizes and positions.  [NaN], the infinities, the sign
      of zero and the bounds of the exponent are outside the model.
    - A JavaScript string is a [string] of 8-bit characters; the regular
      expression class [\s] and [String.prototype.trim] are restricted to
      that range (tab, LF, VT, FF, CR, space, NBSP).
    - The host functions the code calls but does not define ([Math.sin],
      [Math.cos], [Math.pow], [Math.hypot], the text metrics of a canvas
      and the pixels a canvas holds after a drawing history) are fields of
      the record [Host]; every definition that needs them takes the host
      as an argument.
    - Drawing is modelled by the sequence of Canvas 2D calls issued on the
      surface, together with the part of the context state the code reads
      back ([globalAlpha], [font], the save/restore stack).  A canvas
      keeps the width and height assigned to it (the generator assigns
      whole numbers).
    - The handlers of a page are functions on the variables they share:
      the designs, sizes and cards of the generator ([Generator.State]),
      the cards and flags of the paginated wall ([Wall.PageState]).  An
      asynchronous handler is modelled by the state once its promise has
      settled; what the database answers is an argument
      ([Wall.Database]), and so is the clock.  The DOM around the
      canvases, the toasts of the walls and the clipboard are left out.
    - [Array.prototype.sort] is a stable sort; with a comparator that
      orders by a number it is modelled by insertion. *)

From Stdlib Require Import QArith Qround Qminmax Lqa ZArith Lia List Ascii String.
From Stdlib Require Import DecimalString Sorted Qpower Qabs.
From stdpp Require Import base gmap strings.
Import ListNotations.
Open Scope string_scope.
Open Scope list_scope.
Open Scope Q_scope.

(** ** JavaScript values *)

Module Js.

Definition number := Q.

(** [x < y] on numbers, as a boolean. *)
Definition ltb (x y : Q) : bool := negb (Qle_bool y x).

(** [x <= y] on numbers, as a boolean. *)
Definition leb (x y : Q) : bool := Qle_bool x y.

(** Truthiness of a string: only the empty string is falsy. *)
Definition truthy (s : string) : bool := negb (String.eqb s "").

(** The class [\s], which is also the set [trim] strips. *)
Definition is_space (c : ascii) : bool :=
  let n := N_of_ascii c in
  (N.eqb n 9 || N.eqb n 10 || N.eqb n 11 || N.eqb n 12 || N.eqb n 13
   || N.eqb n 32 || N.eqb n 160)%bool.

(** [for (const ch of s)]: the characters of a string, in order. *)
Definition chars (s : string) : list ascii := list_ascii_of_string s.

(** [s.split(/\s+/)]: the pieces between maximal runs of whitespace.  A
    leading or trailing run leaves an empty piece at that end, as in
    JavaScript.  [in_gap] says that the previous character was whitespace,
    [piece] is the piece read so far. *)
Fixpoint split_ws_from (in_gap : bool) (piece : string) (s : string)
  : list string :=
  match s with
  | EmptyString => [piece]
  | String c s' =>
      if is_space c then
        if in_gap then split_ws_from true "" s'
        else piece :: split_ws_from true "" s'
      else split_ws_from false (piece +:+ String c "") s'
  end.

Definition split_ws (s : string) : list string := split_ws_from false "" s.

(** [text.split(/\s+/).filter(Boolean)] *)
Definition tokens (text : string) : list string :=
  List.filter truthy (split_ws text).

(** [lines.join(" ")] *)
Definition join_sp (lines : list string) : string := String.concat " " lines.

(** [s.trim()] is truthy exactly when some character is not whitespace. *)
Definition trim_truthy (s : string) : bool :=
  existsb (fun c => negb (is_space c)) (chars s).

End Js.

Import Js.

(** The text metrics of a context with its font fixed:
    [ctx.measureText(s).width].  [wrapTextSmart] uses its context for
    nothing else. *)
Definition TextMeasure := string -> Q.


(** ** Numbers as the engine holds them

    A JavaScript [number] is a binary64 value, and every arithmetic
    operation returns the value nearest to the exact result, a tie going
    to the even significand.  [fl] is that rounding on the rationals, and
    [⊕], [⊖], [⊗] and [⊘] are the exact operations followed by it.
    The exponent is not bounded: numbers below [2^-1022] or from [2^1024]
    on, the sign of zero, [NaN] and the infinities are outside the
    model. *)

Module Binary64.

(** The nearest whole number, a tie going to the even one. *)
Definition round_even (x : Q) : Z :=
  let f := Qfloor x in
  match Qcompare (x - inject_Z f) (1 # 2) with
  | Lt => f
  | Gt => (f + 1)%Z
  | Eq => if Z.even f then f else (f + 1)%Z
  end.

Definition pow2 (e : Z) : Q := 2 ^ e.

(** The exponent [e] of a positive number: [2^e <= x < 2^(e+1)]. *)
Definition binade (x : Q) : Z :=
  let e := (Z.log2 (Qnum x) - Z.log2 (Zpos (Qden x)))%Z in
  if Qle_bool (pow2 e) x then e else (e - 1)%Z.

(** The nearest number with a significand of 53 bits, for [x > 0]. *)
Definition nearest (x : Q) : Q :=
  let ulp := pow2 (binade x - 52) in
  inject_Z (round_even (x / ulp)) * ulp.

Definition fl (x : Q) : Q :=
  match Qcompare x 0 with
  | Eq => 0
  | Gt => Qred (nearest x)
  | Lt => Qred (- nearest (- x))
  end.

(** The number a decimal literal of the source denotes. *)
Definition lit (x : Q) : Q := fl x.

Definition fadd (x y : Q) : Q := fl (x + y).
Definition fsub (x y : Q) : Q := fl (x - y).
Definition fmul (x y : Q) : Q := fl (x * y).
Definition fdiv (x y : Q) : Q := fl (x / y).

(** The relative error of one rounding, [2^-53]. *)
Definition eps : Q := 1 # 9007199254740992.

End Binary64.

Import Binary64.

(** In a comparison of two terms the arithmetic is unfolded last. *)
Strategy 100 [fl lit fadd fsub fmul fdiv].

Infix "⊕" := fadd (at level 50, left associativity).
Infix "⊖" := fsub (at level 50, left associativity).
Infix "⊗" := fmul (at level 40, left associativity).
Infix "⊘" := fdiv (at level 40, left associativity).
(** ** The Canvas 2D surface *)

Module Canvas.

(** The CSS font shorthand the code assigns to [ctx.font]:
    [`${size}px ${family}`] or [`${weight} ${size}px ${family}`]. *)
Record Font := {
  font_weight : option Z;
  font_px : Q;
  font_family : string
}.

(** The font of a fresh context, [10px sans-serif]. *)
Definition default_font : Font :=
  {| font_weight := None; font_px := 10; font_family := "sans-serif" |}.

(** What [fillStyle] and [strokeStyle] receive: a CSS colour string, or
    the gradient built by [createLinearGradient] and [addColorStop]. *)
Inductive Style :=
| Css (color : string)
| LinearGradient (x0 y0 x1 y1 : Q) (stops : list (Q * string)).

(** One call (or property assignment) on the 2D context. *)
Inductive Cmd :=
| Save
| Restore
| Clip
| BeginPath
| ClosePath
| MoveTo (x y : Q)
| LineTo (x y : Q)
| ArcTo (x1 y1 x2 y2 radius : Q)
| Arc (x y radius startAngle endAngle : Q)
| BezierCurveTo (cp1x cp1y cp2x cp2y x y : Q)
| Fill
| Stroke
| FillRect (x y w h : Q)
| StrokeRect (x y w h : Q)
| Translate (x y : Q)
| Rotate (angle : Q)
| FillText (text : string) (x y : Q)
| PutImageData (data : list Z) (dx dy : Q)
| SetFillStyle (s : Style)
| SetStrokeStyle (s : Style)
| SetGlobalAlpha (a : Q)
| SetLineWidth (w : Q)
| SetLineJoin (j : string)
| SetLineCap (c : string)
| SetTextAlign (a : string)
| SetTextBaseline (b : string)
| SetFont (f : Font).

(** A canvas with its 2D context: the size of the bitmap, the calls issued
    since the bitmap was last reset, and the state the code reads back. *)
Record Ctx := {
  width : Q;
  height : Q;
  log : list Cmd;
  globalAlpha : Q;
  font : Font;
  saved : list (Q * Font)
}.

(** Assigning [canvas.width] and [canvas.height] clears the bitmap and
    resets the context to its defaults. *)
Definition resize (w h : Q) : Ctx :=
  {| width := w; height := h; log := []; globalAlpha := 1;
     font := default_font; saved := [] |}.

(** What the code uses of its host. *)
Record Host := {
  sin : Q -> Q;
  cos : Q -> Q;
  PI : Q;
  pow : Q -> Q -> Q;
  hypot : Q -> Q -> Q;
  (** [ctx.measureText(s).width] under the font [f]. *)
  measureWidth : Font -> string -> Q;
  (** [ctx.getImageData(x, y, w, h).data] on a [width] x [height] bitmap
      after the calls [calls]: the RGBA bytes, row by row. *)
  imageData : Q -> Q -> list Cmd -> Q -> Q -> Q -> Q -> list Z
}.

(** Drawing code threads the context. *)
Definition Draw (A : Type) : Type := Ctx -> A * Ctx.

#[export] Instance draw_ret : MRet Draw := fun A x c => (x, c).
#[export] Instance draw_bind : MBind Draw :=
  fun A B f m c => let '(a, c') := m c in f a c'.

Definition emit (cmd : Cmd) : Draw unit := fun c =>
  (tt, {| width := width c; height := height c; log := log c ++ [cmd];
          globalAlpha := globalAlpha c; font := font c; saved := saved c |}).

Definition save : Draw unit := fun c =>
  (tt, {| width := width c; height := height c; log := log c ++ [Save];
          globalAlpha := globalAlpha c; font := font c;
          saved := (globalAlpha c, font c) :: saved c |}).

(** [restore] with an empty stack changes nothing. *)
Definition restore : Draw unit := fun c =>
  match saved c with
  | [] => emit Restore c
  | (a, f) :: rest =>
      (tt, {| width := width c; height := height c; log := log c ++ [Restore];
              globalAlpha := a; font := f; saved := rest |})
  end.

Definition getGlobalAlpha : Draw Q := fun c => (globalAlpha c, c).

(** An assignment to [globalAlpha] outside [0, 1] is ignored. *)
Definition setGlobalAlpha (a : Q) : Draw unit := fun c =>
  if (leb 0 a && leb a 1)%bool then
    (tt, {| width := width c; height := height c;
            log := log c ++ [SetGlobalAlpha a];
            globalAlpha := a; font := font c; saved := saved c |})
  else (tt, c).

Definition setFont (f : Font) : Draw unit := fun c =>
  (tt, {| width := width c; height := height c; log := log c ++ [SetFont f];
          globalAlpha := globalAlpha c; font := f; saved := saved c |}).

(** The metrics of the context under its current font. *)
Definition measureText (h : Host) (c : Ctx) : TextMeasure :=
  measureWidth h (font c).

Definition getImageData (h : Host) (x y w ht : Q) : Draw (list Z) := fun c =>
  (imageData h (width c) (height c) (log c) x y w ht, c).

(** [for (const x of l) body(x)] *)
Fixpoint for_each {A : Type} (l : list A) (body : A -> Draw unit) : Draw unit :=
  match l with
  | [] => mret tt
  | x :: rest => body x ;; for_each rest body
  end.

(** The values [i] takes in [for (let i = lo; i < hi; i += step)], at most
    [fuel] of them. *)
Fixpoint loop_values (fuel : nat) (i hi step : Q) : list Q :=
  match fuel with
  | O => []
  | S fuel' => if ltb i hi then i :: loop_values fuel' (i + step) hi step else []
  end.

(** Enough fuel for the loop to end on its own test when [step > 0]. *)
Definition loop_fuel (lo hi step : Q) : nat :=
  Z.to_nat (Qceiling ((hi - lo) / step)).

Definition for_loop (lo hi step : Q) : list Q :=
  loop_values (loop_fuel lo hi step) lo hi step.

(** [for (let i = 0; i < n; i++)] for a literal [n]. *)
Definition upto (n : nat) : list Q :=
  map (fun k => inject_Z (Z.of_nat k)) (seq 0 n).

End Canvas.

Import Canvas.

(** ** Helpers the three pages share

    Every page defines the helpers of this module with the same text, up to
    comments and line breaks.  The line ranges are those of the paginated
    wall, the live wall and the generator, in that order. *)

Module Helpers.

Module Palette.
Record t := { bg : string; text : string; accent : string }.
End Palette.

Module FontPack.
Record t := { quote : string; author : string }.
End FontPack.

Module Rgb.
Record t := { r : Q; g : Q; b : Q }.
End Rgb.

(** A loop counter as a number. *)
Definition num (k : nat) : Q := inject_Z (Z.of_nat k).

(** [Math.floor] and [Math.round], as numbers. *)
Definition floor (x : Q) : Q := inject_Z (Qfloor x).
Definition round (x : Q) : Q := inject_Z (Qfloor (x + (1 # 2))).

(** A whole number inside a template string. *)
Definition show (x : Q) : string := NilZero.string_of_int (Z.to_int (Qfloor x)).

(** [seededRandom] (lines 54-57, 903-906, 1763-1766). *)
Definition seededRandom (h : Host) (seed : Q) : Q :=
  let x := sin h seed * 10000 in
  x - floor x.

(** [roundedRectPath] (lines 101-117, 950-966, 1782-1798). *)
Definition roundedRectPath (x y w ht r : Q) : Draw unit :=
  let radius := Qmax 0 (Qmin r (Qmin w ht / 2)) in
  emit BeginPath ;;
  emit (MoveTo (x + radius) y) ;;
  emit (ArcTo (x + w) y (x + w) (y + ht) radius) ;;
  emit (ArcTo (x + w) (y + ht) x (y + ht) radius) ;;
  emit (ArcTo x (y + ht) x y radius) ;;
  emit (ArcTo x y (x + w) y radius) ;;
  emit ClosePath.

(** A store into a [Uint8ClampedArray]: clamp to [0, 255], round to the
    nearest integer, ties to even. *)
Definition to_uint8_clamped (x : Q) : Z :=
  if ltb x 0 then 0%Z
  else if ltb 255 x then 255%Z
  else
    let f := Qfloor x in
    let d := x - inject_Z f in
    if ltb d (1 # 2) then f
    else if ltb (1 # 2) d then (f + 1)%Z
    else if Z.even f then f else (f + 1)%Z.

(** The loop of [addGrain] over the pixel bytes, four at a time, from byte
    index [i]. *)
Fixpoint grain (h : Host) (amount seed i : Q) (data : list Z) : list Z :=
  let n := (seededRandom h (seed + i) - 0.5) * 255 * amount in
  let put v := to_uint8_clamped (Qmax 0 (Qmin 255 (inject_Z v + n))) in
  match data with
  | [] => []
  | [r0] => [put r0]
  | [r0; g0] => [put r0; put g0]
  | [r0; g0; b0] => [put r0; put g0; put b0]
  | r0 :: g0 :: b0 :: a0 :: rest =>
      put r0 :: put g0 :: put b0 :: a0 :: grain h amount seed (i + 4) rest
  end.

(** [addGrain] (lines 119-135, 968-984, 1800-1816). *)
Definition addGrain (h : Host) (w ht amount seed : Q) : Draw unit :=
  data ← getImageData h 0 0 w ht;
  emit (PutImageData (grain h amount seed 0 data) 0 0).

(** [s.replace("#", "")]: the first [#] is removed. *)
Fixpoint remove_hash (s : string) : string :=
  match s with
  | EmptyString => EmptyString
  | String c s' => if Ascii.eqb c "#" then s' else String c (remove_hash s')
  end.

Fixpoint trim_start (s : string) : string :=
  match s with
  | EmptyString => EmptyString
  | String c s' => if is_space c then trim_start s' else s
  end.

Definition reverse (s : string) : string :=
  string_of_list_ascii (List.rev (chars s)).

(** [s.trim()] *)
Definition trim (s : string) : string :=
  reverse (trim_start (reverse (trim_start s))).

(** [h.split("").map((c) => c + c).join("")] *)
Fixpoint double_chars (s : string) : string :=
  match s with
  | EmptyString => EmptyString
  | String c s' => String c (String c (double_chars s'))
  end.

Definition hex_digit (c : ascii) : option Z :=
  let n := Z.of_N (N_of_ascii c) in
  if ((48 <=? n) && (n <=? 57))%Z then Some (n - 48)%Z
  else if ((97 <=? n) && (n <=? 102))%Z then Some (n - 87)%Z
  else if ((65 <=? n) && (n <=? 70))%Z then Some (n - 55)%Z
  else None.

(** The longest prefix of hexadecimal digits, read most significant digit
    first; [None] when there is no digit. *)
Fixpoint hex_prefix (acc : option Z) (s : string) : option Z :=
  match s with
  | EmptyString => acc
  | String c s' =>
      match hex_digit c with
      | None => acc
      | Some d =>
          hex_prefix (Some (match acc with None => d | Some a => 16 * a + d end)%Z) s'
      end
  end.

(** [parseInt(s, 16)]: leading whitespace, a sign, a [0x] or [0X] prefix,
    then digits.  [None] is [NaN]. *)
Definition parseInt16 (s : string) : option Z :=
  let s := trim_start s in
  let '(sign, s) :=
    match s with
    | String "-" s' => ((-1)%Z, s')
    | String "+" s' => (1%Z, s')
    | _ => (1%Z, s)
    end in
  let s :=
    match s with
    | String "0" (String "x" s') => s'
    | String "0" (String "X" s') => s'
    | _ => s
    end in
  match hex_prefix None s with
  | None => None
  | Some v => Some (sign * v)%Z
  end.

(** The conversion to a 32-bit integer the bitwise operators apply;
    [NaN] becomes 0. *)
Definition to_int32 (n : option Z) : Z :=
  match n with
  | None => 0%Z
  | Some v => ((v + 2147483648) mod 4294967296 - 2147483648)%Z
  end.

(** [hexToRgb] (lines 137-148, 986-997, 2102-2113). *)
Definition hexToRgb (hex : string) : Rgb.t :=
  let h := trim (remove_hash hex) in
  let full := if (String.length h =? 3)%nat then double_chars h else h in
  let n := to_int32 (parseInt16 full) in
  {| Rgb.r := inject_Z (Z.land (Z.shiftr n 16) 255);
     Rgb.g := inject_Z (Z.land (Z.shiftr n 8) 255);
     Rgb.b := inject_Z (Z.land n 255) |}.

(** [relLuma] (lines 150-156, 999-1005, 2115-2122). *)
Definition relLuma (h : Host) (c : Rgb.t) : Q :=
  let srgb v :=
    let v := v / 255 in
    if leb v 0.03928 then v / 12.92 else pow h ((v + 0.055) / 1.055) 2.4 in
  0.2126 * srgb (Rgb.r c) + 0.7152 * srgb (Rgb.g c) + 0.0722 * srgb (Rgb.b c).

(** [mixRgb] (lines 158-168, 1007-1017, 2124-2134). *)
Definition mixRgb (a b : Rgb.t) (t : Q) : Rgb.t :=
  {| Rgb.r := round (Rgb.r a + (Rgb.r b - Rgb.r a) * t);
     Rgb.g := round (Rgb.g a + (Rgb.g b - Rgb.g a) * t);
     Rgb.b := round (Rgb.b a + (Rgb.b b - Rgb.b a) * t) |}.

(** The loop of [sampleAverageRgb]: the sums of the red, green and blue
    bytes of every sixteenth pixel, and the number of pixels read.  A byte
    past the end of the data reads as 0 ([ImageData] holds whole pixels, so
    none is). *)
Fixpoint sample_sums (fuel : nat) (img : list Z) (acc : Q * Q * Q * Q)
  : Q * Q * Q * Q :=
  match fuel with
  | O => acc
  | S fuel' =>
      match img with
      | [] => acc
      | r0 :: _ =>
          let '(sr, sg, sb, c) := acc in
          sample_sums fuel' (skipn 64 img)
            (sr + inject_Z r0, sg + inject_Z (nth 1 img 0%Z),
             sb + inject_Z (nth 2 img 0%Z), c + 1)
      end
  end.

(** [sampleAverageRgb] (lines 170-196, 1019-1045, 2136-2163). *)
Definition sampleAverageRgb (h : Host) (x y w ht : Q) : Draw Rgb.t :=
  img ← getImageData h (Qmax 0 (floor x)) (Qmax 0 (floor y))
                       (Qmax 1 (floor w)) (Qmax 1 (floor ht));
  let '(sr, sg, sb, c) := sample_sums (length img) img (0, 0, 0, 0) in
  mret {| Rgb.r := sr / c; Rgb.g := sg / c; Rgb.b := sb / c |}.

Module TextColors.
Record t := { quoteColor : string; authorColor : string }.
End TextColors.

(** [chooseTextColors] (lines 198-235, 1047-1084, 2166-2209). *)
Definition chooseTextColors (h : Host) (w ht : Q) (palette : Palette.t)
  : Draw TextColors.t :=
  let sx := w * 0.22 in
  let sy := ht * 0.3 in
  let sw := w * 0.56 in
  let sh := ht * 0.4 in
  avg ← sampleAverageRgb h sx sy sw sh;
  let L := relLuma h avg in
  let isLightBg := ltb 0.55 L in
  let quoteColor := if isLightBg then "#111827" else "#FFFFFF" in
  let authorColor := Palette.accent palette in
  let authorColor :=
    if negb isLightBg then "rgba(255,255,255,0.85)"
    else
      let acc := hexToRgb (Palette.accent palette) in
      let quoteRgb := hexToRgb quoteColor in
      let accL := relLuma h acc in
      let quoteL := relLuma h quoteRgb in
      let contrast := (Qmax accL quoteL + 0.05) / (Qmin accL quoteL + 0.05) in
      if ltb contrast 2.2 then
        let mixed := mixRgb acc quoteRgb 0.55 in
        "rgb(" +:+ show (Rgb.r mixed) +:+ ", " +:+ show (Rgb.g mixed) +:+ ", "
          +:+ show (Rgb.b mixed) +:+ ")"
      else authorColor in
  mret {| TextColors.quoteColor := quoteColor;
          TextColors.authorColor := authorColor |}.

(** [ctx.globalAlpha *= k] *)
Definition scaleGlobalAlpha (k : Q) : Draw unit :=
  a ← getGlobalAlpha; setGlobalAlpha (a * k).

(** [drawTinyHeart] of [drawDoodles] (lines 253-271, 1102-1120, 1983-2002). *)
Definition drawTinyHeart (h : Host) (x y size s : Q) : Draw unit :=
  save ;;
  emit (Translate x y) ;;
  emit (Rotate ((seededRandom h s - 0.5) * 0.8)) ;;
  let r := size * 0.45 in
  emit BeginPath ;;
  emit (MoveTo 0 r) ;;
  emit (BezierCurveTo (- size) (- r) (- size) (- size) 0 (- size * 0.25)) ;;
  emit (BezierCurveTo size (- size) size (- r) 0 r) ;;
  emit ClosePath ;;
  scaleGlobalAlpha 0.9 ;;
  emit Fill ;;
  scaleGlobalAlpha 1.05 ;;
  emit (SetLineWidth (Qmax 1.2 (size * 0.12))) ;;
  emit Stroke ;;
  restore.

(** [drawTinyStar] of [drawDoodles] (lines 273-300, 1122-1149, 2004-2032). *)
Definition drawTinyStar (h : Host) (x y size s : Q) : Draw unit :=
  save ;;
  emit (Translate x y) ;;
  emit (Rotate (seededRandom h s * PI h * 2)) ;;
  let spikes := 5 in
  let outer := size in
  let inner := size * 0.45 in
  emit BeginPath ;;
  for_each (seq 0 10) (fun k =>
    let i := num k in
    let rad := if Nat.even k then outer else inner in
    let wob := 1 + (seededRandom h (s + i * 7) - 0.5) * 0.18 in
    let angle := (PI h * i) / spikes - PI h / 2 in
    let px := cos h angle * rad * wob in
    let py := sin h angle * rad * wob in
    if (k =? 0)%nat then emit (MoveTo px py) else emit (LineTo px py)) ;;
  emit ClosePath ;;
  scaleGlobalAlpha 0.85 ;;
  emit Fill ;;
  scaleGlobalAlpha 1.1 ;;
  emit (SetLineWidth (Qmax 1.2 (size * 0.12))) ;;
  emit Stroke ;;
  restore.

(** [drawDoodles] (lines 237-317, 1086-1166, 1966-2055). *)
Definition drawDoodles (h : Host) (w ht : Q) (color : string) (seed : Q)
  : Draw unit :=
  save ;;
  setGlobalAlpha 0.12 ;;
  emit (SetStrokeStyle (Css color)) ;;
  emit (SetFillStyle (Css color)) ;;
  emit (SetLineJoin "round") ;;
  emit (SetLineCap "round") ;;
  for_each (seq 0 10) (fun k =>
    let i := num k in
    let x := seededRandom h (seed + i * 11) * w in
    let y := seededRandom h (seed + i * 11 + 1) * ht in
    let size := 7 + seededRandom h (seed + i * 11 + 2) * 12 in
    let cx := w / 2 in
    let cy := ht / 2 in
    if ltb (hypot h (x - cx) (y - cy)) (Qmin w ht * 0.26) then mret tt
    else
      let kind := floor (seededRandom h (seed + i * 19) * 2) in
      if Qeq_bool kind 0 then drawTinyHeart h x y size (seed + i * 101)
      else drawTinyStar h x y (size * 0.9) (seed + i * 101)) ;;
  restore.

(** The background block of [renderCard] (lines 348-421, 1197-1270,
    2267-2340). *)
Definition drawBackground (h : Host) (w ht : Q) (palette : Palette.t)
  (gradient : string * string) (bgType : string) (seed : Q) : Draw unit :=
  if (String.eqb bgType "gradient" || String.eqb bgType "glass")%bool then
    emit (SetFillStyle
            (LinearGradient 0 0 w ht [(0, fst gradient); (1, snd gradient)])) ;;
    emit (FillRect 0 0 w ht) ;;
    if String.eqb bgType "glass" then
      emit (SetFillStyle (Css "rgba(255,255,255,0.16)")) ;;
      emit (FillRect 0 0 w ht)
    else mret tt
  else if String.eqb bgType "dark" then
    emit (SetFillStyle (Css (Palette.bg palette))) ;;
    emit (FillRect 0 0 w ht) ;;
    emit (SetFillStyle (Css "rgba(255,255,255,0.04)")) ;;
    emit (FillRect 0 0 w ht)
  else if String.eqb bgType "paper" then
    emit (SetFillStyle (Css "#ffffff")) ;;
    emit (FillRect 0 0 w ht) ;;
    setGlobalAlpha 0.06 ;;
    emit (SetFillStyle (Css (Palette.accent palette))) ;;
    for_each (seq 0 90) (fun k =>
      let i := num k in
      let x := seededRandom h (seed + i) * w in
      let y := seededRandom h (seed + i + 100) * ht in
      emit (FillRect x y 2 2)) ;;
    setGlobalAlpha 1
  else if String.eqb bgType "noise" then
    emit (SetFillStyle (Css (Palette.bg palette))) ;;
    emit (FillRect 0 0 w ht) ;;
    addGrain h w ht 0.08 seed
  else if String.eqb bgType "stripes" then
    emit (SetFillStyle (Css (Palette.bg palette))) ;;
    emit (FillRect 0 0 w ht) ;;
    emit (SetStrokeStyle (Css "rgba(0,0,0,0.05)")) ;;
    emit (SetLineWidth 14) ;;
    for_each (for_loop (- ht) (w + ht) 60) (fun i =>
      emit BeginPath ;;
      emit (MoveTo i 0) ;;
      emit (LineTo (i + ht) ht) ;;
      emit Stroke)
  else if String.eqb bgType "halftone" then
    emit (SetFillStyle (Css (Palette.bg palette))) ;;
    emit (FillRect 0 0 w ht) ;;
    emit (SetFillStyle (Css "rgba(0,0,0,0.05)")) ;;
    let step := 26 in
    for_each (for_loop 0 ht step) (fun y =>
      for_each (for_loop 0 w step) (fun x =>
        let r := 2 + seededRandom h (seed + x * 7 + y * 11) * 3 in
        emit BeginPath ;;
        emit (Arc x y r 0 (PI h * 2)) ;;
        emit Fill))
  else if String.eqb bgType "blobs" then
    emit (SetFillStyle (Css (Palette.bg palette))) ;;
    emit (FillRect 0 0 w ht) ;;
    setGlobalAlpha 0.22 ;;
    emit (SetFillStyle (Css (Palette.accent palette))) ;;
    for_each (seq 0 3) (fun k =>
      let i := num k in
      let x := seededRandom h (seed + i * 10) * w in
      let y := seededRandom h (seed + i * 10 + 1) * ht in
      let r := 120 + seededRandom h (seed + i * 10 + 2) * 260 in
      emit BeginPath ;;
      emit (Arc x y r 0 (PI h * 2)) ;;
      emit Fill) ;;
    setGlobalAlpha 1
  else
    emit (SetFillStyle (Css (Palette.bg palette))) ;;
    emit (FillRect 0 0 w ht).

(** What the layout block of [renderCard] leaves for the text block: the
    anchor, the alignment and the line width. *)
Module Layout.
Record t := { contentY : Q; contentX : Q; align : string; innerMax : Q }.
End Layout.

(** The loop [for (const line of textLines)] of [renderCard] (lines
    490-493, 1339-1342, 2459-2462); it returns the final [y]. *)
Fixpoint fillLines (textLines : list string) (x y qLine : Q) : Draw Q :=
  match textLines with
  | [] => mret y
  | line :: rest => emit (FillText line x y) ;; fillLines rest x (y + qLine) qLine
  end.

End Helpers.

Import Helpers.
(** ** The paginated wall page (page.tsx, lines 1-860) *)

Module Wall.

(** [push] of [wrapTextSmart] (lines 68-71), on the line list alone: the
    caller resets [current]. *)
Definition push_line (lines : list string) (current : string) : list string :=
  if truthy current then lines ++ [current] else lines.

(** The body of the inner loop [for (const ch of tok)] (lines 87-94). *)
Definition split_step (ctx : TextMeasure) (maxWidth : Q)
  (st : list string * string) (ch : ascii) : list string * string :=
  let '(lines, chunk) := st in
  let t := chunk +:+ String ch "" in
  if leb (ctx t) maxWidth then (lines, t)
  else ((if truthy chunk then lines ++ [chunk] else lines), String ch "").

(** The body of the outer loop [for (const tok of tokens)] (lines 73-96). *)
Definition token_step (ctx : TextMeasure) (maxWidth : Q)
  (st : list string * string) (tok : string) : list string * string :=
  let '(lines, current) := st in
  let test := if truthy current then current +:+ " " +:+ tok else tok in
  if leb (ctx test) maxWidth then (lines, test)
  else
    let lines := if truthy current then push_line lines current else lines in
    let current := "" in
    if leb (ctx tok) maxWidth then (lines, tok)
    else
      let '(lines, chunk) :=
        fold_left (split_step ctx maxWidth) (chars tok) (lines, "") in
      (lines, if truthy chunk then chunk else current).

(** [wrapTextSmart] (lines 59-99). *)
Definition wrapTextSmart (ctx : TextMeasure) (text : string) (maxWidth : Q)
  : list string :=
  let '(lines, current) :=
    fold_left (token_step ctx maxWidth) (tokens text) ([], "") in
  push_line lines current.

Module CardData.
Record t := {
  id : string;
  quote : string;
  author : string;
  width : Q;
  height : Q;
  palette : Palette.t;
  gradient : string * string;
  font : FontPack.t;
  bgType : string;
  layout : string;
  seed : Q;
  format : string;
  (** [radius] is stored as a decimal string; the field holds the number
      [Number(card.radius)] reads from it. *)
  radius : Q;
  quoteSizeMultiplier : Q;
  authorSizeMultiplier : Q;
  createdAt : string
}.
End CardData.

(** [x || d] on numbers: 0 is falsy. *)
Definition or_else (x d : Q) : Q := if Qeq_bool x 0 then d else x.

(** The clip, the background and the doodles of [renderCard] (lines
    344-424). *)
Definition backdrop (h : Host) (width height radius : Q) (palette : Palette.t)
  (gradient : string * string) (bgType : string) (seed : Q) : Draw unit :=
  save ;;
  roundedRectPath 0 0 width height radius ;;
  emit Clip ;;
  let isDark := String.eqb bgType "dark" in
  drawBackground h width height palette gradient bgType seed ;;
  let doodleColor :=
    if isDark then "rgba(255,255,255,1)" else Palette.accent palette in
  drawDoodles h width height doodleColor (seed + 999).

(** The layout block of [renderCard] (lines 426-458). *)
Definition layoutAccents (h : Host) (width height innerPadding : Q)
  (palette : Palette.t)
  (layout : string) : Draw Layout.t :=
  let contentY := height * 0.52 in
  let contentX := width * 0.5 in
  let align := "center" in
  let innerMax := width - innerPadding * 2 in
  if String.eqb layout "left" then
    mret {| Layout.contentY := height * 0.46; Layout.contentX := innerPadding;
            Layout.align := "left"; Layout.innerMax := innerMax |}
  else if String.eqb layout "icon-top" then
    setGlobalAlpha 0.25 ;;
    emit (SetFillStyle (Css (Palette.accent palette))) ;;
    emit BeginPath ;;
    emit (Arc (width * 0.5) (height * 0.22) 54 0 (PI h * 2)) ;;
    emit Fill ;;
    setGlobalAlpha 1 ;;
    mret {| Layout.contentY := height * 0.56; Layout.contentX := contentX;
            Layout.align := align; Layout.innerMax := innerMax |}
  else if String.eqb layout "split" then
    setGlobalAlpha 0.18 ;;
    emit (SetFillStyle (Css (Palette.accent palette))) ;;
    lay ← (if leb width height then
             emit (FillRect 0 0 width (height * 0.32)) ;;
             mret {| Layout.contentY := height * 0.58;
                     Layout.contentX := contentX;
                     Layout.align := align; Layout.innerMax := innerMax |}
           else
             emit (FillRect 0 0 (width * 0.32) height) ;;
             mret {| Layout.contentY := contentY;
                     Layout.contentX := width * 0.38;
                     Layout.align := "left";
                     Layout.innerMax := width * 0.55 |});
    setGlobalAlpha 1 ;;
    mret lay
  else
    mret {| Layout.contentY := contentY; Layout.contentX := contentX;
            Layout.align := align; Layout.innerMax := innerMax |}.

(** [renderCard] (lines 319-503).  A canvas without a 2D context is
    [None]; the function then returns at once. *)
Definition renderCard (h : Host) (canvas : option Ctx) (card : CardData.t)
  : option Ctx :=
  match canvas with
  | None => None
  | Some _ =>
      let width := Qmax 1 (or_else (CardData.width card) 1) in
      let height := Qmax 1 (or_else (CardData.height card) 1) in
      let palette := CardData.palette card in
      let gradient := CardData.gradient card in
      let font := CardData.font card in
      let bgType := CardData.bgType card in
      let layout := CardData.layout card in
      let seed := CardData.seed card in
      let quoteMul := or_else (CardData.quoteSizeMultiplier card) 100 / 100 in
      let authorMul := or_else (CardData.authorSizeMultiplier card) 100 / 100 in
      let padding := width * 0.1 in
      let qSize := floor (width * 0.05 * quoteMul) in
      let qLine := qSize * 1.38 in
      let aSize :=
        if truthy (trim (CardData.author card))
        then floor (width * 0.034 * authorMul) else 0 in
      let radius := CardData.radius card in
      let body : Draw unit :=
        backdrop h width height radius palette gradient bgType seed ;;
        let innerPadding := padding in
        lay ← layoutAccents h width height innerPadding palette layout;
        colors ← chooseTextColors h width height palette;
        emit (SetTextAlign (Layout.align lay)) ;;
        emit (SetTextBaseline "top") ;;
        setFont {| font_weight := None; font_px := qSize;
                   font_family := FontPack.quote font |} ;;
        emit (SetFillStyle (Css (TextColors.quoteColor colors))) ;;
        let safeTop := innerPadding * 0.9 in
        let safeBottom := height - innerPadding * 0.9 in
        textLines ← (fun c =>
          (wrapTextSmart (measureText h c) (CardData.quote card)
             (Layout.innerMax lay), c));
        let quoteH := num (length textLines) * qLine in
        let aGap := if truthy (trim (CardData.author card)) then aSize * 0.6 else 0 in
        let aBlock := if truthy (trim (CardData.author card)) then aSize * 1.6 else 0 in
        let totalH := quoteH + aGap + aBlock in
        let y := Layout.contentY lay - totalH / 2 in
        let y := if ltb y safeTop then safeTop else y in
        let y := if ltb safeBottom (y + totalH) then safeBottom - totalH else y in
        let y := if ltb y safeTop then safeTop else y in
        let x := if String.eqb (Layout.align lay) "left"
                 then Layout.contentX lay else width / 2 in
        y ← fillLines textLines x y qLine;
        (if truthy (trim (CardData.author card)) then
           let y := y + aGap in
           setFont {| font_weight := Some 800%Z; font_px := aSize;
                      font_family := FontPack.author font |} ;;
           emit (SetFillStyle (Css (TextColors.authorColor colors))) ;;
           emit (FillText (CardData.author card) x y)
         else mret tt) ;;
        restore in
      Some (snd (body (resize width height)))
  end.

(** *** The page around the cards *)

(** [list.sort((a, b) => new Date(b.createdAt).getTime() - new
    Date(a.createdAt).getTime())] (lines 581-584, 605-608 and 1397-1400):
    [Array.prototype.sort] is stable, so with the clock readings [time] of
    the dates the result is that of inserting each card before the first
    card that is not newer than it. *)
Fixpoint insert_card (time : string -> Q) (c : CardData.t)
  (l : list CardData.t) : list CardData.t :=
  match l with
  | [] => [c]
  | d :: rest =>
      if leb (time (CardData.createdAt d)) (time (CardData.createdAt c))
      then c :: l
      else d :: insert_card time c rest
  end.

Definition sort_newest_first (time : string -> Q) (l : list CardData.t)
  : list CardData.t :=
  fold_right (insert_card time) [] l.

(** What [get] resolves to: [None] when [!snap.exists()], else the
    entries of [snap.val()] in key order, each with its key as [id]
    ([Object.entries(val).map(([id, v]) => ({ id, ...v }))]). *)
Definition Snapshot := option (list CardData.t).

(** The database as [fetchPage] uses it; [None] is a rejected promise. *)
Record Database := {
  (** [get(query(wallRef, orderByChild("createdAt"), endAt(e),
      limitToLast(n)))], without [endAt] for [None] *)
  get_query : option string -> nat -> option Snapshot;
  (** [get(wallRef)] *)
  get_all : option Snapshot
}.

(** Line 40. *)
Definition pageSize : nat := 15.

(** The state of the page (lines 37-41). *)
Module PageState.
Record t := {
  cards : list CardData.t;
  loading : bool;
  loadingMore : bool;
  hasMore : bool
}.
End PageState.

(** Truthiness of [earliestCreatedAt?: string]. *)
Definition given (e : option string) : bool :=
  match e with
  | Some s => truthy s
  | None => false
  end.

(** [new Date(c.createdAt) < new Date(earliestCreatedAt)] (line 615). *)
Definition older_than (time : string -> Q) (e : option string)
  (c : CardData.t) : bool :=
  match e with
  | Some s => ltb (time (CardData.createdAt c)) (time s)
  | None => false
  end.

(** Lines 622-637 of [fetchPage]: the fetched [list] becomes the cards, or
    follows them. *)
Definition show_page (e : option string) (s : PageState.t)
  (list : list CardData.t) : PageState.t :=
  if negb (given e) then
    {| PageState.cards := list; PageState.loading := false;
       PageState.loadingMore := false;
       PageState.hasMore := (pageSize <=? length list)%nat |}
  else
    let list := if (pageSize <? length list)%nat then List.tl list else list in
    {| PageState.cards := PageState.cards s ++ list;
       PageState.loading := false; PageState.loadingMore := false;
       PageState.hasMore := (pageSize <=? length list)%nat |}.

(** Lines 571-575 and 594-598: there is nothing at the node. *)
Definition show_nothing (e : option string) (s : PageState.t) : PageState.t :=
  {| PageState.cards := if given e then PageState.cards s else [];
     PageState.loading := false; PageState.loadingMore := false;
     PageState.hasMore := false |}.

(** [fetchPage] (lines 546-644): the state once the promise has settled. *)
Definition fetchPage (time : string -> Q) (db : Database)
  (earliestCreatedAt : option string) (s : PageState.t) : PageState.t :=
  let q :=
    if given earliestCreatedAt
    then get_query db earliestCreatedAt (pageSize + 1)
    else get_query db None pageSize in
  match q with
  | Some None => show_nothing earliestCreatedAt s
  | Some (Some entries) =>
      show_page earliestCreatedAt s (sort_newest_first time entries)
  | None =>
      match get_all db with
      | None =>
          {| PageState.cards := PageState.cards s; PageState.loading := false;
             PageState.loadingMore := false;
             PageState.hasMore := PageState.hasMore s |}
      | Some None => show_nothing earliestCreatedAt s
      | Some (Some entries) =>
          let allList := sort_newest_first time entries in
          let list :=
            if negb (given earliestCreatedAt) then firstn pageSize allList
            else
              firstn pageSize
                (List.filter (older_than time earliestCreatedAt) allList) in
          show_page earliestCreatedAt s list
      end
  end.

(** The callback of the [IntersectionObserver] (lines 656-662) for one
    entry. *)
Definition onIntersect (time : string -> Q) (db : Database)
  (isIntersecting : bool) (s : PageState.t) : PageState.t :=
  if (isIntersecting && PageState.hasMore s && negb (PageState.loadingMore s)
      && (0 <? length (PageState.cards s))%nat)%bool
  then
    match last (PageState.cards s) with
    | Some oldest => fetchPage time db (Some (CardData.createdAt oldest)) s
    | None => s
    end
  else s.

(** The effect that draws the cards (lines 672-677 and 1411-1416):
    [canvasRefs] maps the id of a card to its canvas. *)
Fixpoint renderCards (h : Host) (cards : list CardData.t)
  (canvasRefs : gmap string Ctx) : gmap string Ctx :=
  match cards with
  | [] => canvasRefs
  | c :: rest =>
      let canvasRefs :=
        match canvasRefs !! CardData.id c with
        | Some canvas =>
            match renderCard h (Some canvas) c with
            | Some canvas => <[CardData.id c := canvas]> canvasRefs
            | None => canvasRefs
            end
        | None => canvasRefs
        end in
      renderCards h rest canvasRefs
  end.

End Wall.
(** ** The live wall page (page.tsx, lines 861-1622) *)

Module LiveWall.

Definition push_line (lines : list string) (current : string) : list string :=
  if truthy current then lines ++ [current] else lines.

(** Lines 936-943. *)
Definition split_step (ctx : TextMeasure) (maxWidth : Q)
  (st : list string * string) (ch : ascii) : list string * string :=
  let '(lines, chunk) := st in
  let t := chunk +:+ String ch "" in
  if leb (ctx t) maxWidth then (lines, t)
  else ((if truthy chunk then lines ++ [chunk] else lines), String ch "").

(** Lines 922-945. *)
Definition token_step (ctx : TextMeasure) (maxWidth : Q)
  (st : list string * string) (tok : string) : list string * string :=
  let '(lines, current) := st in
  let test := if truthy current then current +:+ " " +:+ tok else tok in
  if leb (ctx test) maxWidth then (lines, test)
  else
    let lines := if truthy current then push_line lines current else lines in
    let current := "" in
    if leb (ctx tok) maxWidth then (lines, tok)
    else
      let '(lines, chunk) :=
        fold_left (split_step ctx maxWidth) (chars tok) (lines, "") in
      (lines, if truthy chunk then chunk else current).

(** [wrapTextSmart] (lines 908-948). *)
Definition wrapTextSmart (ctx : TextMeasure) (text : string) (maxWidth : Q)
  : list string :=
  let '(lines, current) :=
    fold_left (token_step ctx maxWidth) (tokens text) ([], "") in
  push_line lines current.

(** The listener of [onValue] (lines 1385-1403): the cards shown after
    the snapshot [snap].  The rendering of the live wall is that of the
    paginated wall, whose text it repeats (lines 1168-1352). *)
Definition onSnapshot (time : string -> Q) (snap : Wall.Snapshot)
  : list Wall.CardData.t :=
  match snap with
  | None => []
  | Some entries => Wall.sort_newest_first time entries
  end.

End LiveWall.

(** ** The generator page (page.tsx, lines 1623-2930) *)

Module Generator.

Inductive FormatKey := square | portrait | landscape.

Module Format.
Record t := { minWidth : Q; minHeight : Q }.
End Format.

(** [FORMATS] (lines 1657-1662). *)
Definition FORMATS (k : FormatKey) : Format.t :=
  match k with
  | square => {| Format.minWidth := 1080; Format.minHeight := 1080 |}
  | portrait => {| Format.minWidth := 1080; Format.minHeight := 1350 |}
  | landscape => {| Format.minWidth := 1600; Format.minHeight := 900 |}
  end.

Module Design.
Record t := {
  palette : Palette.t;
  gradient : string * string;
  font : FontPack.t;
  bgType : string;
  layout : string;
  seed : Q
}.
End Design.

Module CardState.
Record t := { w : option Q; h : option Q; previewW : option Q }.
End CardState.

Definition mkPalette (bg text accent : string) : Palette.t :=
  {| Palette.bg := bg; Palette.text := text; Palette.accent := accent |}.

(** [PALETTES] (lines 1665-1677). *)
Definition PALETTES : list Palette.t := [
  mkPalette "#FFF5F5" "#2D3748" "#E53E3E";
  mkPalette "#EBF8FF" "#1A365D" "#2B6CB0";
  mkPalette "#F0FFF4" "#1C4532" "#2F855A";
  mkPalette "#FFFAF0" "#5F370E" "#DD6B20";
  mkPalette "#FAF5FF" "#2A1F55" "#6B46C1";
  mkPalette "#FFF5F7" "#521B41" "#B83280";
  mkPalette "#E6FFFA" "#234E52" "#2C7A7B";
  mkPalette "#F7FAFC" "#1A202C" "#4A5568";
  mkPalette "#0B1020" "#E6E6EA" "#7C3AED";
  mkPalette "#0F172A" "#E2E8F0" "#38BDF8";
  mkPalette "#111827" "#F9FAFB" "#F59E0B"
].

(** [GRADIENTS] (lines 1679-1690). *)
Definition GRADIENTS : list (string * string) := [
  ("#667eea", "#764ba2");
  ("#4facfe", "#00f2fe");
  ("#f093fb", "#f5576c");
  ("#43e97b", "#38f9d7");
  ("#fa709a", "#fee140");
  ("#30cfd0", "#330867");
  ("#a8edea", "#fed6e3");
  ("#ff9a9e", "#fad0c4");
  ("#1f2937", "#111827");
  ("#0ea5e9", "#22c55e")
].

Definition mkFont (family : string) : FontPack.t :=
  {| FontPack.quote := family; FontPack.author := family |}.

(** [FONTS] (lines 1692-1702). *)
Definition FONTS : list FontPack.t := [
  mkFont "Georgia, serif";
  mkFont "Palatino, serif";
  mkFont "Garamond, serif";
  mkFont "-apple-system, BlinkMacSystemFont, sans-serif";
  mkFont "Trebuchet MS, sans-serif";
  mkFont "Verdana, sans-serif"
].

Module StylePack.
Record t := { bgTypes : list string; layouts : list string }.
End StylePack.

Definition balanced : StylePack.t :=
  {| StylePack.bgTypes :=
       ["solid"; "gradient"; "paper"; "noise"; "halftone"; "blobs"; "glass";
        "stripes"];
     StylePack.layouts :=
       ["centered"; "left"; "split"; "underline"; "footer"; "corner-frame";
        "diagonal"] |}.

(** [STYLE_PACKS] (lines 1704-1741). *)
Definition STYLE_PACKS : gmap string StylePack.t :=
  list_to_map [
    ("balanced", balanced);
    ("bold",
     {| StylePack.bgTypes := ["gradient"; "dark"; "stripes"; "blobs"];
        StylePack.layouts := ["split"; "diagonal"; "side-stripe"; "corner-frame"] |});
    ("minimal",
     {| StylePack.bgTypes := ["solid"; "paper"];
        StylePack.layouts := ["centered"; "left"; "underline"; "footer"; "bordered"] |});
    ("playful",
     {| StylePack.bgTypes := ["gradient"; "halftone"; "blobs"; "noise"; "paper"];
        StylePack.layouts := ["icon-top"; "split"; "diagonal"; "underline"] |})
  ].

(** What the generator reads from outside its own code: the form controls
    of the page (lines 1747-1761) and the clock.  [quoteSize] and
    [authorSize] hold the numbers [Number(quoteSize.value)] and
    [Number(authorSize.value)] read from the range inputs; [count] holds
    [Number(countSelect.value)]. *)
Module Page.
Record t := {
  quoteText : string;
  authorText : string;
  formatSelect : FormatKey;
  countSelect : nat;
  radiusSelect : Q;
  stylePack : string;
  liveUpdate : bool;
  quoteSize : Q;
  authorSize : Q;
  (** [Date.now()] *)
  now : Q
}.
End Page.

(** [pick] (lines 1768-1770).  [None] is [undefined], the value of an
    index outside the array. *)
Definition pick {T : Type} (h : Host) (arr : list T) (seed : Q) : option T :=
  let i := Qfloor (seededRandom h seed * num (length arr)) in
  if (i <? 0)%Z then None else nth_error arr (Z.to_nat i).

(** [generateDesign] (lines 1772-1780).  The result is [None] when a pick
    is [undefined]; [generateDesign_total] shows that none is. *)
Definition generateDesign (h : Host) (p : Page.t) (seed : Q) : option Design.t :=
  let pack := default balanced (STYLE_PACKS !! Page.stylePack p) in
  palette ← pick h PALETTES seed;
  let seed := seed + 1 in
  gradient ← pick h GRADIENTS seed;
  let seed := seed + 1 in
  font ← pick h FONTS seed;
  let seed := seed + 1 in
  bgType ← pick h (StylePack.bgTypes pack) seed;
  let seed := seed + 1 in
  layout ← pick h (StylePack.layouts pack) seed;
  let seed := seed + 1 in
  Some {| Design.palette := palette; Design.gradient := gradient;
          Design.font := font; Design.bgType := bgType;
          Design.layout := layout; Design.seed := seed |}.

Definition push_line (lines : list string) (current : string) : list string :=
  if truthy current then lines ++ [current] else lines.

(** Lines 1848-1856. *)
Definition split_step (ctx : TextMeasure) (maxWidth : Q)
  (st : list string * string) (ch : ascii) : list string * string :=
  let '(lines, chunk) := st in
  let t := chunk +:+ String ch "" in
  if leb (ctx t) maxWidth then (lines, t)
  else ((if truthy chunk then lines ++ [chunk] else lines), String ch "").

(** Lines 1833-1858. *)
Definition token_step (ctx : TextMeasure) (maxWidth : Q)
  (st : list string * string) (tok : string) : list string * string :=
  let '(lines, current) := st in
  let test := if truthy current then current +:+ " " +:+ tok else tok in
  if leb (ctx test) maxWidth then (lines, test)
  else
    let lines := if truthy current then push_line lines current else lines in
    let current := "" in
    if leb (ctx tok) maxWidth then (lines, tok)
    else
      let '(lines, chunk) :=
        fold_left (split_step ctx maxWidth) (chars tok) (lines, "") in
      (lines, if truthy chunk then chunk else current).

(** [wrapTextSmart] (lines 1819-1861). *)
Definition wrapTextSmart (ctx : TextMeasure) (text : string) (maxWidth : Q)
  : list string :=
  let '(lines, current) :=
    fold_left (token_step ctx maxWidth) (tokens text) ([], "") in
  push_line lines current.

(** [computeSafeStartY] (lines 2057-2068). *)
Definition computeSafeStartY (contentY blockH safeTop safeBottom : Q) : Q :=
  let y := contentY - blockH / 2 in
  let y := if ltb y safeTop then safeTop else y in
  let y := if ltb safeBottom (y + blockH) then safeBottom - blockH else y in
  let y := if ltb y safeTop then safeTop else y in
  y.

#[export] Instance palette_eq_dec : EqDecision Palette.t.
Proof. solve_decision. Defined.

(** [arr.indexOf(x)], counted from [i]; -1 when [x] is absent.  The
    palettes of the catalogue are pairwise different, so comparing them
    by content finds the same index as comparing the objects. *)
Fixpoint index_from (i : Z) (arr : list Palette.t) (x : Palette.t) : Z :=
  match arr with
  | [] => (-1)%Z
  | y :: rest => if decide (y = x) then i else index_from (i + 1)%Z rest x
  end.

Definition indexOf (arr : list Palette.t) (x : Palette.t) : Z :=
  index_from 0 arr x.

(** The key of a design in [makeDesigns] (lines 2091-2093). *)
Definition design_hash (d : Design.t) : string :=
  Design.bgType d +:+ "-" +:+ Design.layout d +:+ "-"
    +:+ show (inject_Z (indexOf PALETTES (Design.palette d))) +:+ "-"
    +:+ FontPack.quote (Design.font d).

(** One card's outcome in [makeDesigns]: the design, its key, and the
    number of designs generated for it. *)
Module Attempt.
Record t := { design : Design.t; hash : string; tries : nat }.
End Attempt.

(** The [do ... while] loop of [makeDesigns] (lines 2088-2095) for card
    [i], entered with [tries] designs generated so far; [fuel] bounds the
    number of iterations of the model, and [None] is returned when it runs
    out (or a design has an [undefined] font). *)
Fixpoint attempts (fuel : nat) (h : Host) (p : Page.t) (baseSeed : Q)
  (used : gset string) (i : nat) (tries : nat) : option Attempt.t :=
  match fuel with
  | O => None
  | S fuel' =>
      let seed := baseSeed + num i * 1000 + num tries * 111 in
      d ← generateDesign h p seed;
      let hash := design_hash d in
      let tries := S tries in
      if (bool_decide (hash ∈ used) && (tries <? 60)%nat)%bool
      then attempts fuel' h p baseSeed used i tries
      else Some {| Attempt.design := d; Attempt.hash := hash;
                   Attempt.tries := tries |}
  end.

(** The [for] loop of [makeDesigns] (lines 2084-2098) over the card
    indices [cards], with the outcomes so far and the keys in use. *)
Fixpoint design_loop (fuel : nat) (h : Host) (p : Page.t) (baseSeed : Q)
  (cards : list nat) (done : list Attempt.t) (used : gset string)
  : option (list Attempt.t) :=
  match cards with
  | [] => Some done
  | i :: rest =>
      a ← attempts fuel h p baseSeed used i 0;
      design_loop fuel h p baseSeed rest (done ++ [a]) ({[Attempt.hash a]} ∪ used)
  end.

(** [makeDesigns] with its bookkeeping: every card's design, key and
    number of tries. *)
Definition makeDesigns_run (fuel : nat) (h : Host) (p : Page.t) (count : nat)
  : option (list Attempt.t) :=
  let baseSeed := Page.now p in
  design_loop fuel h p baseSeed (seq 0 count) [] ∅.

(** [makeDesigns] (lines 2079-2100); the retry loop gets 60 iterations. *)
Definition makeDesigns (h : Host) (p : Page.t) (count : nat)
  : option (list Design.t) :=
  map Attempt.design <$> makeDesigns_run 60 h p count.

(** [getQuoteMul] and [getAuthorMul] (lines 1953-1958). *)
Definition getQuoteMul (p : Page.t) : Q := Page.quoteSize p / 100.
Definition getAuthorMul (p : Page.t) : Q := Page.authorSize p / 100.

(** [Math.ceil], as a number. *)
Definition ceil (x : Q) : Q := inject_Z (Qceiling x).

(** [sizeOverride?.w ?? d] and [sizeOverride?.h ?? d]. *)
Definition override_w (sizeOverride : option CardState.t) (d : Q) : Q :=
  match sizeOverride with
  | Some st => match CardState.w st with Some v => v | None => d end
  | None => d
  end.

Definition override_h (sizeOverride : option CardState.t) (d : Q) : Q :=
  match sizeOverride with
  | Some st => match CardState.h st with Some v => v | None => d end
  | None => d
  end.

(** The export size asked for (lines 2220-2224): the minimum of the
    format, or the override when it is larger. *)
Definition requestedWidth (format : FormatKey)
  (sizeOverride : option CardState.t) : Q :=
  let base := FORMATS format in
  Qmax (Format.minWidth base) (override_w sizeOverride (Format.minWidth base)).

Definition requestedHeight (format : FormatKey)
  (sizeOverride : option CardState.t) : Q :=
  let base := FORMATS format in
  Qmax (Format.minHeight base) (override_h sizeOverride (Format.minHeight base)).

(** The measuring pass of [renderCard] (lines 2229-2247): the height of the
    text block when the quote is wrapped at the full inner width, on a
    canvas of its own. *)
Definition measuredBlockH (h : Host) (p : Page.t) (width : Q)
  (quote author : string) (design : Design.t) : Q :=
  let quoteMul := getQuoteMul p in
  let authorMul := getAuthorMul p in
  let m := resize width 10 in
  let padding := width * 0.1 in
  let maxWidth := width - padding * 2 in
  let qSize := floor (width * 0.05 * quoteMul) in
  let qLine := qSize * 1.38 in
  let ctxM :=
    snd (setFont {| font_weight := None; font_px := qSize;
                    font_family := FontPack.quote (Design.font design) |} m) in
  let lines := wrapTextSmart (measureText h ctxM) quote maxWidth in
  let aSize :=
    if truthy (trim author) then floor (width * 0.034 * authorMul) else 0 in
  let aGap := if truthy (trim author) then aSize * 0.6 else 0 in
  num (length lines) * qLine + aGap
    + (if truthy (trim author) then aSize * 1.6 else 0).

(** The background block of [renderCard] is [drawBackground]; the doodles
    follow unless the style pack is [minimal] (lines 2262-2347). *)
Definition backdrop (h : Host) (p : Page.t) (width height radius : Q)
  (design : Design.t) : Draw unit :=
  let palette := Design.palette design in
  let seed := Design.seed design in
  save ;;
  roundedRectPath 0 0 width height radius ;;
  emit Clip ;;
  let isDark := String.eqb (Design.bgType design) "dark" in
  drawBackground h width height palette (Design.gradient design)
    (Design.bgType design) seed ;;
  let pack := Page.stylePack p in
  if negb (String.eqb pack "minimal") then
    let doodleColor :=
      if isDark then "rgba(255,255,255,1)" else Palette.accent palette in
    drawDoodles h width height doodleColor (seed + 999)
  else mret tt.

(** The layout block of [renderCard] (lines 2349-2431). *)
Definition layoutAccents (h : Host) (width height padding : Q)
  (palette : Palette.t) (layout : string) : Draw Layout.t :=
  let contentY := height * 0.52 in
  let contentX := width * 0.5 in
  let align := "center" in
  let innerMax := width - padding * 2 in
  let mk contentY contentX align innerMax :=
    {| Layout.contentY := contentY; Layout.contentX := contentX;
       Layout.align := align; Layout.innerMax := innerMax |} in
  if String.eqb layout "left" then
    mret (mk (height * 0.46) padding "left" innerMax)
  else if String.eqb layout "icon-top" then
    setGlobalAlpha 0.25 ;;
    emit (SetFillStyle (Css (Palette.accent palette))) ;;
    emit BeginPath ;;
    emit (Arc (width * 0.5) (height * 0.22) 54 0 (PI h * 2)) ;;
    emit Fill ;;
    setGlobalAlpha 1 ;;
    mret (mk (height * 0.56) contentX align innerMax)
  else if String.eqb layout "bordered" then
    emit (SetStrokeStyle (Css (Palette.accent palette))) ;;
    emit (SetLineWidth 7) ;;
    emit (StrokeRect (padding / 2) (padding / 2) (width - padding)
            (height - padding)) ;;
    mret (mk contentY contentX align (width - padding * 3))
  else if String.eqb layout "split" then
    setGlobalAlpha 0.18 ;;
    emit (SetFillStyle (Css (Palette.accent palette))) ;;
    lay ← (if leb width height then
             emit (FillRect 0 0 width (height * 0.32)) ;;
             mret (mk (height * 0.58) contentX align innerMax)
           else
             emit (FillRect 0 0 (width * 0.32) height) ;;
             mret (mk contentY (width * 0.38) "left" (width * 0.55)));
    setGlobalAlpha 1 ;;
    mret lay
  else if String.eqb layout "underline" then
    setGlobalAlpha 0.22 ;;
    emit (SetFillStyle (Css (Palette.accent palette))) ;;
    emit (FillRect padding (height * 0.72) (width - padding * 2) 10) ;;
    setGlobalAlpha 1 ;;
    mret (mk contentY contentX align innerMax)
  else if String.eqb layout "footer" then
    setGlobalAlpha 0.18 ;;
    emit (SetFillStyle (Css (Palette.accent palette))) ;;
    emit (FillRect 0 (height * 0.82) width (height * 0.18)) ;;
    setGlobalAlpha 1 ;;
    mret (mk (height * 0.48) contentX align innerMax)
  else if String.eqb layout "corner-frame" then
    emit (SetStrokeStyle (Css (Palette.accent palette))) ;;
    emit (SetLineWidth 8) ;;
    let s := padding * 0.9 in
    emit BeginPath ;;
    emit (MoveTo (padding * 0.6) (padding * 0.6 + s)) ;;
    emit (LineTo (padding * 0.6) (padding * 0.6)) ;;
    emit (LineTo (padding * 0.6 + s) (padding * 0.6)) ;;
    emit (MoveTo (width - padding * 0.6 - s) (padding * 0.6)) ;;
    emit (LineTo (width - padding * 0.6) (padding * 0.6)) ;;
    emit (LineTo (width - padding * 0.6) (padding * 0.6 + s)) ;;
    emit (MoveTo (padding * 0.6) (height - padding * 0.6 - s)) ;;
    emit (LineTo (padding * 0.6) (height - padding * 0.6)) ;;
    emit (LineTo (padding * 0.6 + s) (height - padding * 0.6)) ;;
    emit (MoveTo (width - padding * 0.6 - s) (height - padding * 0.6)) ;;
    emit (LineTo (width - padding * 0.6) (height - padding * 0.6)) ;;
    emit (LineTo (width - padding * 0.6) (height - padding * 0.6 - s)) ;;
    emit Stroke ;;
    mret (mk contentY contentX align (width - padding * 2.4))
  else if String.eqb layout "diagonal" then
    setGlobalAlpha 0.18 ;;
    emit (SetFillStyle (Css (Palette.accent palette))) ;;
    emit BeginPath ;;
    emit (MoveTo 0 0) ;;
    emit (LineTo width 0) ;;
    emit (LineTo width (height * 0.45)) ;;
    emit ClosePath ;;
    emit Fill ;;
    setGlobalAlpha 1 ;;
    mret (mk (height * 0.58) contentX align innerMax)
  else
    mret (mk contentY contentX align innerMax).

(** The text block of [renderCard] (lines 2433-2471). *)
Definition drawText (h : Host) (p : Page.t) (width height : Q)
  (quote author : string) (design : Design.t) (lay : Layout.t)
  : Draw unit :=
  let quoteMul := getQuoteMul p in
  let authorMul := getAuthorMul p in
  let padding := width * 0.1 in
  let qSize := floor (width * 0.05 * quoteMul) in
  let qLine := qSize * 1.38 in
  let aSize :=
    if truthy (trim author) then floor (width * 0.034 * authorMul) else 0 in
  let aGap := if truthy (trim author) then aSize * 0.6 else 0 in
  let font := Design.font design in
  colors ← chooseTextColors h width height (Design.palette design);
  emit (SetTextAlign (Layout.align lay)) ;;
  emit (SetTextBaseline "top") ;;
  setFont {| font_weight := None; font_px := qSize;
             font_family := FontPack.quote font |} ;;
  emit (SetFillStyle (Css (TextColors.quoteColor colors))) ;;
  let safeTop := padding * 0.9 in
  let safeBottom := height - padding * 0.9 in
  textLines ← (fun c =>
    (wrapTextSmart (measureText h c) quote (Layout.innerMax lay), c));
  let quoteH := num (length textLines) * qLine in
  let aBlock := if truthy (trim author) then aSize * 1.6 else 0 in
  let totalH := quoteH + aGap + aBlock in
  let y := computeSafeStartY (Layout.contentY lay) totalH safeTop safeBottom in
  let x := if String.eqb (Layout.align lay) "left"
           then Layout.contentX lay else width / 2 in
  y ← fillLines textLines x y qLine;
  if truthy (trim author) then
    let y := y + aGap in
    setFont {| font_weight := Some 800%Z; font_px := aSize;
               font_family := FontPack.author font |} ;;
    emit (SetFillStyle (Css (TextColors.authorColor colors))) ;;
    emit (FillText author x y)
  else mret tt.

(** [renderCard] (lines 2211-2472).  [canvas] is the canvas as it was
    before the call; [radius] is the number [Number(radius)] reads from
    the select. *)
Definition renderCard (h : Host) (p : Page.t) (canvas : Ctx)
  (quote author : string) (design : Design.t) (format : FormatKey)
  (radius : Q) (sizeOverride : option CardState.t) : Ctx :=
  let width := requestedWidth format sizeOverride in
  let height := requestedHeight format sizeOverride in
  let padding := width * 0.1 in
  let blockH := measuredBlockH h p width quote author design in
  let needed := ceil (blockH + padding * 2.6) in
  let height := Qmax height needed in
  let body : Draw unit :=
    backdrop h p width height radius design ;;
    lay ← layoutAccents h width height padding (Design.palette design)
            (Design.layout design);
    drawText h p width height quote author design lay ;;
    restore in
  snd (body (resize width height)).

(** *** The page around the cards *)

(** [x || d] on numbers: 0 is falsy. *)
Definition or_else (x d : Q) : Q := if Qeq_bool x 0 then d else x.

(** [PREVIEW_SCALE] (line 1655). *)
Definition PREVIEW_SCALE : Q := 0.28.

(** The value of the format select for a format. *)
Definition format_name (k : FormatKey) : string :=
  match k with
  | square => "square"
  | portrait => "portrait"
  | landscape => "landscape"
  end.

(** What [uploadToWall] did: nothing for a blank quote, a record pushed to
    the database, or an exception caught (a missing design, a rejected
    push).  The toasts are left out. *)
Inductive Upload :=
| Rejected
| Pushed (cardData : Wall.CardData.t)
| Failed.

(** [uploadToWall] (lines 1905-1951).  [key] is the key the database gives
    the record, which the walls read back as its [id]; [iso] is the clock
    as [new Date().toISOString()]; [accepted] tells whether [push]
    resolves. *)
Definition uploadToWall (p : Page.t) (designsCache : list Design.t)
  (canvas : Ctx) (index : nat) (key iso : string) (accepted : bool) : Upload :=
  let quote := Page.quoteText p in
  let author := Page.authorText p in
  if negb (truthy (trim quote)) then Rejected
  else
    match designsCache !! index with
    | None => Failed
    | Some design =>
        let cardData :=
          {| Wall.CardData.id := key;
             Wall.CardData.quote := trim quote;
             Wall.CardData.author := trim author;
             Wall.CardData.width := Canvas.width canvas;
             Wall.CardData.height := Canvas.height canvas;
             Wall.CardData.palette := Design.palette design;
             Wall.CardData.gradient := Design.gradient design;
             Wall.CardData.font := Design.font design;
             Wall.CardData.bgType := Design.bgType design;
             Wall.CardData.layout := Design.layout design;
             Wall.CardData.seed := Design.seed design;
             Wall.CardData.format := format_name (Page.formatSelect p);
             Wall.CardData.radius := Page.radiusSelect p;
             Wall.CardData.quoteSizeMultiplier := Page.quoteSize p;
             Wall.CardData.authorSizeMultiplier := Page.authorSize p;
             Wall.CardData.createdAt := iso |} in
        if accepted then Pushed cardData else Failed
    end.

(** A card of the grid ([buildCard], lines 2571-2619): its canvas and the
    width of its preview, the CSS variable [--preview-w] in pixels.  The
    size pill shows the size of the canvas and is left out. *)
Module DomCard.
Record t := { canvas : Ctx; previewW : Q }.
End DomCard.

(** The variables of the page the handlers share (lines 1659-1661): the
    designs of the batch, the size each card was dragged to (an entry
    never assigned is [None]), the cards of the grid and the toast
    shown. *)
Module State.
Record t := {
  designsCache : list Design.t;
  cardState : list (option CardState.t);
  domCards : list DomCard.t;
  toast : option string
}.
End State.

(** [{ w: null, h: null, previewW: null }] *)
Definition no_size : CardState.t :=
  {| CardState.w := None; CardState.h := None; CardState.previewW := None |}.

(** [arr[i]], [undefined] past the end and at an entry never assigned. *)
Definition at_index {T : Type} (arr : list (option T)) (i : nat) : option T :=
  mjoin (arr !! i).

(** [arr[i] = v]: past the end the array grows, the entries between being
    left unassigned. *)
Definition assign {T : Type} (arr : list (option T)) (i : nat) (v : T)
  : list (option T) :=
  if (i <? length arr)%nat then <[i := Some v]> arr
  else arr ++ replicate (i - length arr) None ++ [Some v].

(** The preview width of a card (lines 2671-2679 and 2713-2721): the width
    kept from a drag, or 28% of the canvas, at most 700. *)
Definition preview_width (st : option CardState.t) (canvas : Ctx) : Q :=
  let fallback := Qmin (round (Canvas.width canvas * PREVIEW_SCALE)) 700 in
  match st with
  | Some st =>
      match CardState.previewW st with
      | Some v => if Qeq_bool v 0 then fallback else v
      | None => fallback
      end
  | None => fallback
  end.

(** The body of the two loops that draw a card (lines 2656-2679 and
    2699-2721) on the canvas [canvas]; [None] when the design is missing,
    where [renderCard] throws a [TypeError]. *)
Definition drawCard (h : Host) (p : Page.t) (designs : list Design.t)
  (states : list (option CardState.t)) (i : nat) (canvas : Ctx)
  : option DomCard.t :=
  let st := at_index states i in
  design ← designs !! i;
  let canvas :=
    renderCard h p canvas (Page.quoteText p) (Page.authorText p) design
      (Page.formatSelect p) (Page.radiusSelect p) st in
  Some {| DomCard.canvas := canvas;
          DomCard.previewW := preview_width st canvas |}.

(** The full rebuild of [renderAll] (lines 2694-2722) for the cards [is]. *)
Fixpoint rebuild (h : Host) (p : Page.t) (designs : list Design.t)
  (states : list (option CardState.t)) (cards : list nat)
  : option (list DomCard.t) :=
  match cards with
  | [] => Some []
  | i :: rest =>
      card ← drawCard h p designs states i (resize 300 150);
      more ← rebuild h p designs states rest;
      Some (card :: more)
  end.

(** [renderAll] (lines 2621-2725).  [None] is an exception thrown by
    [renderCard]. *)
Definition renderAll (h : Host) (p : Page.t) (newDesigns : bool)
  (rerenderOnlyIndex : option nat) (s : State.t) : option State.t :=
  let quote := Page.quoteText p in
  let count := Page.countSelect p in
  if negb (truthy (trim quote)) then
    Some {| State.designsCache := State.designsCache s;
            State.cardState := State.cardState s;
            State.domCards := State.domCards s;
            State.toast := Some "Please enter a quote" |}
  else
    '(designs, states) ←
      (if (newDesigns || negb (length (State.designsCache s) =? count)%nat)%bool
       then
         designs ← makeDesigns h p count;
         Some (designs, replicate count (Some no_size))
       else Some (State.designsCache s, State.cardState s));
    match rerenderOnlyIndex with
    | Some i =>
        match State.domCards s !! i with
        | None =>
            Some {| State.designsCache := designs; State.cardState := states;
                    State.domCards := State.domCards s;
                    State.toast := State.toast s |}
        | Some item =>
            card ← drawCard h p designs states i (DomCard.canvas item);
            Some {| State.designsCache := designs; State.cardState := states;
                    State.domCards := <[i := card]> (State.domCards s);
                    State.toast := State.toast s |}
        end
    | None =>
        cards ← rebuild h p designs states (seq 0 count);
        Some {| State.designsCache := designs; State.cardState := states;
                State.domCards := cards;
                State.toast :=
                  Some (if newDesigns then "Generated new styles" else "Updated") |}
    end.

(** [maybeLiveRender] (lines 2727-2731). *)
Definition maybeLiveRender (h : Host) (p : Page.t) (s : State.t)
  : option State.t :=
  if Page.liveUpdate p then renderAll h p false None s else Some s.

(** The variables of one resize handle ([attachResize], lines 2480-2485).
    The arithmetic of the handlers is that of binary64: the cap on the
    width is the floor of a rounded quotient. *)
Module Drag.
Record t := {
  startX : Q; startY : Q; startW : Q; startH : Q; scale : Q; dragging : bool
}.
End Drag.

(** Line 2487. *)
Definition clamp (v min max : Q) : Q := Qmax min (Qmin max v).

(** [onDown] (lines 2541-2563): the pointer went down at [clientX],
    [clientY] on the handle of [canvas], which is shown [displayW] pixels
    wide. *)
Definition onDown (clientX clientY : Q) (canvas : Ctx) (displayW : Q) : Drag.t :=
  {| Drag.startX := clientX; Drag.startY := clientY;
     Drag.startW := Canvas.width canvas; Drag.startH := Canvas.height canvas;
     Drag.scale := or_else (Canvas.width canvas) 1 ⊘ Qmax 1 displayW;
     Drag.dragging := true |}.

(** [onUp] (lines 2529-2539). *)
Definition onUp (d : Drag.t) : Drag.t :=
  if Drag.dragging d then
    {| Drag.startX := Drag.startX d; Drag.startY := Drag.startY d;
       Drag.startW := Drag.startW d; Drag.startH := Drag.startH d;
       Drag.scale := Drag.scale d; Drag.dragging := false |}
  else d.

(** The widest preview the right panel leaves room for (lines 2498-2503);
    [rightPanel] is the width of the panel, [None] when there is none. *)
Definition maxPreview (rightPanel : option Q) : Q :=
  match rightPanel with
  | Some w => w ⊖ 56
  | None => 1200
  end.

(** Line 2505. *)
Definition maxExportW (rightPanel : option Q) : Q :=
  floor (maxPreview rightPanel ⊘ lit PREVIEW_SCALE).

(** The export width a pointer at [clientX] asks for (lines 2493-2511). *)
Definition dragWidth (d : Drag.t) (clientX : Q) (format : FormatKey)
  (rightPanel : option Q) : Q :=
  let dx := (clientX ⊖ Drag.startX d) ⊗ Drag.scale d in
  let base := FORMATS format in
  let newW := Qmax (Format.minWidth base) (round (Drag.startW d ⊕ dx)) in
  Qmin newW (maxExportW rightPanel).

(** The size [onMove] stores for the card (lines 2518-2524). *)
Definition dragSize (d : Drag.t) (clientX : Q) (format : FormatKey)
  (rightPanel : option Q) : CardState.t :=
  let newW := dragWidth d clientX format rightPanel in
  let newH := Drag.startH d in
  let newPreviewW := round (newW ⊗ lit PREVIEW_SCALE) in
  {| CardState.w := Some newW; CardState.h := Some newH;
     CardState.previewW :=
       Some (clamp newPreviewW 260 (maxPreview rightPanel)) |}.

(** [prev.w === newW && prev.h === newH] (line 2516). *)
Definition same_size (prev : CardState.t) (newW newH : Q) : bool :=
  match CardState.w prev, CardState.h prev with
  | Some w, Some ht => (Qeq_bool w newW && Qeq_bool ht newH)%bool
  | _, _ => false
  end.

(** [onMove] (lines 2490-2527) for the handle of card [index]. *)
Definition onMove (h : Host) (p : Page.t) (d : Drag.t) (clientX : Q)
  (rightPanel : option Q) (index : nat) (s : State.t) : option State.t :=
  if negb (Drag.dragging d) then Some s
  else
    let format := Page.formatSelect p in
    let newW := dragWidth d clientX format rightPanel in
    let newH := Drag.startH d in
    let prev := default no_size (at_index (State.cardState s) index) in
    if same_size prev newW newH then Some s
    else
      let s :=
        {| State.designsCache := State.designsCache s;
           State.cardState :=
             assign (State.cardState s) index
               (dragSize d clientX format rightPanel);
           State.domCards := State.domCards s;
           State.toast := State.toast s |} in
      renderAll h p false (Some index) s.

End Generator.

(** ** The renderer of the generator in binary64

    The helpers and [renderCard] of the generator once more, with the
    arithmetic of the engine: every sum, difference, product and quotient
    is rounded, and a decimal literal is the binary64 value nearest to it.
    [Math.floor], [Math.ceil], [Math.round], [Math.max], [Math.min] and
    the comparisons are exact on such values.  The statements that give
    sizes, font sizes and positions are about these definitions; the
    modules [Helpers] and [Generator] above, in exact arithmetic, serve
    the statements that compare two runs or follow the calls. *)

Module Helpers64.

(** [seededRandom] (lines 54-57, 903-906, 1763-1766). *)
Definition seededRandom (h : Host) (seed : Q) : Q :=
  let x := sin h seed ⊗ 10000 in
  x ⊖ floor x.

(** [roundedRectPath] (lines 101-117, 950-966, 1782-1798). *)
Definition roundedRectPath (x y w ht r : Q) : Draw unit :=
  let radius := Qmax 0 (Qmin r (Qmin w ht ⊘ 2)) in
  emit BeginPath ;;
  emit (MoveTo (x ⊕ radius) y) ;;
  emit (ArcTo (x ⊕ w) y (x ⊕ w) (y ⊕ ht) radius) ;;
  emit (ArcTo (x ⊕ w) (y ⊕ ht) x (y ⊕ ht) radius) ;;
  emit (ArcTo x (y ⊕ ht) x y radius) ;;
  emit (ArcTo x y (x ⊕ w) y radius) ;;
  emit ClosePath.


(** The loop of [addGrain] over the pixel bytes, four at a time, from byte
    index [i]. *)
Fixpoint grain (h : Host) (amount seed i : Q) (data : list Z) : list Z :=
  let n := (seededRandom h (seed ⊕ i) ⊖ lit 0.5) ⊗ 255 ⊗ amount in
  let put v := to_uint8_clamped (Qmax 0 (Qmin 255 (inject_Z v ⊕ n))) in
  match data with
  | [] => []
  | [r0] => [put r0]
  | [r0; g0] => [put r0; put g0]
  | [r0; g0; b0] => [put r0; put g0; put b0]
  | r0 :: g0 :: b0 :: a0 :: rest =>
      put r0 :: put g0 :: put b0 :: a0 :: grain h amount seed (i ⊕ 4) rest
  end.

(** [addGrain] (lines 119-135, 968-984, 1800-1816). *)
Definition addGrain (h : Host) (w ht amount seed : Q) : Draw unit :=
  data ← getImageData h 0 0 w ht;
  emit (PutImageData (grain h amount seed 0 data) 0 0).


(** [relLuma] (lines 150-156, 999-1005, 2115-2122). *)
Definition relLuma (h : Host) (c : Rgb.t) : Q :=
  let srgb v :=
    let v := v ⊘ 255 in
    if leb v (lit 0.03928) then v ⊘ lit 12.92
    else pow h ((v ⊕ lit 0.055) ⊘ lit 1.055) (lit 2.4) in
  lit 0.2126 ⊗ srgb (Rgb.r c) ⊕ lit 0.7152 ⊗ srgb (Rgb.g c)
    ⊕ lit 0.0722 ⊗ srgb (Rgb.b c).

(** [mixRgb] (lines 158-168, 1007-1017, 2124-2134). *)
Definition mixRgb (a b : Rgb.t) (t : Q) : Rgb.t :=
  {| Rgb.r := round (Rgb.r a ⊕ (Rgb.r b ⊖ Rgb.r a) ⊗ t);
     Rgb.g := round (Rgb.g a ⊕ (Rgb.g b ⊖ Rgb.g a) ⊗ t);
     Rgb.b := round (Rgb.b a ⊕ (Rgb.b b ⊖ Rgb.b a) ⊗ t) |}.

(** The loop of [sampleAverageRgb]: the sums of the red, green and blue
    bytes of every sixteenth pixel, and the number of pixels read.  A byte
    past the end of the data reads as 0 ([ImageData] holds whole pixels, so
    none is). *)
Fixpoint sample_sums (fuel : nat) (img : list Z) (acc : Q * Q * Q * Q)
  : Q * Q * Q * Q :=
  match fuel with
  | O => acc
  | S fuel' =>
      match img with
      | [] => acc
      | r0 :: _ =>
          let '(sr, sg, sb, c) := acc in
          sample_sums fuel' (skipn 64 img)
            (sr ⊕ inject_Z r0, sg ⊕ inject_Z (nth 1 img 0%Z),
             sb ⊕ inject_Z (nth 2 img 0%Z), c ⊕ 1)
      end
  end.

(** [sampleAverageRgb] (lines 170-196, 1019-1045, 2136-2163). *)
Definition sampleAverageRgb (h : Host) (x y w ht : Q) : Draw Rgb.t :=
  img ← getImageData h (Qmax 0 (floor x)) (Qmax 0 (floor y))
                       (Qmax 1 (floor w)) (Qmax 1 (floor ht));
  let '(sr, sg, sb, c) := sample_sums (length img) img (0, 0, 0, 0) in
  mret {| Rgb.r := sr ⊘ c; Rgb.g := sg ⊘ c; Rgb.b := sb ⊘ c |}.


(** [chooseTextColors] (lines 198-235, 1047-1084, 2166-2209). *)
Definition chooseTextColors (h : Host) (w ht : Q) (palette : Palette.t)
  : Draw TextColors.t :=
  let sx := w ⊗ lit 0.22 in
  let sy := ht ⊗ lit 0.3 in
  let sw := w ⊗ lit 0.56 in
  let sh := ht ⊗ lit 0.4 in
  avg ← sampleAverageRgb h sx sy sw sh;
  let L := relLuma h avg in
  let isLightBg := ltb (lit 0.55) L in
  let quoteColor := if isLightBg then "#111827" else "#FFFFFF" in
  let authorColor := Palette.accent palette in
  let authorColor :=
    if negb isLightBg then "rgba(255,255,255,0.85)"
    else
      let acc := hexToRgb (Palette.accent palette) in
      let quoteRgb := hexToRgb quoteColor in
      let accL := relLuma h acc in
      let quoteL := relLuma h quoteRgb in
      let contrast :=
        (Qmax accL quoteL ⊕ lit 0.05) ⊘ (Qmin accL quoteL ⊕ lit 0.05) in
      if ltb contrast (lit 2.2) then
        let mixed := mixRgb acc quoteRgb (lit 0.55) in
        "rgb(" +:+ show (Rgb.r mixed) +:+ ", " +:+ show (Rgb.g mixed) +:+ ", "
          +:+ show (Rgb.b mixed) +:+ ")"
      else authorColor in
  mret {| TextColors.quoteColor := quoteColor;
          TextColors.authorColor := authorColor |}.

(** [ctx.globalAlpha *= k] *)
Definition scaleGlobalAlpha (k : Q) : Draw unit :=
  a ← getGlobalAlpha; setGlobalAlpha (a ⊗ k).

(** [drawTinyHeart] of [drawDoodles] (lines 253-271, 1102-1120, 1983-2002). *)
Definition drawTinyHeart (h : Host) (x y size s : Q) : Draw unit :=
  save ;;
  emit (Translate x y) ;;
  emit (Rotate ((seededRandom h s ⊖ lit 0.5) ⊗ lit 0.8)) ;;
  let r := size ⊗ lit 0.45 in
  emit BeginPath ;;
  emit (MoveTo 0 r) ;;
  emit (BezierCurveTo (- size) (- r) (- size) (- size) 0 (- size ⊗ lit 0.25)) ;;
  emit (BezierCurveTo size (- size) size (- r) 0 r) ;;
  emit ClosePath ;;
  scaleGlobalAlpha (lit 0.9) ;;
  emit Fill ;;
  scaleGlobalAlpha (lit 1.05) ;;
  emit (SetLineWidth (Qmax (lit 1.2) (size ⊗ lit 0.12))) ;;
  emit Stroke ;;
  restore.

(** [drawTinyStar] of [drawDoodles] (lines 273-300, 1122-1149, 2004-2032). *)
Definition drawTinyStar (h : Host) (x y size s : Q) : Draw unit :=
  save ;;
  emit (Translate x y) ;;
  emit (Rotate (seededRandom h s ⊗ PI h ⊗ 2)) ;;
  let spikes := 5 in
  let outer := size in
  let inner := size ⊗ lit 0.45 in
  emit BeginPath ;;
  for_each (seq 0 10) (fun k =>
    let i := num k in
    let rad := if Nat.even k then outer else inner in
    let wob := 1 ⊕ (seededRandom h (s ⊕ i ⊗ 7) ⊖ lit 0.5) ⊗ lit 0.18 in
    let angle := (PI h ⊗ i) ⊘ spikes ⊖ PI h ⊘ 2 in
    let px := cos h angle ⊗ rad ⊗ wob in
    let py := sin h angle ⊗ rad ⊗ wob in
    if (k =? 0)%nat then emit (MoveTo px py) else emit (LineTo px py)) ;;
  emit ClosePath ;;
  scaleGlobalAlpha (lit 0.85) ;;
  emit Fill ;;
  scaleGlobalAlpha (lit 1.1) ;;
  emit (SetLineWidth (Qmax (lit 1.2) (size ⊗ lit 0.12))) ;;
  emit Stroke ;;
  restore.

(** The values [i] takes in [for (let i = lo; i < hi; i += step)], the
    sum rounded at every turn.  The fuel is one more than the number of
    turns in exact arithmetic; for whole numbers the sums are exact. *)
Fixpoint loop_values (fuel : nat) (i hi step : Q) : list Q :=
  match fuel with
  | O => []
  | S fuel' => if ltb i hi then i :: loop_values fuel' (i ⊕ step) hi step else []
  end.

Definition for_loop (lo hi step : Q) : list Q :=
  loop_values (S (loop_fuel lo hi step)) lo hi step.

(** [drawDoodles] (lines 237-317, 1086-1166, 1966-2055). *)
Definition drawDoodles (h : Host) (w ht : Q) (color : string) (seed : Q)
  : Draw unit :=
  save ;;
  setGlobalAlpha (lit 0.12) ;;
  emit (SetStrokeStyle (Css color)) ;;
  emit (SetFillStyle (Css color)) ;;
  emit (SetLineJoin "round") ;;
  emit (SetLineCap "round") ;;
  for_each (seq 0 10) (fun k =>
    let i := num k in
    let x := seededRandom h (seed ⊕ i ⊗ 11) ⊗ w in
    let y := seededRandom h (seed ⊕ i ⊗ 11 ⊕ 1) ⊗ ht in
    let size := 7 ⊕ seededRandom h (seed ⊕ i ⊗ 11 ⊕ 2) ⊗ 12 in
    let cx := w ⊘ 2 in
    let cy := ht ⊘ 2 in
    if ltb (hypot h (x ⊖ cx) (y ⊖ cy)) (Qmin w ht ⊗ lit 0.26) then mret tt
    else
      let kind := floor (seededRandom h (seed ⊕ i ⊗ 19) ⊗ 2) in
      if Qeq_bool kind 0 then drawTinyHeart h x y size (seed ⊕ i ⊗ 101)
      else drawTinyStar h x y (size ⊗ lit 0.9) (seed ⊕ i ⊗ 101)) ;;
  restore.

(** The background block of [renderCard] (lines 348-421, 1197-1270,
    2267-2340). *)
Definition drawBackground (h : Host) (w ht : Q) (palette : Palette.t)
  (gradient : string * string) (bgType : string) (seed : Q) : Draw unit :=
  if (String.eqb bgType "gradient" || String.eqb bgType "glass")%bool then
    emit (SetFillStyle
            (LinearGradient 0 0 w ht [(0, fst gradient); (1, snd gradient)])) ;;
    emit (FillRect 0 0 w ht) ;;
    if String.eqb bgType "glass" then
      emit (SetFillStyle (Css "rgba(255,255,255,0.16)")) ;;
      emit (FillRect 0 0 w ht)
    else mret tt
  else if String.eqb bgType "dark" then
    emit (SetFillStyle (Css (Palette.bg palette))) ;;
    emit (FillRect 0 0 w ht) ;;
    emit (SetFillStyle (Css "rgba(255,255,255,0.04)")) ;;
    emit (FillRect 0 0 w ht)
  else if String.eqb bgType "paper" then
    emit (SetFillStyle (Css "#ffffff")) ;;
    emit (FillRect 0 0 w ht) ;;
    setGlobalAlpha (lit 0.06) ;;
    emit (SetFillStyle (Css (Palette.accent palette))) ;;
    for_each (seq 0 90) (fun k =>
      let i := num k in
      let x := seededRandom h (seed ⊕ i) ⊗ w in
      let y := seededRandom h (seed ⊕ i ⊕ 100) ⊗ ht in
      emit (FillRect x y 2 2)) ;;
    setGlobalAlpha 1
  else if String.eqb bgType "noise" then
    emit (SetFillStyle (Css (Palette.bg palette))) ;;
    emit (FillRect 0 0 w ht) ;;
    addGrain h w ht (lit 0.08) seed
  else if String.eqb bgType "stripes" then
    emit (SetFillStyle (Css (Palette.bg palette))) ;;
    emit (FillRect 0 0 w ht) ;;
    emit (SetStrokeStyle (Css "rgba(0,0,0,0.05)")) ;;
    emit (SetLineWidth 14) ;;
    for_each (for_loop (- ht) (w ⊕ ht) 60) (fun i =>
      emit BeginPath ;;
      emit (MoveTo i 0) ;;
      emit (LineTo (i ⊕ ht) ht) ;;
      emit Stroke)
  else if String.eqb bgType "halftone" then
    emit (SetFillStyle (Css (Palette.bg palette))) ;;
    emit (FillRect 0 0 w ht) ;;
    emit (SetFillStyle (Css "rgba(0,0,0,0.05)")) ;;
    let step := 26 in
    for_each (for_loop 0 ht step) (fun y =>
      for_each (for_loop 0 w step) (fun x =>
        let r := 2 ⊕ seededRandom h (seed ⊕ x ⊗ 7 ⊕ y ⊗ 11) ⊗ 3 in
        emit BeginPath ;;
        emit (Arc x y r 0 (PI h ⊗ 2)) ;;
        emit Fill))
  else if String.eqb bgType "blobs" then
    emit (SetFillStyle (Css (Palette.bg palette))) ;;
    emit (FillRect 0 0 w ht) ;;
    setGlobalAlpha (lit 0.22) ;;
    emit (SetFillStyle (Css (Palette.accent palette))) ;;
    for_each (seq 0 3) (fun k =>
      let i := num k in
      let x := seededRandom h (seed ⊕ i ⊗ 10) ⊗ w in
      let y := seededRandom h (seed ⊕ i ⊗ 10 ⊕ 1) ⊗ ht in
      let r := 120 ⊕ seededRandom h (seed ⊕ i ⊗ 10 ⊕ 2) ⊗ 260 in
      emit BeginPath ;;
      emit (Arc x y r 0 (PI h ⊗ 2)) ;;
      emit Fill) ;;
    setGlobalAlpha 1
  else
    emit (SetFillStyle (Css (Palette.bg palette))) ;;
    emit (FillRect 0 0 w ht).


(** The loop [for (const line of textLines)] of [renderCard] (lines
    490-493, 1339-1342, 2459-2462); it returns the final [y]. *)
Fixpoint fillLines (textLines : list string) (x y qLine : Q) : Draw Q :=
  match textLines with
  | [] => mret y
  | line :: rest => emit (FillText line x y) ;; fillLines rest x (y ⊕ qLine) qLine
  end.


End Helpers64.

Module Generator64.

Import Generator.

(** [computeSafeStartY] (lines 2057-2068). *)
Definition computeSafeStartY (contentY blockH safeTop safeBottom : Q) : Q :=
  let y := contentY ⊖ blockH ⊘ 2 in
  let y := if ltb y safeTop then safeTop else y in
  let y := if ltb safeBottom (y ⊕ blockH) then safeBottom ⊖ blockH else y in
  let y := if ltb y safeTop then safeTop else y in
  y.


(** [getQuoteMul] and [getAuthorMul] (lines 1953-1958). *)
Definition getQuoteMul (p : Page.t) : Q := Page.quoteSize p ⊘ 100.
Definition getAuthorMul (p : Page.t) : Q := Page.authorSize p ⊘ 100.


(** The measuring pass of [renderCard] (lines 2229-2247): the height of the
    text block when the quote is wrapped at the full inner width, on a
    canvas of its own. *)
Definition measuredBlockH (h : Host) (p : Page.t) (width : Q)
  (quote author : string) (design : Design.t) : Q :=
  let quoteMul := getQuoteMul p in
  let authorMul := getAuthorMul p in
  let m := resize width 10 in
  let padding := width ⊗ lit 0.1 in
  let maxWidth := width ⊖ padding ⊗ 2 in
  let qSize := floor (width ⊗ lit 0.05 ⊗ quoteMul) in
  let qLine := qSize ⊗ lit 1.38 in
  let ctxM :=
    snd (setFont {| font_weight := None; font_px := qSize;
                    font_family := FontPack.quote (Design.font design) |} m) in
  let lines := wrapTextSmart (measureText h ctxM) quote maxWidth in
  let aSize :=
    if truthy (trim author) then floor (width ⊗ lit 0.034 ⊗ authorMul) else 0 in
  let aGap := if truthy (trim author) then aSize ⊗ lit 0.6 else 0 in
  num (length lines) ⊗ qLine ⊕ aGap
    ⊕ (if truthy (trim author) then aSize ⊗ lit 1.6 else 0).

(** The background block of [renderCard] is [drawBackground]; the doodles
    follow unless the style pack is [minimal] (lines 2262-2347). *)
Definition backdrop (h : Host) (p : Page.t) (width height radius : Q)
  (design : Design.t) : Draw unit :=
  let palette := Design.palette design in
  let seed := Design.seed design in
  save ;;
  Helpers64.roundedRectPath 0 0 width height radius ;;
  emit Clip ;;
  let isDark := String.eqb (Design.bgType design) "dark" in
  Helpers64.drawBackground h width height palette (Design.gradient design)
    (Design.bgType design) seed ;;
  let pack := Page.stylePack p in
  if negb (String.eqb pack "minimal") then
    let doodleColor :=
      if isDark then "rgba(255,255,255,1)" else Palette.accent palette in
    Helpers64.drawDoodles h width height doodleColor (seed ⊕ 999)
  else mret tt.

(** The layout block of [renderCard] (lines 2349-2431). *)
Definition layoutAccents (h : Host) (width height padding : Q)
  (palette : Palette.t) (layout : string) : Draw Layout.t :=
  let contentY := height ⊗ lit 0.52 in
  let contentX := width ⊗ lit 0.5 in
  let align := "center" in
  let innerMax := width ⊖ padding ⊗ 2 in
  let mk contentY contentX align innerMax :=
    {| Layout.contentY := contentY; Layout.contentX := contentX;
       Layout.align := align; Layout.innerMax := innerMax |} in
  if String.eqb layout "left" then
    mret (mk (height ⊗ lit 0.46) padding "left" innerMax)
  else if String.eqb layout "icon-top" then
    setGlobalAlpha (lit 0.25) ;;
    emit (SetFillStyle (Css (Palette.accent palette))) ;;
    emit BeginPath ;;
    emit (Arc (width ⊗ lit 0.5) (height ⊗ lit 0.22) 54 0 (PI h ⊗ 2)) ;;
    emit Fill ;;
    setGlobalAlpha 1 ;;
    mret (mk (height ⊗ lit 0.56) contentX align innerMax)
  else if String.eqb layout "bordered" then
    emit (SetStrokeStyle (Css (Palette.accent palette))) ;;
    emit (SetLineWidth 7) ;;
    emit (StrokeRect (padding ⊘ 2) (padding ⊘ 2) (width ⊖ padding)
            (height ⊖ padding)) ;;
    mret (mk contentY contentX align (width ⊖ padding ⊗ 3))
  else if String.eqb layout "split" then
    setGlobalAlpha (lit 0.18) ;;
    emit (SetFillStyle (Css (Palette.accent palette))) ;;
    lay ← (if leb width height then
             emit (FillRect 0 0 width (height ⊗ lit 0.32)) ;;
             mret (mk (height ⊗ lit 0.58) contentX align innerMax)
           else
             emit (FillRect 0 0 (width ⊗ lit 0.32) height) ;;
             mret (mk contentY (width ⊗ lit 0.38) "left" (width ⊗ lit 0.55)));
    setGlobalAlpha 1 ;;
    mret lay
  else if String.eqb layout "underline" then
    setGlobalAlpha (lit 0.22) ;;
    emit (SetFillStyle (Css (Palette.accent palette))) ;;
    emit (FillRect padding (height ⊗ lit 0.72) (width ⊖ padding ⊗ 2) 10) ;;
    setGlobalAlpha 1 ;;
    mret (mk contentY contentX align innerMax)
  else if String.eqb layout "footer" then
    setGlobalAlpha (lit 0.18) ;;
    emit (SetFillStyle (Css (Palette.accent palette))) ;;
    emit (FillRect 0 (height ⊗ lit 0.82) width (height ⊗ lit 0.18)) ;;
    setGlobalAlpha 1 ;;
    mret (mk (height ⊗ lit 0.48) contentX align innerMax)
  else if String.eqb layout "corner-frame" then
    emit (SetStrokeStyle (Css (Palette.accent palette))) ;;
    emit (SetLineWidth 8) ;;
    let s := padding ⊗ lit 0.9 in
    emit BeginPath ;;
    emit (MoveTo (padding ⊗ lit 0.6) (padding ⊗ lit 0.6 ⊕ s)) ;;
    emit (LineTo (padding ⊗ lit 0.6) (padding ⊗ lit 0.6)) ;;
    emit (LineTo (padding ⊗ lit 0.6 ⊕ s) (padding ⊗ lit 0.6)) ;;
    emit (MoveTo (width ⊖ padding ⊗ lit 0.6 ⊖ s) (padding ⊗ lit 0.6)) ;;
    emit (LineTo (width ⊖ padding ⊗ lit 0.6) (padding ⊗ lit 0.6)) ;;
    emit (LineTo (width ⊖ padding ⊗ lit 0.6) (padding ⊗ lit 0.6 ⊕ s)) ;;
    emit (MoveTo (padding ⊗ lit 0.6) (height ⊖ padding ⊗ lit 0.6 ⊖ s)) ;;
    emit (LineTo (padding ⊗ lit 0.6) (height ⊖ padding ⊗ lit 0.6)) ;;
    emit (LineTo (padding ⊗ lit 0.6 ⊕ s) (height ⊖ padding ⊗ lit 0.6)) ;;
    emit (MoveTo (width ⊖ padding ⊗ lit 0.6 ⊖ s) (height ⊖ padding ⊗ lit 0.6)) ;;
    emit (LineTo (width ⊖ padding ⊗ lit 0.6) (height ⊖ padding ⊗ lit 0.6)) ;;
    emit (LineTo (width ⊖ padding ⊗ lit 0.6) (height ⊖ padding ⊗ lit 0.6 ⊖ s)) ;;
    emit Stroke ;;
    mret (mk contentY contentX align (width ⊖ padding ⊗ lit 2.4))
  else if String.eqb layout "diagonal" then
    setGlobalAlpha (lit 0.18) ;;
    emit (SetFillStyle (Css (Palette.accent palette))) ;;
    emit BeginPath ;;
    emit (MoveTo 0 0) ;;
    emit (LineTo width 0) ;;
    emit (LineTo width (height ⊗ lit 0.45)) ;;
    emit ClosePath ;;
    emit Fill ;;
    setGlobalAlpha 1 ;;
    mret (mk (height ⊗ lit 0.58) contentX align innerMax)
  else
    mret (mk contentY contentX align innerMax).

(** The text block of [renderCard] (lines 2433-2471). *)
Definition drawText (h : Host) (p : Page.t) (width height : Q)
  (quote author : string) (design : Design.t) (lay : Layout.t)
  : Draw unit :=
  let quoteMul := getQuoteMul p in
  let authorMul := getAuthorMul p in
  let padding := width ⊗ lit 0.1 in
  let qSize := floor (width ⊗ lit 0.05 ⊗ quoteMul) in
  let qLine := qSize ⊗ lit 1.38 in
  let aSize :=
    if truthy (trim author) then floor (width ⊗ lit 0.034 ⊗ authorMul) else 0 in
  let aGap := if truthy (trim author) then aSize ⊗ lit 0.6 else 0 in
  let font := Design.font design in
  colors ← Helpers64.chooseTextColors h width height (Design.palette design);
  emit (SetTextAlign (Layout.align lay)) ;;
  emit (SetTextBaseline "top") ;;
  setFont {| font_weight := None; font_px := qSize;
             font_family := FontPack.quote font |} ;;
  emit (SetFillStyle (Css (TextColors.quoteColor colors))) ;;
  let safeTop := padding ⊗ lit 0.9 in
  let safeBottom := height ⊖ padding ⊗ lit 0.9 in
  textLines ← (fun c =>
    (wrapTextSmart (measureText h c) quote (Layout.innerMax lay), c));
  let quoteH := num (length textLines) ⊗ qLine in
  let aBlock := if truthy (trim author) then aSize ⊗ lit 1.6 else 0 in
  let totalH := quoteH ⊕ aGap ⊕ aBlock in
  let y := computeSafeStartY (Layout.contentY lay) totalH safeTop safeBottom in
  let x := if String.eqb (Layout.align lay) "left"
           then Layout.contentX lay else width ⊘ 2 in
  y ← Helpers64.fillLines textLines x y qLine;
  if truthy (trim author) then
    let y := y ⊕ aGap in
    setFont {| font_weight := Some 800%Z; font_px := aSize;
               font_family := FontPack.author font |} ;;
    emit (SetFillStyle (Css (TextColors.authorColor colors))) ;;
    emit (FillText author x y)
  else mret tt.

(** [renderCard] (lines 2211-2472).  [canvas] is the canvas as it was
    before the call; [radius] is the number [Number(radius)] reads from
    the select. *)
Definition renderCard (h : Host) (p : Page.t) (canvas : Ctx)
  (quote author : string) (design : Design.t) (format : FormatKey)
  (radius : Q) (sizeOverride : option CardState.t) : Ctx :=
  let width := requestedWidth format sizeOverride in
  let height := requestedHeight format sizeOverride in
  let padding := width ⊗ lit 0.1 in
  let blockH := measuredBlockH h p width quote author design in
  let needed := ceil (blockH ⊕ padding ⊗ lit 2.6) in
  let height := Qmax height needed in
  let body : Draw unit :=
    backdrop h p width height radius design ;;
    lay ← layoutAccents h width height padding (Design.palette design)
            (Design.layout design);
    drawText h p width height quote author design lay ;;
    restore in
  snd (body (resize width height)).

End Generator64.

(** ** Vocabulary of the statements *)

(** A text that is empty or holds whitespace only. *)
Definition blank (s : string) : bool := forallb is_space (chars s).

(** A string without whitespace. *)
Definition spaceless (s : string) : bool :=
  forallb (fun c => negb (is_space c)) (chars s).

(** The tokenizer in one pass, for the proofs: the tokens of [s] when
    [piece] was read since the last whitespace. *)
Fixpoint tokens_from (piece : string) (s : string) : list string :=
  match s with
  | EmptyString => if truthy piece then [piece] else []
  | String c s' =>
      if is_space c then
        if truthy piece then piece :: tokens_from "" s' else tokens_from "" s'
      else tokens_from (piece +:+ String c "") s'
  end.

(** A line fits when its measured width is at most [maxWidth]. *)
Definition fits (ctx : TextMeasure) (maxWidth : Q) (line : string) : Prop :=
  ctx line <= maxWidth.

(** A line that holds one character. *)
Definition single_char (line : string) : Prop :=
  exists ch, line = String ch "".

(** [cs] are the pieces a token [tok] appears as in the output: non-empty,
    in order, concatenating to [tok], and [tok] itself when it fits. *)
Definition chunks_of (ctx : TextMeasure) (maxWidth : Q) (tok : string)
  (cs : list string) : Prop :=
  String.concat "" cs = tok
  /\ Forall (fun c => c <> "") cs
  /\ (fits ctx maxWidth tok -> cs = [tok]).

Definition is_fillText (c : Cmd) : bool :=
  match c with FillText _ _ _ => true | _ => false end.

(** The [fillText] calls of a drawing history. *)
Definition fillTexts (calls : list Cmd) : list Cmd := List.filter is_fillText calls.

(** A fixed-pitch metric for the examples: every character is 1 wide. *)
Definition char_count : TextMeasure := fun s => num (String.length s).

(** A host for the examples: constant mathematics, a fixed-pitch metric
    whose characters are as wide as the font size, and a bitmap that reads
    as one opaque pixel of the grey level [level]. *)
Definition plain_host (level : Z) : Host :=
  {| sin := fun _ => 0;
     cos := fun _ => 0;
     PI := 3;
     pow := fun x _ => x;
     hypot := fun x y => Qmax x (- x) + Qmax y (- y);
     measureWidth := fun f s => font_px f * char_count s;
     imageData := fun _ _ _ _ _ _ _ => [level; level; level; 255%Z] |}.

(** A drawing action is steady when it keeps the size of the canvas and
    only adds calls to the history. *)
Definition steady {A : Type} (m : Draw A) : Prop :=
  forall c,
    Canvas.width (m c).2 = Canvas.width c
    /\ Canvas.height (m c).2 = Canvas.height c
    /\ exists cmds, log (m c).2 = log c ++ cmds.

(** It is quiet when, moreover, none of the calls it adds is [fillText]. *)
Definition quiet {A : Type} (m : Draw A) : Prop :=
  forall c,
    Canvas.width (m c).2 = Canvas.width c
    /\ Canvas.height (m c).2 = Canvas.height c
    /\ exists cmds, log (m c).2 = log c ++ cmds /\ fillTexts cmds = [].

(** The background kinds and the layouts [renderCard] of the generator
    tests for (lines 2269-2323 and 2355-2420). *)
Definition recognized_bgTypes : list string :=
  ["gradient"; "glass"; "dark"; "paper"; "noise"; "stripes"; "halftone";
   "blobs"].

Definition recognized_layouts : list string :=
  ["left"; "icon-top"; "bordered"; "split"; "underline"; "footer";
   "corner-frame"; "diagonal"].

(** The layout of a card whose layout tag is none of them. *)
Definition centered (width height padding : Q) : Layout.t :=
  {| Layout.contentY := height * 0.52; Layout.contentX := width * 0.5;
     Layout.align := "center"; Layout.innerMax := width - padding * 2 |}.

(** A solid fill of the whole card. *)
Definition solid_fill (width height : Q) (color : string) : list Cmd :=
  [SetFillStyle (Css color); FillRect 0 0 width height].

(** What the loops keep true of every line: it fits, or it is one
    character. *)
Definition line_ok (ctx : TextMeasure) (maxWidth : Q) (line : string) : Prop :=
  fits ctx maxWidth line \/ single_char line.

(** The same, with the character known to be one of [cs]. *)
Definition line_from (ctx : TextMeasure) (maxWidth : Q) (cs : list ascii)
  (line : string) : Prop :=
  fits ctx maxWidth line \/ exists ch, In ch cs /\ line = String ch "".

(** A word: non-empty, without whitespace. *)
Definition word (w : string) : Prop := w <> "" /\ spaceless w = true.

(** The tokens held by the lines so far and by the line being built. *)
Definition held (lines : list string) (current : string) : list string :=
  List.concat (map tokens lines) ++ tokens current.

(** The padding margin added to the text block: 2.6 times the padding,
    which is a tenth of the width. *)
Definition paddingMargin (width : Q) : Q := width * 0.1 * 2.6.

(** A page for the examples: the controls at their defaults. *)
Definition default_page (pack : string) : Generator.Page.t :=
  {| Generator.Page.quoteText := "";
     Generator.Page.authorText := "";
     Generator.Page.formatSelect := Generator.square;
     Generator.Page.countSelect := 6;
     Generator.Page.radiusSelect := 26;
     Generator.Page.stylePack := pack;
     Generator.Page.liveUpdate := true;
     Generator.Page.quoteSize := 95;
     Generator.Page.authorSize := 105;
     Generator.Page.now := 1700000000000 |}.

(** A design for the examples: the first entry of every catalogue. *)
Definition first_design : Generator.Design.t :=
  {| Generator.Design.palette := Generator.mkPalette "#FFF5F5" "#2D3748" "#E53E3E";
     Generator.Design.gradient := ("#667eea", "#764ba2");
     Generator.Design.font := Generator.mkFont "Georgia, serif";
     Generator.Design.bgType := "solid";
     Generator.Design.layout := "centered";
     Generator.Design.seed := 47 |}.

(** Twelve words of nine letters: one line each at 51 pixels a letter. *)
Definition twelve_words : string :=
  "wonderful wonderful wonderful wonderful wonderful wonderful wonderful wonderful wonderful wonderful wonderful wonderful".









Definition is_fill (c : Cmd) : bool :=
  match c with Fill => true | _ => false end.

(** The number of [fill] calls in a drawing history. *)
Definition fills (calls : list Cmd) : nat := length (List.filter is_fill calls).

(** The tuple that tells designs of a batch apart: background kind,
    layout kind, index of the palette in the catalogue, quote font. *)
Definition design_key (d : Generator.Design.t) : string * string * Z * string :=
  (Generator.Design.bgType d, Generator.Design.layout d,
   Generator.indexOf Generator.PALETTES (Generator.Design.palette d),
   FontPack.quote (Generator.Design.font d)).

(** The style pack a page selects, [STYLE_PACKS[stylePack.value] ||
    STYLE_PACKS.balanced]. *)
Definition selected_pack (p : Generator.Page.t) : Generator.StylePack.t :=
  default Generator.balanced
    (Generator.STYLE_PACKS !! Generator.Page.stylePack p).

(** What [makeDesigns] keeps true of the cards made so far: every card took
    between 1 and 60 tries, its key is its design's, and a card whose key
    an earlier card has took all 60. *)
Inductive batch_ok : list Generator.Attempt.t -> Prop :=
| batch_nil : batch_ok []
| batch_snoc done a :
    batch_ok done ->
    (1 <= Generator.Attempt.tries a <= 60)%nat ->
    Generator.Attempt.hash a = Generator.design_hash (Generator.Attempt.design a) ->
    (In (Generator.Attempt.hash a) (map Generator.Attempt.hash done) ->
     Generator.Attempt.tries a = 60%nat) ->
    batch_ok (done ++ [a]).

(** The seed of try [k] (from 0) for card [i] of a batch (line 2089). *)
Definition card_seed (p : Generator.Page.t) (i k : nat) : Q :=
  Generator.Page.now p + num i * 1000 + num k * 111.

(** Try [k] for card [i] gave the design [d], and every earlier try gave a
    design whose key one of the designs [earlier] has. *)
Definition retried (h : Host) (p : Generator.Page.t)
  (earlier : list Generator.Design.t) (i : nat) (d : Generator.Design.t)
  (k : nat) : Prop :=
  Generator.generateDesign h p (card_seed p i k) = Some d
  /\ forall k', (k' < k)%nat ->
       exists d',
         Generator.generateDesign h p (card_seed p i k') = Some d'
         /\ In (Generator.design_hash d') (map Generator.design_hash earlier).

(** What [makeDesigns] keeps true of the cards made so far, by the designs
    [generateDesign] gives: card [i] took between 1 and 60 tries, its
    design is that of its last try, every earlier try gave a key in use,
    and a card whose key an earlier card has took all 60. *)
Inductive batch_traced (h : Host) (p : Generator.Page.t)
  : list Generator.Attempt.t -> Prop :=
| traced_nil : batch_traced h p []
| traced_snoc done a :
    batch_traced h p done ->
    (1 <= Generator.Attempt.tries a <= 60)%nat ->
    retried h p (map Generator.Attempt.design done) (length done)
      (Generator.Attempt.design a) (Nat.pred (Generator.Attempt.tries a)) ->
    (In (Generator.design_hash (Generator.Attempt.design a))
        (map Generator.design_hash (map Generator.Attempt.design done)) ->
     Generator.Attempt.tries a = 60%nat) ->
    batch_traced h p (done ++ [a]).

(** A colour whose channels are whole numbers from 0 to 255. *)
Definition byte_rgb (c : Rgb.t) : Prop :=
  exists r g b : Z,
    c = {| Rgb.r := inject_Z r; Rgb.g := inject_Z g; Rgb.b := inject_Z b |}
    /\ (0 <= r <= 255)%Z /\ (0 <= g <= 255)%Z /\ (0 <= b <= 255)%Z.

Definition black : Rgb.t := {| Rgb.r := 0; Rgb.g := 0; Rgb.b := 0 |}.

(** The text [hexToRgb] hands to [parseInt]: without the first [#],
    trimmed, three characters doubled (lines 138-144). *)
Definition hex_text (hex : string) : string :=
  let h := trim (remove_hash hex) in
  if (String.length h =? 3)%nat then double_chars h else h.

(** [x] lies between [a] and [b], whichever is the larger. *)
Definition between (a b x : Q) : Prop := Qmin a b <= x /\ x <= Qmax a b.

(** The text block of a card of the generator, [width] by [height], in
    exact arithmetic: the font of the quote, the layout the accents leave,
    the lines of the quote, the height of a line and of the block, and
    where the block starts. *)
Definition quote_font (p : Generator.Page.t) (width : Q)
  (design : Generator.Design.t) : Font :=
  {| font_weight := None;
     font_px := floor (width * 0.05 * Generator.getQuoteMul p);
     font_family := FontPack.quote (Generator.Design.font design) |}.

Definition author_px (p : Generator.Page.t) (width : Q) (author : string) : Q :=
  if truthy (trim author)
  then floor (width * 0.034 * Generator.getAuthorMul p) else 0.

Definition layout_of (h : Host) (width height : Q)
  (design : Generator.Design.t) : Layout.t :=
  (Generator.layoutAccents h width height (width * 0.1)
     (Generator.Design.palette design) (Generator.Design.layout design)
     (resize width height)).1.

Definition quote_lines (h : Host) (p : Generator.Page.t) (width height : Q)
  (quote : string) (design : Generator.Design.t) : list string :=
  Generator.wrapTextSmart (measureWidth h (quote_font p width design)) quote
    (Layout.innerMax (layout_of h width height design)).

Definition line_height (p : Generator.Page.t) (width : Q)
  (design : Generator.Design.t) : Q :=
  font_px (quote_font p width design) * 1.38.

Definition author_gap (p : Generator.Page.t) (width : Q) (author : string) : Q :=
  if truthy (trim author) then author_px p width author * 0.6 else 0.

Definition block_height (h : Host) (p : Generator.Page.t) (width height : Q)
  (quote author : string) (design : Generator.Design.t) : Q :=
  num (length (quote_lines h p width height quote design))
    * line_height p width design
  + author_gap p width author
  + (if truthy (trim author) then author_px p width author * 1.6 else 0).

Definition text_y (h : Host) (p : Generator.Page.t) (width height : Q)
  (quote author : string) (design : Generator.Design.t) : Q :=
  Generator.computeSafeStartY
    (Layout.contentY (layout_of h width height design))
    (block_height h p width height quote author design)
    (width * 0.1 * 0.9) (height - width * 0.1 * 0.9).

(** The text block once more, as the code computes it in binary64. *)
Module Block64.

(** The rows of a text block: one [fillText] a line, [qLine] apart, from
    [y] down. *)
Fixpoint text_rows (lines : list string) (x y qLine : Q) : list Cmd :=
  match lines with
  | [] => []
  | line :: rest => FillText line x y :: text_rows rest x (y ⊕ qLine) qLine
  end.

(** The [y] below the last row. *)
Fixpoint after_rows (lines : list string) (y qLine : Q) : Q :=
  match lines with
  | [] => y
  | _ :: rest => after_rows rest (y ⊕ qLine) qLine
  end.

Definition quote_px (p : Generator.Page.t) (width : Q) : Q :=
  floor (width ⊗ lit 0.05 ⊗ Generator64.getQuoteMul p).

Definition quote_font (p : Generator.Page.t) (width : Q)
  (design : Generator.Design.t) : Font :=
  {| font_weight := None;
     font_px := quote_px p width;
     font_family := FontPack.quote (Generator.Design.font design) |}.

Definition author_px (p : Generator.Page.t) (width : Q) (author : string) : Q :=
  if truthy (trim author)
  then floor (width ⊗ lit 0.034 ⊗ Generator64.getAuthorMul p) else 0.

Definition layout_of (h : Host) (width height : Q)
  (design : Generator.Design.t) : Layout.t :=
  (Generator64.layoutAccents h width height (width ⊗ lit 0.1)
     (Generator.Design.palette design) (Generator.Design.layout design)
     (resize width height)).1.

Definition quote_lines (h : Host) (p : Generator.Page.t) (width height : Q)
  (quote : string) (design : Generator.Design.t) : list string :=
  Generator.wrapTextSmart (measureWidth h (quote_font p width design)) quote
    (Layout.innerMax (layout_of h width height design)).

Definition line_height (p : Generator.Page.t) (width : Q) : Q :=
  quote_px p width ⊗ lit 1.38.

Definition author_gap (p : Generator.Page.t) (width : Q) (author : string) : Q :=
  if truthy (trim author) then author_px p width author ⊗ lit 0.6 else 0.

Definition author_block (p : Generator.Page.t) (width : Q) (author : string) : Q :=
  if truthy (trim author) then author_px p width author ⊗ lit 1.6 else 0.

(** The height of a block of [n] lines. *)
Definition height_of (p : Generator.Page.t) (width : Q) (author : string)
  (n : nat) : Q :=
  num n ⊗ line_height p width ⊕ author_gap p width author
    ⊕ author_block p width author.

Definition block_height (h : Host) (p : Generator.Page.t) (width height : Q)
  (quote author : string) (design : Generator.Design.t) : Q :=
  height_of p width author (length (quote_lines h p width height quote design)).

Definition text_x (h : Host) (width height : Q)
  (design : Generator.Design.t) : Q :=
  let lay := layout_of h width height design in
  if String.eqb (Layout.align lay) "left" then Layout.contentX lay
  else width ⊘ 2.

(** The safe zone: 0.9 times the padding from the top and the bottom. *)
Definition safe_top (width : Q) : Q := width ⊗ lit 0.1 ⊗ lit 0.9.

Definition safe_bottom (width height : Q) : Q := height ⊖ safe_top width.

Definition text_y (h : Host) (p : Generator.Page.t) (width height : Q)
  (quote author : string) (design : Generator.Design.t) : Q :=
  Generator64.computeSafeStartY
    (Layout.contentY (layout_of h width height design))
    (block_height h p width height quote author design)
    (safe_top width) (safe_bottom width height).

(** The padding margin added to the measured block: 2.6 times the
    padding. *)
Definition paddingMargin (width : Q) : Q := width ⊗ lit 0.1 ⊗ lit 2.6.

End Block64.

(** The layouts of the generator that narrow the lines: the frame, the
    corner frame, and the split (on a card wider than tall). *)
Definition narrow_layouts : list string := ["bordered"; "corner-frame"; "split"].

(** The first design with the frame layout. *)
Definition bordered_design : Generator.Design.t :=
  {| Generator.Design.palette := Generator.Design.palette first_design;
     Generator.Design.gradient := Generator.Design.gradient first_design;
     Generator.Design.font := Generator.Design.font first_design;
     Generator.Design.bgType := "solid";
     Generator.Design.layout := "bordered";
     Generator.Design.seed := 47 |}.

(** Fourteen words of seven letters: two to a line of 864 pixels at 51
    pixels a letter, one to a line of 756 pixels. *)
Definition fourteen_words : string :=
  "amazing amazing amazing amazing amazing amazing amazing amazing amazing amazing amazing amazing amazing amazing".

(** A whole number. *)
Definition whole (x : Q) : Prop := exists z : Z, x == inject_Z z.

(** A size override whose width and height, where set, are whole
    numbers. *)
Definition whole_size (so : option Generator.CardState.t) : Prop :=
  match so with
  | Some st =>
      (forall w, Generator.CardState.w st = Some w -> whole w)
      /\ (forall ht, Generator.CardState.h st = Some ht -> whole ht)
  | None => True
  end.

(** The layouts only the generator draws accents for; the walls treat
    them as the centred layout. *)
Definition generator_only_layouts : list string :=
  ["bordered"; "underline"; "footer"; "corner-frame"; "diagonal"].

(** The page of the examples with the quote [Thank you] signed Jane. *)
Definition thanks_page : Generator.Page.t :=
  {| Generator.Page.quoteText := "Thank you";
     Generator.Page.authorText := "Jane";
     Generator.Page.formatSelect := Generator.square;
     Generator.Page.countSelect := 6;
     Generator.Page.radiusSelect := 26;
     Generator.Page.stylePack := "balanced";
     Generator.Page.liveUpdate := true;
     Generator.Page.quoteSize := 95;
     Generator.Page.authorSize := 105;
     Generator.Page.now := 1700000000000 |}.

(** The layouts the walls draw accents for. *)
Definition wall_layouts : list string := ["left"; "icon-top"; "split"].

(** A card record with another layout tag. *)
Definition with_layout (card : Wall.CardData.t) (layout : string)
  : Wall.CardData.t :=
  {| Wall.CardData.id := Wall.CardData.id card;
     Wall.CardData.quote := Wall.CardData.quote card;
     Wall.CardData.author := Wall.CardData.author card;
     Wall.CardData.width := Wall.CardData.width card;
     Wall.CardData.height := Wall.CardData.height card;
     Wall.CardData.palette := Wall.CardData.palette card;
     Wall.CardData.gradient := Wall.CardData.gradient card;
     Wall.CardData.font := Wall.CardData.font card;
     Wall.CardData.bgType := Wall.CardData.bgType card;
     Wall.CardData.layout := layout;
     Wall.CardData.seed := Wall.CardData.seed card;
     Wall.CardData.format := Wall.CardData.format card;
     Wall.CardData.radius := Wall.CardData.radius card;
     Wall.CardData.quoteSizeMultiplier := Wall.CardData.quoteSizeMultiplier card;
     Wall.CardData.authorSizeMultiplier := Wall.CardData.authorSizeMultiplier card;
     Wall.CardData.createdAt := Wall.CardData.createdAt card |}.

(** [a] is at least as new as [b]. *)
Definition not_older (time : string -> Q) (a b : Wall.CardData.t) : Prop :=
  time (Wall.CardData.createdAt b) <= time (Wall.CardData.createdAt a).

(** Cards in the order of the walls: every card at least as new as the
    cards after it. *)
Definition newest_first (time : string -> Q) (l : list Wall.CardData.t) : Prop :=
  StronglySorted (not_older time) l.

(** A card record for the examples, by its id and date. *)
Definition sample_card (id createdAt : string) : Wall.CardData.t :=
  {| Wall.CardData.id := id;
     Wall.CardData.quote := "Thank you";
     Wall.CardData.author := "Jane";
     Wall.CardData.width := 1080;
     Wall.CardData.height := 1080;
     Wall.CardData.palette := Generator.mkPalette "#FFF5F5" "#2D3748" "#E53E3E";
     Wall.CardData.gradient := ("#667eea", "#764ba2");
     Wall.CardData.font := Generator.mkFont "Georgia, serif";
     Wall.CardData.bgType := "solid";
     Wall.CardData.layout := "centered";
     Wall.CardData.seed := 47;
     Wall.CardData.format := "square";
     Wall.CardData.radius := 26;
     Wall.CardData.quoteSizeMultiplier := 95;
     Wall.CardData.authorSizeMultiplier := 105;
     Wall.CardData.createdAt := createdAt |}.

(** A database for the examples: two cards, dated by the length of their
    date strings; the indexed query is answered or rejected. *)
Definition sample_db (indexed : bool) : Wall.Database :=
  let entries := [sample_card "a" "2026"; sample_card "b" "2026-01"] in
  {| Wall.get_query := fun _ _ => if indexed then Some (Some entries) else None;
     Wall.get_all := Some (Some entries) |}.

(** The page before the first fetch (lines 37-41). *)
Definition fresh_wall : Wall.PageState.t :=
  {| Wall.PageState.cards := []; Wall.PageState.loading := true;
     Wall.PageState.loadingMore := false; Wall.PageState.hasMore := true |}.

(** A design that uses the catalogues and the style pack of the page. *)
Definition from_pack (p : Generator.Page.t) (d : Generator.Design.t) : Prop :=
  In (Generator.Design.palette d) Generator.PALETTES
  /\ In (Generator.Design.gradient d) Generator.GRADIENTS
  /\ In (Generator.Design.font d) Generator.FONTS
  /\ In (Generator.Design.bgType d) (Generator.StylePack.bgTypes (selected_pack p))
  /\ In (Generator.Design.layout d) (Generator.StylePack.layouts (selected_pack p)).

(** An outcome of the retry loop whose design [generateDesign] returns for
    some seed. *)
Definition generated (h : Host) (p : Generator.Page.t) (a : Generator.Attempt.t)
  : Prop :=
  exists seed, Generator.generateDesign h p seed = Some (Generator.Attempt.design a).

(** The line [a] could not take the first word of the next line [b]: the
    first token of [b], added to [a] after a space, does not fit. *)
Definition full_before (ctx : TextMeasure) (maxWidth : Q) (a b : string) : Prop :=
  exists t rest,
    tokens b = t :: rest /\ ~ fits ctx maxWidth (a +:+ " " +:+ t).

(** A place for a doodle on a card [w] by [ht]: on the card, and at least
    0.26 times the shorter side from the centre, as [Math.hypot]
    measures. *)
Definition doodle_spot (h : Host) (w ht x y : Q) : Prop :=
  0 <= x /\ x < w /\ 0 <= y /\ y < ht
  /\ Qmin w ht * 0.26 <= hypot h (x - w / 2) (y - ht / 2).

(** A call that, if it moves the origin, moves it to a good place. *)
Definition placed (good : Q -> Q -> Prop) (cmd : Cmd) : Prop :=
  match cmd with
  | Translate x y => good x y
  | _ => True
  end.

(** An action that only adds calls, each of them [placed]. *)
Definition places {A : Type} (good : Q -> Q -> Prop) (m : Draw A) : Prop :=
  forall c, exists cmds, log (m c).2 = log c ++ cmds /\ Forall (placed good) cmds.

(** * Properties *)

(** ** Strings and tokens *)

Lemma truthy_true s : truthy s = true <-> s <> "".
Proof.
  unfold truthy. rewrite negb_true_iff. apply String.eqb_neq.
Qed.

Lemma truthy_false s : truthy s = false <-> s = "".
Proof.
  unfold truthy. rewrite negb_false_iff. apply String.eqb_eq.
Qed.

Lemma app_nil_l s : "" +:+ s = s.
Proof. reflexivity. Qed.

Lemma app_cons c s t : String c s +:+ t = String c (s +:+ t).
Proof. reflexivity. Qed.

Lemma app_nil_r s : s +:+ "" = s.
Proof.
  induction s as [|c s IH]; [done|]. by rewrite app_cons, IH.
Qed.

Lemma app_assoc s1 s2 s3 : (s1 +:+ s2) +:+ s3 = s1 +:+ (s2 +:+ s3).
Proof.
  induction s1 as [|c s1 IH]; [done|]. by rewrite !app_cons, IH.
Qed.

Lemma app_snoc_ne s c : s +:+ String c "" <> "".
Proof. by destruct s. Qed.

Lemma chars_app s1 s2 : chars (s1 +:+ s2) = chars s1 ++ chars s2.
Proof.
  induction s1 as [|c s1 IH]; [done|]. rewrite app_cons. simpl. by rewrite IH.
Qed.

Lemma spaceless_app s1 s2 :
  spaceless (s1 +:+ s2) = (spaceless s1 && spaceless s2)%bool.
Proof. unfold spaceless. by rewrite chars_app, forallb_app. Qed.

(** The two-stage tokenizer of the source is the one-pass tokenizer. *)
Lemma filter_split_ws_from gap piece s :
  (gap = true -> piece = "") ->
  List.filter truthy (split_ws_from gap piece s) = tokens_from piece s.
Proof.
  revert gap piece. induction s as [|c s IH]; intros gap piece Hgap; simpl.
  - by destruct (truthy piece).
  - destruct (is_space c).
    + destruct gap.
      * rewrite (Hgap eq_refl). simpl. by apply IH.
      * simpl. destruct (truthy piece); by rewrite IH.
    + by apply IH.
Qed.

Lemma tokens_tokens_from text : tokens text = tokens_from "" text.
Proof. unfold tokens, split_ws. by apply filter_split_ws_from. Qed.

Lemma tokens_from_sep piece a c b :
  is_space c = true ->
  tokens_from piece (a +:+ String c b) = tokens_from piece a ++ tokens_from "" b.
Proof.
  intros Hc. revert piece. induction a as [|x a IH]; intros piece.
  - rewrite app_nil_l. simpl. rewrite Hc. by destruct (truthy piece).
  - rewrite app_cons. simpl.
    destruct (is_space x); [destruct (truthy piece)|]; simpl; by rewrite IH.
Qed.

Lemma tokens_from_spaceless piece w :
  spaceless w = true ->
  tokens_from piece w = if truthy (piece +:+ w) then [piece +:+ w] else [].
Proof.
  revert piece. induction w as [|c w IH]; intros piece Hw.
  - by rewrite app_nil_r.
  - simpl. unfold spaceless in Hw. simpl in Hw. apply andb_true_iff in Hw as [Hc Hw].
    apply negb_true_iff in Hc. rewrite Hc, IH by done.
    by rewrite app_assoc.
Qed.

Lemma tokens_from_words piece s :
  spaceless piece = true ->
  Forall (fun w => w <> "" /\ spaceless w = true) (tokens_from piece s).
Proof.
  revert piece. induction s as [|c s IH]; intros piece Hp; simpl.
  - destruct (truthy piece) eqn:Ht; [|constructor].
    constructor; [|constructor]. split; [by apply truthy_true | done].
  - destruct (is_space c) eqn:Hc.
    + destruct (truthy piece) eqn:Ht; [|by apply IH].
      constructor; [|by apply IH]. split; [by apply truthy_true | done].
    + apply IH. rewrite spaceless_app, Hp. unfold spaceless. simpl.
      by rewrite Hc.
Qed.

(** Tokens are non-empty and hold no whitespace. *)
Lemma tokens_words text :
  Forall (fun w => w <> "" /\ spaceless w = true) (tokens text).
Proof. rewrite tokens_tokens_from. by apply tokens_from_words. Qed.

(** A separator splits the tokens of a string. *)
Lemma tokens_sep a c b :
  is_space c = true -> tokens (a +:+ String c b) = tokens a ++ tokens b.
Proof. intros. rewrite !tokens_tokens_from. by apply tokens_from_sep. Qed.

Lemma tokens_word w : w <> "" -> spaceless w = true -> tokens w = [w].
Proof.
  intros Hne Hw. rewrite tokens_tokens_from, tokens_from_spaceless by done.
  rewrite app_nil_l. by apply truthy_true in Hne as ->.
Qed.

Lemma tokens_empty : tokens "" = [].
Proof. done. Qed.



(** Joining lines with single spaces keeps their tokens. *)
Lemma tokens_join_sp lines :
  tokens (join_sp lines) = List.concat (map tokens lines).
Proof.
  induction lines as [|l rest IH]; [done|]. destruct rest as [|l' rest].
  - simpl. by rewrite List.app_nil_r.
  - change (join_sp (l :: l' :: rest))
      with (l +:+ String " " (join_sp (l' :: rest))).
    rewrite tokens_sep by done. by rewrite IH.
Qed.

(** ** Rounding to binary64 *)

Lemma floor_bounds x : inject_Z (Qfloor x) <= x /\ x < inject_Z (Qfloor x) + 1.
Proof.
  split; [apply Qfloor_le|].
  pose proof (Qlt_floor x) as H. by rewrite inject_Z_plus in H.
Qed.

Lemma round_even_near x :
  x - (1 # 2) <= inject_Z (round_even x) /\ inject_Z (round_even x) <= x + (1 # 2).
Proof.
  unfold round_even. pose proof (floor_bounds x) as [Hlo Hhi].
  destruct (Qcompare_spec (x - inject_Z (Qfloor x)) (1 # 2)) as [He|Hl|Hg];
    [destruct (Z.even (Qfloor x))| |]; rewrite ?inject_Z_plus;
    change (inject_Z 1) with 1; generalize dependent (inject_Z (Qfloor x));
    intros; lra.
Qed.

(** Rounding to a whole number does not cross a whole number. *)
Lemma round_even_le x (n : Z) : x <= inject_Z n -> (round_even x <= n)%Z.
Proof.
  intros Hx. unfold round_even. pose proof (floor_bounds x) as [Hlo Hhi].
  assert (Hf : (Qfloor x <= n)%Z).
  { rewrite Zle_Qle. generalize dependent (inject_Z (Qfloor x)). intros; lra. }
  destruct (Z.eq_dec (Qfloor x) n) as [He|Hne].
  - rewrite He in *.
    destruct (Qcompare_spec (x - inject_Z n) (1 # 2)) as [H|H|H]; try lia;
      generalize dependent (inject_Z n); intros; lra.
  - destruct (Qcompare _ _); [destruct (Z.even _)| |]; lia.
Qed.

Lemma round_even_ge x (n : Z) : inject_Z n <= x -> (n <= round_even x)%Z.
Proof.
  intros Hx. unfold round_even.
  assert (Hf : (n <= Qfloor x)%Z).
  { apply Qfloor_resp_le in Hx. by rewrite Qfloor_Z in Hx. }
  destruct (Qcompare _ _); [destruct (Z.even _)| |]; lia.
Qed.

Lemma pow2_pos e : 0 < pow2 e.
Proof. by apply Qpower_0_lt. Qed.

Lemma pow2_succ e : pow2 (e + 1) == 2 * pow2 e.
Proof.
  unfold pow2. rewrite Qpower_plus; [|discriminate]. rewrite Qpower_1_r. ring.
Qed.

Lemma pow2_le e e' : (e <= e')%Z -> pow2 e <= pow2 e'.
Proof. intros H. by apply Qpower_le_compat_l. Qed.

Lemma pow2_Z (n : Z) : (0 <= n)%Z -> pow2 n == inject_Z (2 ^ n).
Proof. intros H. unfold pow2. by rewrite Zpower_Qpower. Qed.

(** The binade of a positive number holds it. *)
Lemma binade_spec x :
  0 < x -> pow2 (binade x) <= x /\ x < pow2 (binade x + 1).
Proof.
  intros Hx. unfold binade.
  destruct x as [n d]. cbn [Qnum Qden].
  assert (Hn : (0 < n)%Z).
  { unfold Qlt in Hx. cbn in Hx. lia. }
  pose proof (Z.log2_spec n Hn) as [Ha1 Ha2].
  pose proof (Z.log2_spec (Z.pos d) eq_refl) as [Hb1 Hb2].
  pose proof (Z.log2_nonneg n) as Ha0.
  pose proof (Z.log2_nonneg (Z.pos d)) as Hb0.
  set (a := Z.log2 n) in *. set (b := Z.log2 (Z.pos d)) in *.
  assert (HA : pow2 (a - b) == pow2 a / pow2 b).
  { unfold pow2. by rewrite Qpower_minus. }
  assert (HA1 : pow2 (a - b + 1) == 2 * pow2 a / pow2 b).
  { rewrite pow2_succ, HA. field. pose proof (pow2_pos b). lra. }
  assert (HA0 : pow2 (a - b - 1 + 1) == pow2 a / pow2 b).
  { replace (a - b - 1 + 1)%Z with (a - b)%Z by lia. done. }
  assert (HAm : pow2 (a - b) == 2 * pow2 (a - b - 1)).
  { rewrite <- pow2_succ. by replace (a - b - 1 + 1)%Z with (a - b)%Z by lia. }
  assert (Hxq : n # d == inject_Z n / inject_Z (Z.pos d)) by apply Qmake_Qdiv.
  rewrite Z.pow_succ_r in Ha2, Hb2 by done.
  rewrite Zle_Qle in Ha1, Hb1. rewrite Zlt_Qlt in Ha2, Hb2.
  rewrite inject_Z_mult in Ha2, Hb2.
  rewrite <- !pow2_Z in * by done.
  change (inject_Z 2) with 2 in *.
  pose proof (pow2_pos a) as Hpa. pose proof (pow2_pos b) as Hpb.
  assert (HD : 0 < inject_Z (Z.pos d)) by lra.
  generalize dependent (inject_Z (Z.pos d)). intros D ? ? ? ?.
  generalize dependent (inject_Z n). intros N ? ? ?.
  generalize dependent (pow2 a). intros A. generalize dependent (pow2 b). intros B.
  intros.
  assert (HxD : (n # d) * D == N) by (rewrite Hxq; field; lra).
  generalize dependent (n # d). intros x Hx _ HxD.
  assert (Hlow : A / (2 * B) <= x).
  { apply Qle_shift_div_r; [lra|]. nra. }
  assert (Hup : x < 2 * A / B).
  { apply Qlt_shift_div_l; [lra|]. nra. }
  destruct (Qle_bool (pow2 (a - b)) x) eqn:Hle.
  - apply Qle_bool_iff in Hle. split; [done|]. by rewrite HA1.
  - assert (Hnle : ~ pow2 (a - b) <= x).
    { intros H. apply Qle_bool_iff in H. congruence. }
    split.
    + assert (pow2 (a - b - 1) == A / (2 * B)) as ->; [|done].
      assert (pow2 (a - b - 1) == pow2 (a - b) / 2) as -> by (rewrite HAm; field).
      rewrite HA. field. lra.
    + rewrite HA0, <- HA. lra.
Qed.

Lemma nearest_error x :
  0 < x ->
  x - pow2 (binade x - 53) <= nearest x /\ nearest x <= x + pow2 (binade x - 53).
Proof.
  intros Hx. unfold nearest.
  pose proof (pow2_pos (binade x - 52)) as Hu.
  assert (Hh : pow2 (binade x - 52) == 2 * pow2 (binade x - 53)).
  { rewrite <- pow2_succ.
    by replace (binade x - 53 + 1)%Z with (binade x - 52)%Z by lia. }
  pose proof (round_even_near (x / pow2 (binade x - 52))) as [H1 H2].
  generalize dependent (inject_Z (round_even (x / pow2 (binade x - 52)))).
  intros m H1 H2.
  assert (Hq : x / pow2 (binade x - 52) * pow2 (binade x - 52) == x) by (field; lra).
  generalize dependent (x / pow2 (binade x - 52)). intros q H1 H2 Hq.
  generalize dependent (pow2 (binade x - 52)). intros u Hu Hh Hq.
  generalize dependent (pow2 (binade x - 53)). intros v Hh.
  split; nra.
Qed.

Lemma eps_pow2 : pow2 (-53) == eps.
Proof. reflexivity. Qed.

(** The relative error of rounding a positive number is at most [eps]. *)
Lemma nearest_relative x :
  0 < x -> x * (1 - eps) <= nearest x /\ nearest x <= x * (1 + eps).
Proof.
  intros Hx. pose proof (nearest_error x Hx) as [H1 H2].
  pose proof (binade_spec x Hx) as [Hb _].
  assert (Hv : pow2 (binade x - 53) == pow2 (binade x) * eps).
  { rewrite <- eps_pow2. unfold pow2. rewrite <- Qpower_plus by discriminate.
    by replace (binade x + -53)%Z with (binade x - 53)%Z by lia. }
  assert (He : 0 < eps) by reflexivity.
  generalize dependent (pow2 (binade x - 53)). intros v H1 H2 Hv.
  generalize dependent (pow2 (binade x)). intros w Hb Hv.
  generalize dependent eps. intros e He Hv.
  split; nra.
Qed.

(** A rounded number stays in its binade. *)
Lemma nearest_binade x :
  0 < x -> pow2 (binade x) <= nearest x /\ nearest x <= pow2 (binade x + 1).
Proof.
  intros Hx. pose proof (binade_spec x Hx) as [Hlo Hhi].
  unfold nearest.
  pose proof (pow2_pos (binade x - 52)) as Hu.
  assert (H52 : pow2 (binade x) == inject_Z (2 ^ 52) * pow2 (binade x - 52)).
  { rewrite <- pow2_Z by lia. unfold pow2. rewrite <- Qpower_plus by discriminate.
    by replace (52 + (binade x - 52))%Z with (binade x) by lia. }
  assert (H53 : pow2 (binade x + 1) == inject_Z (2 ^ 53) * pow2 (binade x - 52)).
  { rewrite <- pow2_Z by lia. unfold pow2. rewrite <- Qpower_plus by discriminate.
    by replace (53 + (binade x - 52))%Z with (binade x + 1)%Z by lia. }
  assert (Hq : x / pow2 (binade x - 52) * pow2 (binade x - 52) == x) by (field; lra).
  assert (Hge : (2 ^ 52 <= round_even (x / pow2 (binade x - 52)))%Z).
  { apply round_even_ge. apply Qle_shift_div_l; [done|]. by rewrite <- H52. }
  assert (Hle : (round_even (x / pow2 (binade x - 52)) <= 2 ^ 53)%Z).
  { apply round_even_le. apply Qle_shift_div_r; [done|]. rewrite <- H53. lra. }
  rewrite Zle_Qle in Hge, Hle. rewrite H52, H53.
  generalize dependent (inject_Z (round_even (x / pow2 (binade x - 52)))).
  intros m Hge Hle.
  generalize dependent (inject_Z (2 ^ 52)). generalize dependent (inject_Z (2 ^ 53)).
  intros. split; nra.
Qed.

Lemma fl_pos x : 0 < x -> fl x == nearest x.
Proof.
  intros Hx. unfold fl. destruct (Qcompare_spec x 0); [lra|lra|].
  apply Qred_correct.
Qed.

Lemma fl_neg x : x < 0 -> fl x == - nearest (- x).
Proof.
  intros Hx. unfold fl. destruct (Qcompare_spec x 0); [lra| |lra].
  apply Qred_correct.
Qed.

Lemma fl_zero x : x == 0 -> fl x = 0.
Proof. intros Hx. unfold fl. destruct (Qcompare_spec x 0); [done|lra|lra]. Qed.

(** The sign of a number, as a case analysis for the proofs. *)
Lemma sign_cases x : x < 0 \/ x == 0 \/ 0 < x.
Proof. destruct (Qlt_le_dec x 0); [by left|]. destruct (Qlt_le_dec 0 x); [by auto|]. right. left. lra. Qed.

(** One rounding moves a number by at most [eps] times its size. *)
Lemma fl_error x :
  x - eps * Qabs x <= fl x /\ fl x <= x + eps * Qabs x.
Proof.
  assert (He : 0 < eps) by reflexivity.
  destruct (sign_cases x) as [Hx|[Hx|Hx]].
  - rewrite (fl_neg x Hx), (Qabs_neg x) by lra.
    destruct (nearest_relative (- x)) as [H1 H2]; [lra|].
    generalize dependent (nearest (- x)). intros. split; nra.
  - rewrite (fl_zero x Hx), (Qabs_pos x) by lra. nra.
  - rewrite (fl_pos x Hx), (Qabs_pos x) by lra.
    destruct (nearest_relative x Hx) as [H1 H2].
    generalize dependent (nearest x). intros. split; nra.
Qed.

Lemma fl_nonneg x : 0 <= x -> 0 <= fl x.
Proof.
  intros Hx. destruct (fl_error x) as [H1 _]. rewrite Qabs_pos in H1 by done.
  assert (He : eps < 1) by reflexivity. nra.
Qed.

Lemma fl_nonpos x : x <= 0 -> fl x <= 0.
Proof.
  intros Hx. destruct (fl_error x) as [_ H1]. rewrite Qabs_neg in H1 by done.
  assert (He : eps < 1) by reflexivity. nra.
Qed.

(** A number below 1 is not rounded above 1. *)
Lemma fl_below_one x : x < 1 -> fl x <= 1.
Proof.
  intros Hx. destruct (Qlt_le_dec 0 x) as [Hpos|Hneg].
  - rewrite (fl_pos x Hpos).
    destruct (nearest_binade x Hpos) as [_ Hup].
    destruct (binade_spec x Hpos) as [Hlo _].
    assert (He : (binade x < 0)%Z).
    { apply (Qpower_lt_compat_l_inv 2); [|reflexivity].
      change (2 ^ binade x) with (pow2 (binade x)). change (2 ^ 0) with 1. lra. }
    pose proof (pow2_le (binade x + 1) 0) as H0. change (pow2 0) with 1 in H0.
    specialize (H0 ltac:(lia)). lra.
  - pose proof (fl_nonpos x Hneg). lra.
Qed.

(** A bound that a rounded number respects is respected by the number,
    up to two roundings of the bound. *)
Lemma fl_le_inv z c : fl z <= c -> z <= c + 2 * eps * Qabs c.
Proof.
  intros H. destruct (fl_error z) as [H1 _].
  assert (He : 0 < eps) by reflexivity. assert (He' : eps <= 1 # 2) by discriminate.
  pose proof (Qabs_nonneg c) as Hc.
  destruct (Qlt_le_dec c z) as [Hlt|Hle]; [|nra].
  destruct (Qlt_le_dec z 0) as [Hz|Hz].
  - rewrite (Qabs_neg z) in H1 by lra. rewrite (Qabs_neg c) in * by lra. nra.
  - rewrite (Qabs_pos z) in H1 by lra.
    assert (0 <= c) by nra. rewrite (Qabs_pos c) in * by lra. nra.
Qed.

Lemma fl_error_nonneg x :
  0 <= x -> x * (1 - eps) <= fl x /\ fl x <= x * (1 + eps).
Proof.
  intros Hx. destruct (fl_error x) as [H1 H2]. rewrite Qabs_pos in H1, H2 by done.
  split; lra.
Qed.

Lemma fmul_nonneg x y : 0 <= x -> 0 <= y -> 0 <= x ⊗ y.
Proof. intros Hx Hy. apply fl_nonneg. nra. Qed.

Lemma fadd_nonneg x y : 0 <= x -> 0 <= y -> 0 <= x ⊕ y.
Proof. intros Hx Hy. apply fl_nonneg. lra. Qed.

Lemma fdiv_nonneg x y : 0 <= x -> 0 < y -> 0 <= x ⊘ y.
Proof.
  intros Hx Hy. apply fl_nonneg. apply Qle_shift_div_l; [done|]. lra.
Qed.

Lemma floor_nonneg x : 0 <= x -> 0 <= floor x.
Proof.
  intros Hx. unfold floor. change 0 with (inject_Z 0). rewrite <- Zle_Qle.
  change 0%Z with (Qfloor (inject_Z 0)). by apply Qfloor_resp_le.
Qed.

(** The decimal literals of the text block. *)
Lemma lit_0_1 : lit 0.1 = 3602879701896397 # 36028797018963968.
Proof. vm_compute. reflexivity. Qed.

Lemma lit_0_9 : lit 0.9 = 8106479329266893 # 9007199254740992.
Proof. vm_compute. reflexivity. Qed.

Lemma lit_2_6 : lit 2.6 = 5854679515581645 # 2251799813685248.
Proof. vm_compute. reflexivity. Qed.

(** ** [wrapTextSmart]: the width of the lines *)

Lemma leb_fits ctx maxWidth line :
  leb (ctx line) maxWidth = true <-> fits ctx maxWidth line.
Proof. apply Qle_bool_iff. Qed.

Lemma leb_not_fits ctx maxWidth line :
  leb (ctx line) maxWidth = false <-> ~ fits ctx maxWidth line.
Proof.
  rewrite <- leb_fits. destruct (leb (ctx line) maxWidth); naive_solver.
Qed.

Lemma split_fold_ok ctx maxWidth cs lines chunk :
  Forall (line_ok ctx maxWidth) lines ->
  chunk = "" \/ line_ok ctx maxWidth chunk ->
  Forall (line_ok ctx maxWidth)
    (fst (fold_left (Wall.split_step ctx maxWidth) cs (lines, chunk)))
  /\ (snd (fold_left (Wall.split_step ctx maxWidth) cs (lines, chunk)) = ""
      \/ line_ok ctx maxWidth
           (snd (fold_left (Wall.split_step ctx maxWidth) cs (lines, chunk)))).
Proof.
  revert lines chunk. induction cs as [|ch cs IH]; intros lines chunk Hl Hc.
  - done.
  - simpl. destruct (leb (ctx (chunk +:+ String ch "")) maxWidth) eqn:Hfit.
    + apply IH; [done|]. right. left. by apply leb_fits.
    + apply IH.
      * destruct (truthy chunk) eqn:Ht; [|done].
        apply Forall_app. split; [done|]. constructor; [|constructor].
        destruct Hc as [->|Hc]; [done | done].
      * right. right. by exists ch.
Qed.

Lemma token_step_ok ctx maxWidth lines current tok :
  Forall (line_ok ctx maxWidth) lines ->
  current = "" \/ line_ok ctx maxWidth current ->
  Forall (line_ok ctx maxWidth)
    (fst (Wall.token_step ctx maxWidth (lines, current) tok))
  /\ (snd (Wall.token_step ctx maxWidth (lines, current) tok) = ""
      \/ line_ok ctx maxWidth
           (snd (Wall.token_step ctx maxWidth (lines, current) tok))).
Proof.
  intros Hl Hc. unfold Wall.token_step.
  set (test := if truthy current then _ else _).
  destruct (leb (ctx test) maxWidth) eqn:Htest.
  { split; [done|]. right. left. by apply leb_fits. }
  assert (Hl' : Forall (line_ok ctx maxWidth)
                  (if truthy current then Wall.push_line lines current else lines)).
  { unfold Wall.push_line. destruct (truthy current) eqn:Ht; [|done].
    apply Forall_app. split; [done|]. constructor; [|constructor].
    destruct Hc as [->|Hc]; done. }
  destruct (leb (ctx tok) maxWidth) eqn:Htok.
  { split; [done|]. right. left. by apply leb_fits. }
  pose proof (split_fold_ok ctx maxWidth (chars tok) _ "" Hl' (or_introl eq_refl))
    as [H1 H2].
  destruct (fold_left _ _ _) as [lines2 chunk]. simpl in *.
  split; [done|]. destruct (truthy chunk); [done | by left].
Qed.

Lemma token_fold_ok ctx maxWidth toks lines current :
  Forall (line_ok ctx maxWidth) lines ->
  current = "" \/ line_ok ctx maxWidth current ->
  Forall (line_ok ctx maxWidth)
    (fst (fold_left (Wall.token_step ctx maxWidth) toks (lines, current)))
  /\ (snd (fold_left (Wall.token_step ctx maxWidth) toks (lines, current)) = ""
      \/ line_ok ctx maxWidth
           (snd (fold_left (Wall.token_step ctx maxWidth) toks (lines, current)))).
Proof.
  revert lines current. induction toks as [|tok toks IH]; intros lines current Hl Hc.
  - done.
  - cbn [fold_left].
    pose proof (token_step_ok ctx maxWidth lines current tok Hl Hc) as [H1 H2].
    destruct (Wall.token_step _ _ _ _) as [lines1 current1]. by apply IH.
Qed.

Lemma wrap_lines_ok ctx text maxWidth :
  Forall (line_ok ctx maxWidth) (Wall.wrapTextSmart ctx text maxWidth).
Proof.
  unfold Wall.wrapTextSmart.
  pose proof (token_fold_ok ctx maxWidth (tokens text) [] ""
                (List.Forall_nil _) (or_introl eq_refl)) as [H1 H2].
  destruct (fold_left _ _ _) as [lines current]. simpl in *.
  unfold Wall.push_line. destruct (truthy current) eqn:Ht; [|done].
  apply Forall_app. split; [done|]. constructor; [|constructor].
  destruct H2 as [->|H2]; done.
Qed.

(** The characters of a token are characters of the text. *)
Lemma tokens_from_chars piece s :
  Forall (fun tok => incl (chars tok) (chars piece ++ chars s))
         (tokens_from piece s).
Proof.
  revert piece. induction s as [|c s IH]; intros piece; simpl.
  - destruct (truthy piece); constructor; [|constructor].
    intros ch Hch. apply in_or_app. by left.
  - destruct (is_space c).
    + assert (Hrest : Forall (fun tok => incl (chars tok) (chars piece ++ c :: chars s))
                        (tokens_from "" s)).
      { eapply List.Forall_impl; [|apply (IH "")]. intros tok Htok ch Hch.
        apply in_or_app. right. right. by apply Htok. }
      destruct (truthy piece); [|done]. constructor; [|done].
      intros ch Hch. apply in_or_app. by left.
    + eapply List.Forall_impl; [|apply (IH (piece +:+ String c ""))].
      intros tok Htok ch Hch. apply Htok in Hch. rewrite chars_app in Hch.
      rewrite <- List.app_assoc in Hch. done.
Qed.

Lemma tokens_chars text :
  Forall (fun tok => incl (chars tok) (chars text)) (tokens text).
Proof. rewrite tokens_tokens_from. apply (tokens_from_chars "" text). Qed.

Lemma line_from_incl ctx maxWidth cs cs' line :
  incl cs cs' -> line_from ctx maxWidth cs line -> line_from ctx maxWidth cs' line.
Proof.
  intros Hcs [Hfit|(ch & Hch & ->)]; [by left|]. right. exists ch. split; [|done].
  by apply Hcs.
Qed.

Lemma split_fold_from ctx maxWidth cs all lines chunk :
  incl cs all ->
  Forall (line_from ctx maxWidth all) lines ->
  chunk = "" \/ line_from ctx maxWidth all chunk ->
  Forall (line_from ctx maxWidth all)
    (fst (fold_left (Wall.split_step ctx maxWidth) cs (lines, chunk)))
  /\ (snd (fold_left (Wall.split_step ctx maxWidth) cs (lines, chunk)) = ""
      \/ line_from ctx maxWidth all
           (snd (fold_left (Wall.split_step ctx maxWidth) cs (lines, chunk)))).
Proof.
  revert lines chunk. induction cs as [|ch cs IH]; intros lines chunk Hcs Hl Hc.
  - done.
  - assert (Hcs' : incl cs all) by (intros x Hx; apply Hcs; by right).
    simpl. destruct (leb (ctx (chunk +:+ String ch "")) maxWidth) eqn:Hfit.
    + apply IH; [done|done|]. right. left. by apply leb_fits.
    + apply IH; [done| |].
      * destruct (truthy chunk) eqn:Ht; [|done].
        apply Forall_app. split; [done|]. constructor; [|constructor].
        destruct Hc as [->|Hc]; [done | done].
      * right. right. exists ch. split; [|done]. apply Hcs. by left.
Qed.

Lemma token_step_from ctx maxWidth all lines current tok :
  incl (chars tok) all ->
  Forall (line_from ctx maxWidth all) lines ->
  current = "" \/ line_from ctx maxWidth all current ->
  Forall (line_from ctx maxWidth all)
    (fst (Wall.token_step ctx maxWidth (lines, current) tok))
  /\ (snd (Wall.token_step ctx maxWidth (lines, current) tok) = ""
      \/ line_from ctx maxWidth all
           (snd (Wall.token_step ctx maxWidth (lines, current) tok))).
Proof.
  intros Htok Hl Hc. unfold Wall.token_step.
  set (test := if truthy current then _ else _).
  destruct (leb (ctx test) maxWidth) eqn:Htest.
  { split; [done|]. right. left. by apply leb_fits. }
  assert (Hl' : Forall (line_from ctx maxWidth all)
                  (if truthy current then Wall.push_line lines current else lines)).
  { unfold Wall.push_line. destruct (truthy current) eqn:Ht; [|done].
    apply Forall_app. split; [done|]. constructor; [|constructor].
    destruct Hc as [->|Hc]; done. }
  destruct (leb (ctx tok) maxWidth) eqn:Htk.
  { split; [done|]. right. left. by apply leb_fits. }
  pose proof (split_fold_from ctx maxWidth (chars tok) all _ "" Htok Hl'
                (or_introl eq_refl)) as [H1 H2].
  destruct (fold_left _ _ _) as [lines2 chunk]. simpl in *.
  split; [done|]. destruct (truthy chunk); [done | by left].
Qed.

Lemma token_fold_from ctx maxWidth all toks lines current :
  Forall (fun tok => incl (chars tok) all) toks ->
  Forall (line_from ctx maxWidth all) lines ->
  current = "" \/ line_from ctx maxWidth all current ->
  Forall (line_from ctx maxWidth all)
    (fst (fold_left (Wall.token_step ctx maxWidth) toks (lines, current)))
  /\ (snd (fold_left (Wall.token_step ctx maxWidth) toks (lines, current)) = ""
      \/ line_from ctx maxWidth all
           (snd (fold_left (Wall.token_step ctx maxWidth) toks (lines, current)))).
Proof.
  revert lines current.
  induction toks as [|tok toks IH]; intros lines current Htoks Hl Hc.
  - done.
  - cbn [fold_left]. apply Forall_cons in Htoks as [Htok Htoks].
    pose proof (token_step_from ctx maxWidth all lines current tok Htok Hl Hc)
      as [H1 H2].
    destruct (Wall.token_step _ _ _ _) as [lines1 current1]. by apply IH.
Qed.

(** Every line fits, or is one character of the text. *)
Lemma wrap_lines_from ctx text maxWidth :
  Forall (line_from ctx maxWidth (chars text)) (Wall.wrapTextSmart ctx text maxWidth).
Proof.
  unfold Wall.wrapTextSmart.
  pose proof (token_fold_from ctx maxWidth (chars text) (tokens text) [] ""
                (tokens_chars text) (List.Forall_nil _) (or_introl eq_refl))
    as [H1 H2].
  destruct (fold_left _ _ _) as [lines current]. simpl in *.
  unfold Wall.push_line. destruct (truthy current) eqn:Ht; [|done].
  apply Forall_app. split; [done|]. constructor; [|constructor].
  destruct H2 as [->|H2]; done.
Qed.

(** C2, as the code has it.  Every line [wrapTextSmart] returns fits
    [maxWidth], except a line that holds a single character of the text
    which is itself wider than [maxWidth]: a character is never split.  So
    when every character of the text fits on its own, every line fits. *)
Theorem wrap_lines_fit_or_single_char ctx text maxWidth :
  Forall (fun line =>
            fits ctx maxWidth line
            \/ (exists ch, In ch (chars text) /\ line = String ch ""
                           /\ ~ fits ctx maxWidth (String ch "")))
         (Wall.wrapTextSmart ctx text maxWidth)
  /\ ((forall ch, In ch (chars text) -> fits ctx maxWidth (String ch "")) ->
      Forall (fits ctx maxWidth) (Wall.wrapTextSmart ctx text maxWidth)).
Proof.
  split.
  - eapply List.Forall_impl; [|apply wrap_lines_from].
    intros line [Hfit|(ch & Hch & ->)]; [by left|].
    destruct (leb (ctx (String ch "")) maxWidth) eqn:Hleb.
    + left. by apply leb_fits.
    + right. exists ch. split; [done|]. split; [done | by apply leb_not_fits].
  - intros Hall. eapply List.Forall_impl; [|apply wrap_lines_from].
    intros line [Hfit|(ch & Hch & ->)]; [done | by apply Hall].
Qed.

(** C2, as the claim states it, fails: with every character 1 wide and
    [maxWidth = 1/2 > 0], the text [W] comes back as the line [W], which
    is wider than [maxWidth]. *)
Lemma wrap_single_wide_char_overflows :
  0 < 1 # 2
  /\ Wall.wrapTextSmart char_count "W" (1 # 2) = ["W"]
  /\ ~ Forall (fits char_count (1 # 2)) (Wall.wrapTextSmart char_count "W" (1 # 2)).
Proof.
  split; [reflexivity|]. split; [reflexivity|].
  intros H. apply Forall_inv in H. unfold fits in H. vm_compute in H. by apply H.
Qed.

(** C2 for the fixed-pitch metric, the text [thank you] and lines of 5
    characters: every character fits, so every line does. *)
Lemma wrap_lines_fit_or_single_char_witness :
  Forall (fits char_count 5) (Wall.wrapTextSmart char_count "thank you" 5).
Proof.
  apply (proj2 (wrap_lines_fit_or_single_char char_count "thank you" 5)).
  intros ch _. vm_compute. discriminate.
Defined.

(** X1.  When every character of the text fits on its own, every line
    [wrapTextSmart] returns fits [maxWidth]. *)
Lemma wrap_lines_fit_when_chars_fit ctx text maxWidth :
  (forall ch, fits ctx maxWidth (String ch "")) ->
  Forall (fits ctx maxWidth) (Wall.wrapTextSmart ctx text maxWidth).
Proof.
  intros Hch. eapply List.Forall_impl; [|apply wrap_lines_ok].
  intros line [Hfit|[ch ->]]; [done | apply Hch].
Qed.

(** ** [wrapTextSmart]: nothing of the text is lost *)

Lemma held_push lines current :
  held (Wall.push_line lines current) "" = held lines current.
Proof.
  unfold held, Wall.push_line. destruct (truthy current) eqn:Ht.
  - rewrite map_app, concat_app. simpl. by rewrite !List.app_nil_r.
  - apply truthy_false in Ht as ->. done.
Qed.

Lemma held_push_if lines current :
  held (if truthy current then Wall.push_line lines current else lines) ""
  = held lines current.
Proof.
  destruct (truthy current) eqn:Ht; [apply held_push|].
  apply truthy_false in Ht as ->. done.
Qed.

Lemma held_words lines ws :
  Forall word ws -> List.concat (map tokens (lines ++ ws))
                    = List.concat (map tokens lines) ++ ws.
Proof.
  intros Hws. rewrite map_app, concat_app. f_equal.
  induction Hws as [|w ws [Hne Hw] _ IH]; [done|].
  simpl. by rewrite tokens_word, IH.
Qed.

Lemma held_word lines w : word w -> held lines w = held lines "" ++ [w].
Proof.
  intros [Hne Hw]. unfold held.
  by rewrite tokens_word, tokens_empty, List.app_nil_r.
Qed.

Lemma held_app_words lines ws :
  Forall word ws -> held (lines ++ ws) "" = held lines "" ++ ws.
Proof.
  intros Hws. unfold held. rewrite held_words by done.
  by rewrite tokens_empty, !List.app_nil_r.
Qed.

Lemma concat_empty_snoc cs c :
  String.concat "" (cs ++ [c]) = String.concat "" cs +:+ c.
Proof.
  induction cs as [|x [|y cs] IH].
  - done.
  - simpl. by rewrite app_nil_l.
  - change (String.concat "" ((x :: y :: cs) ++ [c]))
      with (x +:+ "" +:+ String.concat "" ((y :: cs) ++ [c])).
    change (String.concat "" (x :: y :: cs))
      with (x +:+ "" +:+ String.concat "" (y :: cs)).
    by rewrite IH, !app_nil_l, app_assoc.
Qed.

Lemma spaceless_snoc s ch :
  spaceless (s +:+ String ch "") = (spaceless s && negb (is_space ch))%bool.
Proof.
  rewrite spaceless_app. unfold spaceless at 2. simpl. by rewrite andb_true_r.
Qed.

(** The inner loop: the lines it pushes and the chunk it leaves are words
    whose concatenation is what it has read. *)
Lemma split_fold_chunks ctx maxWidth cs lines chunk :
  spaceless chunk = true ->
  forallb (fun c => negb (is_space c)) cs = true ->
  exists pushed,
    fst (fold_left (Wall.split_step ctx maxWidth) cs (lines, chunk))
      = lines ++ pushed
    /\ Forall word pushed
    /\ spaceless (snd (fold_left (Wall.split_step ctx maxWidth) cs (lines, chunk)))
       = true
    /\ String.concat "" pushed
         +:+ snd (fold_left (Wall.split_step ctx maxWidth) cs (lines, chunk))
       = chunk +:+ string_of_list_ascii cs
    /\ (cs <> [] ->
        snd (fold_left (Wall.split_step ctx maxWidth) cs (lines, chunk)) <> "").
Proof.
  revert lines chunk. induction cs as [|ch cs IH]; intros lines chunk Hchunk Hcs.
  - exists []. simpl. rewrite List.app_nil_r, app_nil_l, app_nil_r. done.
  - simpl in Hcs. apply andb_true_iff in Hcs as [Hch Hcs].
    cbn [fold_left].
    replace (Wall.split_step ctx maxWidth (lines, chunk) ch)
      with (if leb (ctx (chunk +:+ String ch "")) maxWidth
            then (lines, chunk +:+ String ch "")
            else ((if truthy chunk then lines ++ [chunk] else lines),
                  String ch "")) by reflexivity.
    destruct (leb (ctx (chunk +:+ String ch "")) maxWidth).
    + destruct (IH lines (chunk +:+ String ch "")) as (pushed & H1 & H2 & H3 & H4 & H5).
      { by rewrite spaceless_snoc, Hchunk, Hch. }
      { done. }
      exists pushed. repeat split; try done.
      * rewrite H4. simpl. by rewrite app_assoc.
      * intros _. destruct cs as [|c' cs']; [by apply app_snoc_ne | by apply H5].
    + destruct (truthy chunk) eqn:Ht.
      * destruct (IH (lines ++ [chunk]) (String ch "")) as (pushed & H1 & H2 & H3 & H4 & H5).
        { unfold spaceless. simpl. by rewrite Hch. }
        { done. }
        exists (chunk :: pushed). repeat split; try done.
        -- rewrite H1. by rewrite <- List.app_assoc.
        -- constructor; [|done]. split; [by apply truthy_true | done].
        -- destruct pushed as [|p pushed'].
           ++ simpl in *. rewrite app_nil_l in H4. rewrite H4. done.
           ++ change (String.concat "" (chunk :: p :: pushed'))
                with (chunk +:+ "" +:+ String.concat "" (p :: pushed')).
              rewrite app_nil_l, app_assoc, H4. done.
        -- intros _. destruct cs as [|c' cs']; [done | by apply H5].
      * apply truthy_false in Ht as ->.
        destruct (IH lines (String ch "")) as (pushed & H1 & H2 & H3 & H4 & H5).
        { unfold spaceless. simpl. by rewrite Hch. }
        { done. }
        exists pushed. repeat split; try done.
        intros _. destruct cs as [|c' cs']; [done | by apply H5].
Qed.

(** One token: the tokens held afterwards are those held before, followed
    by the chunks of the token. *)
Lemma token_step_held ctx maxWidth lines current tok :
  word tok ->
  exists cs,
    chunks_of ctx maxWidth tok cs
    /\ held (fst (Wall.token_step ctx maxWidth (lines, current) tok))
            (snd (Wall.token_step ctx maxWidth (lines, current) tok))
       = held lines current ++ cs.
Proof.
  intros [Hne Hw]. unfold Wall.token_step.
  assert (Hone : chunks_of ctx maxWidth tok [tok]).
  { split; [done|]. split; [by constructor | done]. }
  destruct (leb (ctx (if truthy current then current +:+ " " +:+ tok else tok))
              maxWidth).
  { exists [tok]. split; [done|]. cbn [fst snd]. unfold held. rewrite <- List.app_assoc.
    f_equal. destruct (truthy current) eqn:Ht.
    - change (current +:+ " " +:+ tok) with (current +:+ String " " tok).
      rewrite tokens_sep by done. by rewrite (tokens_word tok).
    - apply truthy_false in Ht as ->. by rewrite (tokens_word tok). }
  destruct (leb (ctx tok) maxWidth) eqn:Htok.
  { exists [tok]. split; [done|]. cbn [fst snd].
    rewrite held_word by done. by rewrite held_push_if. }
  destruct (split_fold_chunks ctx maxWidth (chars tok)
              (if truthy current then Wall.push_line lines current else lines) "")
    as (pushed & H1 & H2 & H3 & H4 & H5); [done | apply Hw |].
  destruct (fold_left _ _ _) as [lines2 chunk]. cbn [fst snd] in *.
  assert (Hchunk : chunk <> "").
  { apply H5. destruct tok; [done | discriminate]. }
  exists (pushed ++ [chunk]). split.
  - split; [|split].
    + rewrite concat_empty_snoc, H4, app_nil_l.
      apply string_of_list_ascii_of_string.
    + apply Forall_app. split; [|by constructor].
      eapply List.Forall_impl; [|exact H2]. by intros w [? _].
    + intros Hfit. apply leb_fits in Hfit. congruence.
  - apply truthy_true in Hchunk as Ht. rewrite Ht.
    rewrite held_word by done. rewrite H1, held_app_words by done.
    by rewrite held_push_if, <- List.app_assoc.
Qed.

Lemma token_fold_held ctx maxWidth toks lines current :
  Forall word toks ->
  exists parts,
    Forall2 (chunks_of ctx maxWidth) toks parts
    /\ held (fst (fold_left (Wall.token_step ctx maxWidth) toks (lines, current)))
            (snd (fold_left (Wall.token_step ctx maxWidth) toks (lines, current)))
       = held lines current ++ List.concat parts.
Proof.
  intros Hws. revert lines current.
  induction Hws as [|tok toks Htok _ IH]; intros lines current.
  - exists []. split; [constructor|]. simpl. by rewrite List.app_nil_r.
  - cbn [fold_left].
    destruct (token_step_held ctx maxWidth lines current tok Htok) as (cs & Hcs & Hheld).
    destruct (Wall.token_step _ _ _ _) as [lines1 current1]. cbn [fst snd] in Hheld.
    destruct (IH lines1 current1) as (parts & Hparts & Hrest).
    exists (cs :: parts). split; [by constructor|].
    rewrite Hrest, Hheld. simpl. by rewrite <- List.app_assoc.
Qed.

Lemma wrap_chunks ctx text maxWidth :
  exists parts,
    Forall2 (chunks_of ctx maxWidth) (tokens text) parts
    /\ tokens (join_sp (Wall.wrapTextSmart ctx text maxWidth))
       = List.concat parts.
Proof.
  destruct (token_fold_held ctx maxWidth (tokens text) [] "")
    as (parts & Hparts & Hheld).
  { apply tokens_words. }
  exists parts. split; [done|].
  rewrite tokens_join_sp. unfold Wall.wrapTextSmart.
  destruct (fold_left _ _ _) as [lines current]. cbn [fst snd] in Hheld.
  rewrite <- held_push in Hheld. unfold held in Hheld.
  rewrite tokens_empty, List.app_nil_r in Hheld. by rewrite Hheld.
Qed.

(** X2.  When every token fits, no token is split: the lines joined by
    single spaces hold the tokens of the text, unchanged and in order. *)
Lemma wrap_lossless_fitting ctx text maxWidth :
  Forall (fits ctx maxWidth) (tokens text) ->
  tokens (join_sp (Wall.wrapTextSmart ctx text maxWidth)) = tokens text.
Proof.
  intros Hfit. destruct (wrap_chunks ctx text maxWidth) as (parts & Hparts & ->).
  induction Hparts as [|tok cs toks parts (_ & _ & Hcs) _ IH]; [done|].
  apply Forall_cons in Hfit as [Htok Hfit].
  simpl. rewrite (Hcs Htok), IH by done. done.
Qed.

(** C3.  Joining the lines of [wrapTextSmart] with single spaces and
    tokenizing the result gives the tokens of the text, in order, each as
    its chunks: a token that fits [maxWidth] is its own single chunk, any
    other token is a run of non-empty chunks that concatenate to it. *)
Theorem wrap_lossless ctx text maxWidth :
  exists parts,
    Forall2 (chunks_of ctx maxWidth) (tokens text) parts
    /\ tokens (join_sp (Wall.wrapTextSmart ctx text maxWidth))
       = List.concat parts.
Proof. apply wrap_chunks. Qed.


(** ** The three copies of [wrapTextSmart] *)

Lemma split_step_copies ctx maxWidth st ch :
  Wall.split_step ctx maxWidth st ch = LiveWall.split_step ctx maxWidth st ch
  /\ LiveWall.split_step ctx maxWidth st ch
     = Generator.split_step ctx maxWidth st ch.
Proof. by destruct st. Qed.

Lemma token_step_copies ctx maxWidth st tok :
  Wall.token_step ctx maxWidth st tok = LiveWall.token_step ctx maxWidth st tok
  /\ LiveWall.token_step ctx maxWidth st tok
     = Generator.token_step ctx maxWidth st tok.
Proof. by destruct st. Qed.

Lemma token_fold_copies ctx maxWidth toks st :
  fold_left (Wall.token_step ctx maxWidth) toks st
  = fold_left (LiveWall.token_step ctx maxWidth) toks st
  /\ fold_left (LiveWall.token_step ctx maxWidth) toks st
     = fold_left (Generator.token_step ctx maxWidth) toks st.
Proof.
  revert st. induction toks as [|tok toks IH]; intros st; [done|].
  cbn [fold_left].
  destruct (token_step_copies ctx maxWidth st tok) as [H1 H2].
  rewrite H1, H2. apply IH.
Qed.

(** C10.  The copies of [wrapTextSmart] in the paginated wall, the live
    wall and the generator return the same lines for every measurement
    context, text and [maxWidth]. *)
Theorem wrapTextSmart_copies_agree ctx text maxWidth :
  Wall.wrapTextSmart ctx text maxWidth = LiveWall.wrapTextSmart ctx text maxWidth
  /\ LiveWall.wrapTextSmart ctx text maxWidth
     = Generator.wrapTextSmart ctx text maxWidth.
Proof.
  unfold Wall.wrapTextSmart, LiveWall.wrapTextSmart, Generator.wrapTextSmart.
  destruct (token_fold_copies ctx maxWidth (tokens text) ([], "")) as [-> ->].
  by destruct (fold_left _ _ _).
Qed.

(** ** [computeSafeStartY] *)

Lemma ltb_lt x y : ltb x y = true <-> x < y.
Proof.
  unfold ltb. rewrite negb_true_iff. split.
  - intros H. apply Qnot_le_lt. intros Hle. apply Qle_bool_iff in Hle. congruence.
  - intros H. destruct (Qle_bool y x) eqn:E; [|done].
    apply Qle_bool_iff in E. lra.
Qed.

Lemma ltb_ge x y : ltb x y = false <-> y <= x.
Proof.
  unfold ltb. rewrite negb_false_iff. apply Qle_bool_iff.
Qed.

Lemma ltb_cases x y : (ltb x y = true /\ x < y) \/ (ltb x y = false /\ y <= x).
Proof.
  destruct (ltb x y) eqn:E; [left | right]; split; try done.
  - by apply ltb_lt.
  - by apply ltb_ge.
Qed.

Lemma Qabs_sub_le x b : 0 <= b -> Qabs (x - b) <= Qabs x + b.
Proof.
  intros Hb. apply Qabs_case; intros H; apply Qabs_case; intros H'; lra.
Qed.

(** The start of the text block, whatever the roundings. *)
Lemma computeSafeStartY64_bounds contentY blockH safeTop safeBottom :
  0 <= blockH ->
  safeTop <= safeBottom ->
  let y := Generator64.computeSafeStartY contentY blockH safeTop safeBottom in
  let allowance := 2 * eps * (Qabs safeBottom + blockH) in
  safeTop <= y
  /\ (blockH <= safeBottom - safeTop -> y + blockH <= safeBottom + allowance)
  /\ (safeBottom - safeTop < blockH -> y <= safeTop + allowance)
  /\ (y = safeTop
      \/ y = safeBottom ⊖ blockH
      \/ (y = contentY ⊖ blockH ⊘ 2 /\ y ⊕ blockH <= safeBottom)).
Proof.
  intros Hb Hs. cbv zeta. unfold Generator64.computeSafeStartY. cbv zeta.
  set (a := contentY ⊖ blockH ⊘ 2).
  pose proof (Qabs_nonneg safeBottom) as HA.
  pose proof (Qabs_sub_le safeBottom blockH Hb) as HT.
  destruct (fl_error (safeBottom - blockH)) as [Hr1 Hr2].
  fold (safeBottom ⊖ blockH) in Hr1, Hr2.
  assert (Hend : forall y1, y1 ⊕ blockH <= safeBottom ->
                   y1 + blockH <= safeBottom + 2 * eps * Qabs safeBottom).
  { intros y1 H. by apply fl_le_inv. }
  set (T := Qabs (safeBottom - blockH)) in *. set (A := Qabs safeBottom) in *.
  set (r := safeBottom ⊖ blockH) in *. clearbody T A r.
  unfold eps in *.
  destruct (ltb_cases a safeTop) as [[-> H1]|[-> H1]].
  - destruct (ltb_cases safeBottom (safeTop ⊕ blockH)) as [[-> H2]|[-> H2]].
    + destruct (ltb_cases r safeTop) as [[-> H3]|[-> H3]].
      * split; [lra|]. split; [intros; lra|]. split; [intros; lra|]. by left.
      * split; [lra|]. split; [intros; lra|]. split; [intros; lra|].
        right. by left.
    + specialize (Hend safeTop H2).
      destruct (ltb_cases safeTop safeTop) as [[-> H3]|[-> H3]];
        (split; [lra|]; split; [intros; lra|]; split; [intros; lra|]; by left).
  - destruct (ltb_cases safeBottom (a ⊕ blockH)) as [[-> H2]|[-> H2]].
    + destruct (ltb_cases r safeTop) as [[-> H3]|[-> H3]].
      * split; [lra|]. split; [intros; lra|]. split; [intros; lra|]. by left.
      * split; [lra|]. split; [intros; lra|]. split; [intros; lra|].
        right. by left.
    + specialize (Hend a H2).
      destruct (ltb_cases a safeTop) as [[-> H3]|[-> H3]]; [lra|].
      split; [lra|]. split; [intros; lra|]. split; [intros; lra|].
      right. right. done.
Qed.

(** C4, as the code has it.  The arithmetic of [computeSafeStartY] is that
    of binary64.  With [blockH >= 0] and [safeTop <= safeBottom] the start
    [y] is never less than [safeTop]; a block no taller than the safe zone
    ends at most a rounding allowance beyond [safeBottom], and a taller
    block starts at most that allowance beyond [safeTop]; the allowance is
    [2^-52] times the sum of the absolute value of [safeBottom] and
    [blockH].  The start is [safeTop], or the rounded difference of
    [safeBottom] and [blockH], or the centred start, whose rounded end is
    then not beyond [safeBottom]. *)
Theorem computeSafeStartY_contained contentY blockH safeTop safeBottom :
  0 <= blockH ->
  safeTop <= safeBottom ->
  let y := Generator64.computeSafeStartY contentY blockH safeTop safeBottom in
  let allowance := 2 * eps * (Qabs safeBottom + blockH) in
  safeTop <= y
  /\ (blockH <= safeBottom - safeTop -> y + blockH <= safeBottom + allowance)
  /\ (safeBottom - safeTop < blockH -> y <= safeTop + allowance)
  /\ (y = safeTop
      \/ y = safeBottom ⊖ blockH
      \/ (y = contentY ⊖ blockH ⊘ 2 /\ y ⊕ blockH <= safeBottom)).
Proof. apply computeSafeStartY64_bounds. Qed.

(** C4 at the sizes of a square card: a 100 pixel block anchored at 540
    between the margins 97.2 and 982.8. *)
Lemma computeSafeStartY_contained_witness :
  let y := Generator64.computeSafeStartY 540 100 (lit 97.2) (lit 982.8) in
  0 <= 100
  /\ lit 97.2 <= lit 982.8
  /\ lit 97.2 <= y
  /\ y == 490.
Proof.
  cbv zeta. split; [discriminate|]. split; [by vm_compute|].
  split.
  - apply (computeSafeStartY_contained 540 100 (lit 97.2) (lit 982.8));
      by vm_compute.
  - by vm_compute.
Defined.

(** C4, as the claim states it, fails in the arithmetic of the code.  A
    block 172.6 high anchored at 1033.49 between 77.8 and 503.7 fits the
    safe zone and is started at 331.1, where it ends beyond 503.7: the
    difference [503.7 - 172.6] was rounded up.  A block 616 high anchored
    at 357.8 between 49.8 and 665.8 is taller than the zone and is not
    started at 49.8. *)
Lemma computeSafeStartY_rounding_overshoots :
  let y := Generator64.computeSafeStartY (lit 1033.49) (lit 172.6) (lit 77.8)
             (lit 503.7) in
  let y' := Generator64.computeSafeStartY (lit 357.8) 616 (lit 49.8) (lit 665.8) in
  0 <= lit 172.6
  /\ lit 77.8 <= lit 503.7
  /\ lit 172.6 <= lit 503.7 - lit 77.8
  /\ y == lit 331.1
  /\ lit 503.7 < y + lit 172.6
  /\ lit 503.7 < y ⊕ lit 172.6
  /\ lit 49.8 <= lit 665.8
  /\ lit 665.8 - lit 49.8 < 616
  /\ ~ y' == lit 49.8.
Proof.
  cbv zeta. repeat split; by vm_compute.
Qed.

(** ** Drawing actions *)

Lemma fillTexts_app l1 l2 : fillTexts (l1 ++ l2) = fillTexts l1 ++ fillTexts l2.
Proof. apply List.filter_app. Qed.

Lemma quiet_steady {A} (m : Draw A) : quiet m -> steady m.
Proof.
  intros H c. destruct (H c) as (Hw & Hh & cmds & Hl & _). eauto.
Qed.

Lemma quiet_ret {A} (x : A) : quiet (mret x).
Proof.
  intros c. repeat split. exists []. by rewrite List.app_nil_r.
Qed.

Lemma quiet_read {A} (f : Ctx -> A) : quiet (fun c => (f c, c)).
Proof.
  intros c. repeat split. exists []. by rewrite List.app_nil_r.
Qed.

Lemma quiet_bind {A B} (m : Draw A) (k : A -> Draw B) :
  quiet m -> (forall a, quiet (k a)) -> quiet (m ≫= k).
Proof.
  intros Hm Hk c. unfold mbind, draw_bind.
  destruct (Hm c) as (Hw & Hh & l1 & Hl1 & Hf1).
  destruct (m c) as [a c1]. cbn [snd] in *.
  destruct (Hk a c1) as (Hw2 & Hh2 & l2 & Hl2 & Hf2).
  split; [congruence|]. split; [congruence|].
  exists (l1 ++ l2). split.
  - by rewrite Hl2, Hl1, <- List.app_assoc.
  - by rewrite fillTexts_app, Hf1, Hf2.
Qed.

Lemma steady_ret {A} (x : A) : steady (mret x).
Proof. apply quiet_steady, quiet_ret. Qed.

Lemma steady_bind {A B} (m : Draw A) (k : A -> Draw B) :
  steady m -> (forall a, steady (k a)) -> steady (m ≫= k).
Proof.
  intros Hm Hk c. unfold mbind, draw_bind.
  destruct (Hm c) as (Hw & Hh & l1 & Hl1).
  destruct (m c) as [a c1]. cbn [snd] in *.
  destruct (Hk a c1) as (Hw2 & Hh2 & l2 & Hl2).
  split; [congruence|]. split; [congruence|].
  exists (l1 ++ l2). by rewrite Hl2, Hl1, <- List.app_assoc.
Qed.

Lemma steady_emit cmd : steady (emit cmd).
Proof. intros c. repeat split. by exists [cmd]. Qed.

Lemma quiet_emit cmd : is_fillText cmd = false -> quiet (emit cmd).
Proof.
  intros H c. repeat split. exists [cmd]. split; [done|].
  unfold fillTexts. simpl. by rewrite H.
Qed.

Lemma quiet_save : quiet save.
Proof. intros c. repeat split. by exists [Save]. Qed.

Lemma quiet_restore : quiet restore.
Proof.
  intros c. unfold restore. destruct (saved c) as [|[a f] rest].
  - by apply quiet_emit.
  - repeat split. by exists [Restore].
Qed.

Lemma quiet_getGlobalAlpha : quiet getGlobalAlpha.
Proof. apply quiet_read. Qed.

Lemma quiet_setGlobalAlpha a : quiet (setGlobalAlpha a).
Proof.
  intros c. unfold setGlobalAlpha. destruct (leb 0 a && leb a 1)%bool.
  - repeat split. by exists [SetGlobalAlpha a].
  - by apply (quiet_ret tt).
Qed.

Lemma quiet_setFont f : quiet (setFont f).
Proof. intros c. repeat split. by exists [SetFont f]. Qed.

Lemma quiet_getImageData h x y w ht : quiet (getImageData h x y w ht).
Proof. apply quiet_read. Qed.

Lemma quiet_for_each {A} (l : list A) (body : A -> Draw unit) :
  (forall x, quiet (body x)) -> quiet (for_each l body).
Proof.
  intros Hbody. induction l as [|x l IH]; simpl.
  - apply quiet_ret.
  - apply quiet_bind; [apply Hbody | done].
Qed.

(** One step in showing an action quiet. *)
Ltac quiet_step :=
  lazymatch goal with
  | |- quiet (mret _) => apply quiet_ret
  | |- quiet (_ ≫= _) => apply quiet_bind; [|intros ?]
  | |- quiet (emit _) => apply quiet_emit; reflexivity
  | |- quiet save => apply quiet_save
  | |- quiet restore => apply quiet_restore
  | |- quiet getGlobalAlpha => apply quiet_getGlobalAlpha
  | |- quiet (setGlobalAlpha _) => apply quiet_setGlobalAlpha
  | |- quiet (setFont _) => apply quiet_setFont
  | |- quiet (getImageData _ _ _ _ _) => apply quiet_getImageData
  | |- quiet (for_each _ _) => apply quiet_for_each; intros ?
  | |- quiet (match ?x with _ => _ end) => destruct x
  end.

Ltac quiet_auto := cbv zeta; repeat quiet_step.

Lemma quiet_roundedRectPath x y w ht r : quiet (roundedRectPath x y w ht r).
Proof. unfold roundedRectPath. quiet_auto. Qed.

Lemma quiet_addGrain h w ht amount seed : quiet (addGrain h w ht amount seed).
Proof. unfold addGrain. quiet_auto. Qed.

Lemma quiet_sampleAverageRgb h x y w ht : quiet (sampleAverageRgb h x y w ht).
Proof. unfold sampleAverageRgb. quiet_auto. Qed.

Lemma quiet_chooseTextColors h w ht palette :
  quiet (chooseTextColors h w ht palette).
Proof.
  unfold chooseTextColors. cbv zeta.
  apply quiet_bind; [apply quiet_sampleAverageRgb | intros avg; apply quiet_ret].
Qed.

Lemma quiet_scaleGlobalAlpha k : quiet (scaleGlobalAlpha k).
Proof. unfold scaleGlobalAlpha. quiet_auto. Qed.

(** One step for an action built from the helpers, by the name at its
    head. *)
Ltac quiet_helper :=
  lazymatch goal with
  | |- quiet (scaleGlobalAlpha _) => apply quiet_scaleGlobalAlpha
  | |- quiet (roundedRectPath _ _ _ _ _) => apply quiet_roundedRectPath
  | |- quiet (addGrain _ _ _ _ _) => apply quiet_addGrain
  | |- quiet (chooseTextColors _ _ _ _) => apply quiet_chooseTextColors
  | |- _ => quiet_step
  end.

Lemma quiet_drawTinyHeart h x y size s : quiet (drawTinyHeart h x y size s).
Proof. unfold drawTinyHeart. cbv zeta. repeat quiet_helper. Qed.

Lemma quiet_drawTinyStar h x y size s : quiet (drawTinyStar h x y size s).
Proof. unfold drawTinyStar. cbv zeta. repeat quiet_helper. Qed.

Lemma quiet_drawDoodles h w ht color seed : quiet (drawDoodles h w ht color seed).
Proof.
  unfold drawDoodles. cbv zeta.
  repeat lazymatch goal with
         | |- quiet (drawTinyHeart _ _ _ _ _) => apply quiet_drawTinyHeart
         | |- quiet (drawTinyStar _ _ _ _ _) => apply quiet_drawTinyStar
         | |- _ => quiet_helper
         end.
Qed.

Lemma quiet_drawBackground h w ht palette gradient bgType seed :
  quiet (drawBackground h w ht palette gradient bgType seed).
Proof. unfold drawBackground. cbv zeta. repeat quiet_helper. Qed.

(** One step for the blocks of [renderCard]. *)
Ltac quiet_block :=
  lazymatch goal with
  | |- quiet (drawBackground _ _ _ _ _ _ _) => apply quiet_drawBackground
  | |- quiet (drawDoodles _ _ _ _ _) => apply quiet_drawDoodles
  | |- _ => quiet_helper
  end.



Lemma quiet_generator_backdrop h p w ht radius design :
  quiet (Generator.backdrop h p w ht radius design).
Proof. unfold Generator.backdrop. cbv zeta. repeat quiet_block. Qed.

Lemma quiet_generator_layoutAccents h w ht pad palette layout :
  quiet (Generator.layoutAccents h w ht pad palette layout).
Proof. unfold Generator.layoutAccents. quiet_auto. Qed.

Lemma steady_setFont f : steady (setFont f).
Proof. apply quiet_steady, quiet_setFont. Qed.

Lemma steady_fillLines textLines x y qLine : steady (fillLines textLines x y qLine).
Proof.
  revert y. induction textLines as [|l rest IH]; intros y; simpl.
  - apply steady_ret.
  - apply steady_bind; [apply steady_emit | intros _; apply IH].
Qed.

(** One step in showing an action steady. *)
Ltac steady_step :=
  lazymatch goal with
  | |- steady (mret _) => apply steady_ret
  | |- steady (_ ≫= _) => apply steady_bind; [|intros ?]
  | |- steady (emit _) => apply steady_emit
  | |- steady (setFont _) => apply steady_setFont
  | |- steady restore => apply quiet_steady, quiet_restore
  | |- steady (fillLines _ _ _ _) => apply steady_fillLines
  | |- steady (chooseTextColors _ _ _ _) =>
      apply quiet_steady, quiet_chooseTextColors
  | |- steady (fun c => (_, c)) => apply quiet_steady, quiet_read
  | |- steady (match ?x with _ => _ end) => destruct x
  end.

Lemma steady_generator_drawText h p w ht quote author design lay :
  steady (Generator.drawText h p w ht quote author design lay).
Proof. unfold Generator.drawText. cbv zeta. repeat steady_step. Qed.

(** ** [chooseTextColors] *)

Lemma chooseTextColors_dark_result h w ht palette c :
  relLuma h (sampleAverageRgb h (w * 0.22) (ht * 0.3) (w * 0.56) (ht * 0.4) c).1
    <= 0.55 ->
  (chooseTextColors h w ht palette c).1
  = {| TextColors.quoteColor := "#FFFFFF";
       TextColors.authorColor := "rgba(255,255,255,0.85)" |}.
Proof.
  intros HL. unfold chooseTextColors. cbv zeta. unfold mbind, draw_bind.
  destruct (sampleAverageRgb h _ _ _ _ c) as [avg c1]. cbn [fst] in HL.
  apply ltb_ge in HL. by rewrite HL.
Qed.



(** On a dark background the author colour does not depend on the
    palette, so the accent is not what is returned. *)
Lemma chooseTextColors_dark_ignores_palette h w ht p1 p2 c :
  relLuma h (sampleAverageRgb h (w * 0.22) (ht * 0.3) (w * 0.56) (ht * 0.4) c).1
    <= 0.55 ->
  (chooseTextColors h w ht p1 c).1 = (chooseTextColors h w ht p2 c).1.
Proof.
  intros HL. by rewrite !chooseTextColors_dark_result.
Qed.

(** On a light background with an accent of enough contrast the accent is
    the author colour. *)
Example chooseTextColors_light_accent :
  (chooseTextColors (plain_host 255) 1080 1080
     (Generator.mkPalette "#FFF5F5" "#2D3748" "#E53E3E") (resize 1080 1080)).1
  = {| TextColors.quoteColor := "#111827"; TextColors.authorColor := "#E53E3E" |}.
Proof. vm_compute. reflexivity. Qed.

(** ** The size of a generated card *)

Lemma steady_generator_render h p w ht radius padding quote author design :
  steady (Generator.backdrop h p w ht radius design ;;
          lay ← Generator.layoutAccents h w ht padding
                   (Generator.Design.palette design)
                   (Generator.Design.layout design);
          Generator.drawText h p w ht quote author design lay ;; restore).
Proof.
  apply steady_bind; [apply quiet_steady, quiet_generator_backdrop | intros _].
  apply steady_bind; [apply quiet_steady, quiet_generator_layoutAccents|].
  intros lay. apply steady_bind; [apply steady_generator_drawText|].
  intros _. apply quiet_steady, quiet_restore.
Qed.

Lemma renderCard_canvas_size h p canvas quote author design format radius so :
  let out := Generator.renderCard h p canvas quote author design format radius so in
  let width := Generator.requestedWidth format so in
  let blockH := Generator.measuredBlockH h p width quote author design in
  Canvas.width out = width
  /\ Canvas.height out
     = Qmax (Generator.requestedHeight format so)
         (Generator.ceil (blockH + paddingMargin width)).
Proof.
  cbv zeta. unfold Generator.renderCard. cbv zeta.
  destruct (steady_generator_render h p
              (Generator.requestedWidth format so)
              (Qmax (Generator.requestedHeight format so)
                 (Generator.ceil
                    (Generator.measuredBlockH h p
                       (Generator.requestedWidth format so) quote author design
                     + Generator.requestedWidth format so * 0.1 * 2.6)))
              radius (Generator.requestedWidth format so * 0.1)
              quote author design
              (resize (Generator.requestedWidth format so)
                 (Qmax (Generator.requestedHeight format so)
                    (Generator.ceil
                       (Generator.measuredBlockH h p
                          (Generator.requestedWidth format so) quote author design
                        + Generator.requestedWidth format so * 0.1 * 2.6)))))
    as (Hw & Hh & _).
  split; [exact Hw | exact Hh].
Qed.

Lemma requestedWidth_min format so :
  1080 <= Generator.requestedWidth format so.
Proof.
  unfold Generator.requestedWidth. cbv zeta.
  eapply Qle_trans; [|apply Q.le_max_l]. by destruct format.
Qed.

(** ** Unknown background and layout tags *)

Lemma not_in_eqb (s : string) (l : list string) (x : string) :
  ~ In s l -> In x l -> String.eqb s x = false.
Proof.
  intros Hs Hx. apply String.eqb_neq. intros ->. by apply Hs.
Qed.

Lemma drawBackground_unknown h w ht palette gradient bgType seed :
  ~ In bgType recognized_bgTypes ->
  drawBackground h w ht palette gradient bgType seed
  = (emit (SetFillStyle (Css (Palette.bg palette))) ;; emit (FillRect 0 0 w ht)).
Proof.
  intros Hbg. unfold drawBackground.
  rewrite !(not_in_eqb bgType recognized_bgTypes) by (done || (simpl; tauto)).
  reflexivity.
Qed.

Lemma layoutAccents_unknown h w ht pad palette layout :
  ~ In layout recognized_layouts ->
  Generator.layoutAccents h w ht pad palette layout = mret (centered w ht pad).
Proof.
  intros Hl. unfold Generator.layoutAccents. cbv zeta.
  rewrite !(not_in_eqb layout recognized_layouts) by (done || (simpl; tauto)).
  reflexivity.
Qed.

Lemma bind_run {A B} (m : Draw A) (k : A -> Draw B) c :
  (m ≫= k) c = k (m c).1 (m c).2.
Proof. unfold mbind, draw_bind. by destruct (m c). Qed.

Lemma log_emit cmd c : log (emit cmd c).2 = log c ++ [cmd].
Proof. done. Qed.

Lemma steady_generator_body h p w ht padding quote author design :
  steady (lay ← Generator.layoutAccents h w ht padding
                   (Generator.Design.palette design)
                   (Generator.Design.layout design);
          Generator.drawText h p w ht quote author design lay ;; restore).
Proof.
  apply steady_bind; [apply quiet_steady, quiet_generator_layoutAccents|].
  intros lay. apply steady_bind; [apply steady_generator_drawText|].
  intros _. apply quiet_steady, quiet_restore.
Qed.

(** The history of a rendered card: the clip, the background, then the
    rest. *)
Lemma renderCard_log_unknown_bg h p canvas quote author design format radius so :
  ~ In (Generator.Design.bgType design) recognized_bgTypes ->
  let out := Generator.renderCard h p canvas quote author design format radius so in
  exists clip rest,
    log out
    = clip
        ++ solid_fill (Canvas.width out) (Canvas.height out)
             (Palette.bg (Generator.Design.palette design))
        ++ rest.
Proof.
  intros Hbg out. subst out. unfold Generator.renderCard. cbv zeta.
  set (W := Generator.requestedWidth format so).
  set (H := Qmax _ _).
  rewrite bind_run.
  destruct (steady_generator_body h p W H (W * 0.1) quote author design
              (Generator.backdrop h p W H radius design (resize W H)).2)
    as (Hw & Hh & rest & Hrest).
  rewrite Hrest, Hw, Hh.
  unfold Generator.backdrop. cbv zeta.
  rewrite drawBackground_unknown by done.
  rewrite !bind_run.
  set (c1 := (emit Clip _).2).
  set (c2 := (emit (FillRect 0 0 W H) _).2).
  assert (Hc2 : log c2 = log c1 ++ solid_fill W H
                  (Palette.bg (Generator.Design.palette design))
                /\ Canvas.width c2 = W /\ Canvas.height c2 = H).
  { subst c2 c1. cbn. rewrite <- !List.app_assoc. done. }
  destruct Hc2 as (Hlog2 & Hw2 & Hh2).
  destruct (negb (String.eqb (Generator.Page.stylePack p) "minimal")).
  - destruct (quiet_drawDoodles h W H
                (if String.eqb (Generator.Design.bgType design) "dark"
                 then "rgba(255,255,255,1)"
                 else Palette.accent (Generator.Design.palette design))
                (Generator.Design.seed design + 999) c2)
      as (Hw3 & Hh3 & doodles & Hlog3 & _).
    rewrite Hw3, Hh3, Hlog3, Hw2, Hh2, Hlog2.
    exists (log c1), (doodles ++ rest). by rewrite <- !List.app_assoc.
  - cbn [mret draw_ret snd]. rewrite Hw2, Hh2, Hlog2.
    exists (log c1), rest. by rewrite <- !List.app_assoc.
Qed.

(** With an unknown layout tag the text block is drawn for the centred
    layout, right after the backdrop. *)
Lemma renderCard_unknown_layout h p canvas quote author design format radius so :
  ~ In (Generator.Design.layout design) recognized_layouts ->
  let out := Generator.renderCard h p canvas quote author design format radius so in
  let W := Canvas.width out in
  let H := Canvas.height out in
  out
  = ((Generator.backdrop h p W H radius design ;;
      Generator.drawText h p W H quote author design (centered W H (W * 0.1)) ;;
      restore) (resize W H)).2.
Proof.
  intros Hlay. cbv zeta.
  destruct (renderCard_canvas_size h p canvas quote author design format radius so)
    as [Hw Hh].
  cbv zeta in Hw, Hh. rewrite Hw, Hh.
  unfold Generator.renderCard. cbv zeta.
  rewrite layoutAccents_unknown by done. reflexivity.
Qed.

(** C8.  A design whose background tag is none of the recognized kinds
    gets a solid fill in the background colour of its palette, which is
    what its rendering holds after the clip; a layout tag that is none of
    the recognized layouts gives the centred layout (centre alignment,
    anchor at 52% of the height, line width of the card less twice the
    padding) and draws nothing, so that the text block follows the
    backdrop at once.  [renderCard] is a total function: it returns a
    canvas for every tag. *)
Theorem unknown_tags_fall_back h p canvas quote author design format radius so :
  ~ In (Generator.Design.bgType design) recognized_bgTypes ->
  ~ In (Generator.Design.layout design) recognized_layouts ->
  let out := Generator.renderCard h p canvas quote author design format radius so in
  (forall w ht seed,
     drawBackground h w ht (Generator.Design.palette design)
       (Generator.Design.gradient design) (Generator.Design.bgType design) seed
     = (emit (SetFillStyle (Css (Palette.bg (Generator.Design.palette design)))) ;;
        emit (FillRect 0 0 w ht)))
  /\ (forall w ht padding,
        Generator.layoutAccents h w ht padding (Generator.Design.palette design)
          (Generator.Design.layout design)
        = mret (centered w ht padding))
  /\ (exists clip rest,
        log out
        = clip
            ++ solid_fill (Canvas.width out) (Canvas.height out)
                 (Palette.bg (Generator.Design.palette design))
            ++ rest)
  /\ out
     = ((Generator.backdrop h p (Canvas.width out) (Canvas.height out) radius
           design ;;
         Generator.drawText h p (Canvas.width out) (Canvas.height out) quote
           author design
           (centered (Canvas.width out) (Canvas.height out)
              (Canvas.width out * 0.1)) ;;
         restore) (resize (Canvas.width out) (Canvas.height out))).2.
Proof.
  intros Hbg Hlay out. split; [|split; [|split]].
  - intros. by apply drawBackground_unknown.
  - intros. by apply layoutAccents_unknown.
  - by apply renderCard_log_unknown_bg.
  - by apply renderCard_unknown_layout.
Qed.

(** C8 for the background [solid] and the layout [side-stripe], which the
    style packs offer and [renderCard] does not test for. *)
Lemma unknown_tags_fall_back_witness :
  let design :=
    {| Generator.Design.palette := Generator.mkPalette "#FFF5F5" "#2D3748" "#E53E3E";
       Generator.Design.gradient := ("#667eea", "#764ba2");
       Generator.Design.font := Generator.mkFont "Georgia, serif";
       Generator.Design.bgType := "solid";
       Generator.Design.layout := "side-stripe";
       Generator.Design.seed := 47 |} in
  let h := plain_host 255 in
  let p := default_page "bold" in
  let out :=
    Generator.renderCard h p (resize 300 150) "Thank you" "Jane" design
      Generator.square 26 None in
  ~ In "solid" recognized_bgTypes
  /\ ~ In "side-stripe" recognized_layouts
  /\ (forall w ht seed,
        drawBackground h w ht (Generator.Design.palette design)
          (Generator.Design.gradient design) "solid" seed
        = (emit (SetFillStyle (Css "#FFF5F5")) ;; emit (FillRect 0 0 w ht)))
  /\ (forall w ht padding,
        Generator.layoutAccents h w ht padding (Generator.Design.palette design)
          "side-stripe"
        = mret (centered w ht padding))
  /\ (exists clip rest,
        log out
        = clip ++ solid_fill (Canvas.width out) (Canvas.height out) "#FFF5F5"
            ++ rest)
  /\ out
     = ((Generator.backdrop h p (Canvas.width out) (Canvas.height out) 26
           design ;;
         Generator.drawText h p (Canvas.width out) (Canvas.height out)
           "Thank you" "Jane" design
           (centered (Canvas.width out) (Canvas.height out)
              (Canvas.width out * 0.1)) ;;
         restore) (resize (Canvas.width out) (Canvas.height out))).2.
Proof.
  cbv zeta.
  assert (Hbg : ~ In "solid" recognized_bgTypes).
  { simpl. intros H. repeat (destruct H as [H|H]; [discriminate|]). exact H. }
  assert (Hlay : ~ In "side-stripe" recognized_layouts).
  { simpl. intros H. repeat (destruct H as [H|H]; [discriminate|]). exact H. }
  split; [exact Hbg|]. split; [exact Hlay|].
  exact (unknown_tags_fall_back (plain_host 255) (default_page "bold")
           (resize 300 150) "Thank you" "Jane"
           {| Generator.Design.palette :=
                Generator.mkPalette "#FFF5F5" "#2D3748" "#E53E3E";
              Generator.Design.gradient := ("#667eea", "#764ba2");
              Generator.Design.font := Generator.mkFont "Georgia, serif";
              Generator.Design.bgType := "solid";
              Generator.Design.layout := "side-stripe";
              Generator.Design.seed := 47 |}
           Generator.square 26 None Hbg Hlay).
Defined.

(** ** A card without quote text *)


Lemma log_restore c : log (restore c).2 = log c ++ [Restore].
Proof. unfold restore. by destruct (saved c) as [|[a f] rest]. Qed.

Lemma log_setFont f c : log (setFont f c).2 = log c ++ [SetFont f].
Proof. done. Qed.











(** ** The renderer in binary64 *)

Lemma quiet64_roundedRectPath x y w ht r :
  quiet (Helpers64.roundedRectPath x y w ht r).
Proof. unfold Helpers64.roundedRectPath. quiet_auto. Qed.

Lemma quiet64_addGrain h w ht amount seed :
  quiet (Helpers64.addGrain h w ht amount seed).
Proof. unfold Helpers64.addGrain. quiet_auto. Qed.

Lemma quiet64_sampleAverageRgb h x y w ht :
  quiet (Helpers64.sampleAverageRgb h x y w ht).
Proof. unfold Helpers64.sampleAverageRgb. quiet_auto. Qed.

Lemma quiet64_chooseTextColors h w ht palette :
  quiet (Helpers64.chooseTextColors h w ht palette).
Proof.
  unfold Helpers64.chooseTextColors. cbv zeta.
  apply quiet_bind; [apply quiet64_sampleAverageRgb | intros avg; apply quiet_ret].
Qed.

Lemma quiet64_scaleGlobalAlpha k : quiet (Helpers64.scaleGlobalAlpha k).
Proof. unfold Helpers64.scaleGlobalAlpha. quiet_auto. Qed.

(** One step for an action built from the helpers in binary64. *)
Ltac quiet64_helper :=
  lazymatch goal with
  | |- quiet (Helpers64.scaleGlobalAlpha _) => apply quiet64_scaleGlobalAlpha
  | |- quiet (Helpers64.roundedRectPath _ _ _ _ _) => apply quiet64_roundedRectPath
  | |- quiet (Helpers64.addGrain _ _ _ _ _) => apply quiet64_addGrain
  | |- quiet (Helpers64.chooseTextColors _ _ _ _) => apply quiet64_chooseTextColors
  | |- _ => quiet_step
  end.

Lemma quiet64_drawTinyHeart h x y size s :
  quiet (Helpers64.drawTinyHeart h x y size s).
Proof. unfold Helpers64.drawTinyHeart. cbv zeta. repeat quiet64_helper. Qed.

Lemma quiet64_drawTinyStar h x y size s :
  quiet (Helpers64.drawTinyStar h x y size s).
Proof. unfold Helpers64.drawTinyStar. cbv zeta. repeat quiet64_helper. Qed.

Lemma quiet64_drawDoodles h w ht color seed :
  quiet (Helpers64.drawDoodles h w ht color seed).
Proof.
  unfold Helpers64.drawDoodles. cbv zeta.
  repeat lazymatch goal with
         | |- quiet (Helpers64.drawTinyHeart _ _ _ _ _) =>
             apply quiet64_drawTinyHeart
         | |- quiet (Helpers64.drawTinyStar _ _ _ _ _) =>
             apply quiet64_drawTinyStar
         | |- _ => quiet64_helper
         end.
Qed.

Lemma quiet64_drawBackground h w ht palette gradient bgType seed :
  quiet (Helpers64.drawBackground h w ht palette gradient bgType seed).
Proof. unfold Helpers64.drawBackground. cbv zeta. repeat quiet64_helper. Qed.

Lemma quiet64_backdrop h p w ht radius design :
  quiet (Generator64.backdrop h p w ht radius design).
Proof.
  unfold Generator64.backdrop. cbv zeta.
  repeat lazymatch goal with
         | |- quiet (Helpers64.drawBackground _ _ _ _ _ _ _) =>
             apply quiet64_drawBackground
         | |- quiet (Helpers64.drawDoodles _ _ _ _ _) => apply quiet64_drawDoodles
         | |- _ => quiet64_helper
         end.
Qed.

Lemma quiet64_layoutAccents h w ht pad palette layout :
  quiet (Generator64.layoutAccents h w ht pad palette layout).
Proof. unfold Generator64.layoutAccents. quiet_auto. Qed.

Lemma fillLines64_run lines x qLine :
  forall y c,
    (Helpers64.fillLines lines x y qLine c).1 = Block64.after_rows lines y qLine
    /\ log (Helpers64.fillLines lines x y qLine c).2
       = log c ++ Block64.text_rows lines x y qLine
    /\ Canvas.width (Helpers64.fillLines lines x y qLine c).2 = Canvas.width c
    /\ Canvas.height (Helpers64.fillLines lines x y qLine c).2 = Canvas.height c.
Proof.
  induction lines as [|line rest IH]; intros y c.
  - cbn. by rewrite List.app_nil_r.
  - cbn [Helpers64.fillLines Block64.text_rows Block64.after_rows].
    rewrite bind_run.
    destruct (IH (y ⊕ qLine) (emit (FillText line x y) c).2) as (H1 & H2 & H3 & H4).
    rewrite H1, H2, H3, H4, log_emit. cbn. by rewrite <- List.app_assoc.
Qed.

Lemma steady64_fillLines textLines x y qLine :
  steady (Helpers64.fillLines textLines x y qLine).
Proof.
  intros c. destruct (fillLines64_run textLines x qLine y c) as (_ & Hl & Hw & Hh).
  split; [done|]. split; [done|]. by eexists.
Qed.

Lemma steady64_drawText h p w ht quote author design lay :
  steady (Generator64.drawText h p w ht quote author design lay).
Proof.
  unfold Generator64.drawText. cbv zeta.
  repeat lazymatch goal with
         | |- steady (Helpers64.fillLines _ _ _ _) => apply steady64_fillLines
         | |- steady (Helpers64.chooseTextColors _ _ _ _) =>
             apply quiet_steady, quiet64_chooseTextColors
         | |- _ => steady_step
         end.
Qed.

Lemma steady64_render h p w ht radius padding quote author design :
  steady (Generator64.backdrop h p w ht radius design ;;
          lay ← Generator64.layoutAccents h w ht padding
                   (Generator.Design.palette design)
                   (Generator.Design.layout design);
          Generator64.drawText h p w ht quote author design lay ;; restore).
Proof.
  apply steady_bind; [apply quiet_steady, quiet64_backdrop | intros _].
  apply steady_bind; [apply quiet_steady, quiet64_layoutAccents|].
  intros lay. apply steady_bind; [apply steady64_drawText|].
  intros _. apply quiet_steady, quiet_restore.
Qed.

(** The size of the canvas [renderCard] leaves. *)
Lemma renderCard64_canvas_size h p canvas quote author design format radius so :
  let out :=
    Generator64.renderCard h p canvas quote author design format radius so in
  let width := Generator.requestedWidth format so in
  let blockH := Generator64.measuredBlockH h p width quote author design in
  Canvas.width out = width
  /\ Canvas.height out
     = Qmax (Generator.requestedHeight format so)
         (Generator.ceil (blockH ⊕ Block64.paddingMargin width)).
Proof.
  cbv zeta. unfold Generator64.renderCard. cbv zeta.
  fold (Block64.paddingMargin (Generator.requestedWidth format so)).
  set (W := Generator.requestedWidth format so).
  set (H := Qmax _ _).
  destruct (steady64_render h p W H radius (W ⊗ lit 0.1) quote author design
              (resize W H)) as (Hw & Hh & _).
  split; [exact Hw | exact Hh].
Qed.

Lemma ceil_bounds x : x <= Generator.ceil x /\ Generator.ceil x < x + 1.
Proof.
  unfold Generator.ceil. split; [apply Qle_ceiling|].
  pose proof (Qceiling_lt x) as H.
  unfold Z.sub in H. rewrite inject_Z_plus, inject_Z_opp in H.
  change (inject_Z 1) with 1 in H.
  generalize dependent (inject_Z (Qceiling x)). intros; lra.
Qed.

Lemma grown_height_bounds height needed :
  height <= Qmax height (Generator.ceil needed)
  /\ needed <= Qmax height (Generator.ceil needed)
  /\ Qmax height (Generator.ceil needed) < Qmax height needed + 1.
Proof.
  destruct (ceil_bounds needed) as [Hc1 Hc2].
  generalize dependent (Generator.ceil needed). intros c Hc1 Hc2.
  split; [apply Q.le_max_l|].
  split; [eapply Qle_trans; [exact Hc1 | apply Q.le_max_r]|].
  destruct (Q.max_spec height c) as [[H1 ->]|[H1 ->]];
    destruct (Q.max_spec height needed) as [[H2 ->]|[H2 ->]]; lra.
Qed.

(** C7, as the code has it.  The canvas [renderCard] of the generator
    leaves has the requested width.  Its height is the larger of the
    requested height and the sum of the measured height of the text block
    and the padding margin, that sum being the one the code computes in
    binary64, rounded up to a whole number of pixels: the height is at
    least the requested height and at least the computed sum, and less
    than one pixel above the larger of the two. *)
Theorem renderCard_grows_height_only
  h p canvas quote author design format radius so :
  let out :=
    Generator64.renderCard h p canvas quote author design format radius so in
  let width := Generator.requestedWidth format so in
  let height := Generator.requestedHeight format so in
  let blockH := Generator64.measuredBlockH h p width quote author design in
  let needed := blockH ⊕ Block64.paddingMargin width in
  Canvas.width out = width
  /\ Canvas.height out = Qmax height (Generator.ceil needed)
  /\ height <= Canvas.height out
  /\ needed <= Canvas.height out
  /\ Canvas.height out < Qmax height needed + 1.
Proof.
  intros out width height blockH needed.
  destruct (renderCard64_canvas_size h p canvas quote author design format radius so)
    as [Hw Hh].
  fold out width height blockH needed in Hw, Hh.
  split; [exact Hw|]. split; [exact Hh|].
  clearbody out needed. rewrite Hh. apply grown_height_bounds.
Qed.

(** C7, as the claim states it, fails: twelve lines of 70.38 pixels and
    the margin of 280.8 make between 1125.3 and 1125.4, more than the 1080
    asked for, and the canvas is 1126 high. *)
Lemma renderCard_height_is_rounded_up :
  let h := plain_host 255 in
  let p := default_page "minimal" in
  let out :=
    Generator64.renderCard h p (resize 300 150) twelve_words "" first_design
      Generator.square 26 None in
  let blockH := Generator64.measuredBlockH h p 1080 twelve_words "" first_design in
  Generator.requestedWidth Generator.square None = 1080
  /\ Generator.requestedHeight Generator.square None = 1080
  /\ 1125.3 < blockH + Block64.paddingMargin 1080
  /\ blockH + Block64.paddingMargin 1080 < 1125.4
  /\ Canvas.height out == 1126
  /\ ~ Canvas.height out
       == Qmax (Generator.requestedHeight Generator.square None)
            (blockH + Block64.paddingMargin 1080)
  /\ ~ Canvas.height out
       == Qmax (Generator.requestedHeight Generator.square None)
            (blockH ⊕ Block64.paddingMargin 1080).
Proof.
  cbv zeta.
  split; [reflexivity|]. split; [reflexivity|].
  split; [vm_compute; reflexivity|]. split; [vm_compute; reflexivity|].
  split; [vm_compute; reflexivity|].
  split; vm_compute; discriminate.
Qed.

(** The rounding of the sum can cost a pixel.  On a landscape card with
    the quote at 75% and the author at 23%, seven lines of 82.8 pixels, the
    author and the margin make 1022 in exact arithmetic; the code computes
    a sum just above 1022, and the canvas is 1023 high. *)
Example renderCard_height_landscape :
  let h := plain_host 255 in
  let p :=
    {| Generator.Page.quoteText := "";
       Generator.Page.authorText := "";
       Generator.Page.formatSelect := Generator.landscape;
       Generator.Page.countSelect := 6;
       Generator.Page.radiusSelect := 26;
       Generator.Page.stylePack := "balanced";
       Generator.Page.liveUpdate := true;
       Generator.Page.quoteSize := 75;
       Generator.Page.authorSize := 23;
       Generator.Page.now := 1700000000000 |} in
  let quote := "wonderfulness wonderfulness wonderfulness wonderfulness wonderfulness wonderfulness wonderfulness" in
  let out :=
    Generator64.renderCard h p (resize 300 150) quote "Jane" first_design
      Generator.landscape 26 None in
  let blockH := Generator64.measuredBlockH h p 1600 quote "Jane" first_design in
  1022 < blockH ⊕ Block64.paddingMargin 1600
  /\ Canvas.height out == 1023.
Proof. cbv zeta. split; vm_compute; reflexivity. Qed.

(** ** The text block in binary64 *)

Lemma fillTexts_rows64 lines x y qLine :
  fillTexts (Block64.text_rows lines x y qLine) = Block64.text_rows lines x y qLine.
Proof.
  revert y. induction lines as [|line rest IH]; intros y; [done|].
  cbn. unfold fillTexts in IH. by rewrite IH.
Qed.

(** The layout the accents leave does not depend on the canvas. *)
Lemma layoutAccents64_value h w ht pad palette layout c c' :
  (Generator64.layoutAccents h w ht pad palette layout c).1
  = (Generator64.layoutAccents h w ht pad palette layout c').1.
Proof.
  unfold Generator64.layoutAccents. cbv zeta.
  repeat (destruct (String.eqb layout _); [try reflexivity|]); try reflexivity.
  destruct (leb w ht); reflexivity.
Qed.

(** The calls of the text block: the only [fillText] calls are the rows of
    the quote and the author. *)
Lemma drawText64_texts h p W H quote author design lay c :
  let lines :=
    Generator.wrapTextSmart (measureWidth h (Block64.quote_font p W design)) quote
      (Layout.innerMax lay) in
  let qLine := Block64.line_height p W in
  let totalH := Block64.height_of p W author (length lines) in
  let x := if String.eqb (Layout.align lay) "left"
           then Layout.contentX lay else W ⊘ 2 in
  let y := Generator64.computeSafeStartY (Layout.contentY lay) totalH
             (Block64.safe_top W) (Block64.safe_bottom W H) in
  fillTexts (log (Generator64.drawText h p W H quote author design lay c).2)
  = fillTexts (log c) ++ Block64.text_rows lines x y qLine
      ++ (if truthy (trim author)
          then [FillText author x
                  (Block64.after_rows lines y qLine ⊕ Block64.author_gap p W author)]
          else []).
Proof.
  cbv zeta. unfold Generator64.drawText. cbv zeta.
  rewrite bind_run.
  destruct (quiet64_chooseTextColors h W H (Generator.Design.palette design) c)
    as (_ & _ & l3 & Hl3 & Hf3).
  destruct (Helpers64.chooseTextColors _ _ _ _ c) as [colors c3]. cbn [fst snd] in *.
  rewrite !bind_run. cbn [fst snd].
  set (c4 := (emit (SetFillStyle _) _).2).
  change (measureText h c4) with (measureWidth h (Block64.quote_font p W design)).
  set (lines := Generator.wrapTextSmart _ quote _).
  fold (Block64.quote_px p W).
  fold (Block64.author_px p W author). fold (Block64.author_gap p W author).
  fold (Block64.author_block p W author).
  fold (Block64.line_height p W).
  fold (Block64.height_of p W author (length lines)).
  fold (Block64.safe_top W). fold (Block64.safe_bottom W H).
  set (x := if String.eqb (Layout.align lay) "left" then _ else _).
  set (y := Generator64.computeSafeStartY _ _ _ _).
  destruct (fillLines64_run lines x (Block64.line_height p W) y c4)
    as (Hy & Hlog & _ & _).
  assert (Hc4 : fillTexts (log c4) = fillTexts (log c)).
  { subst c4. repeat (rewrite log_emit || rewrite log_setFont).
    rewrite Hl3, !fillTexts_app, Hf3. cbn. by rewrite !List.app_nil_r. }
  destruct (truthy (trim author)).
  - rewrite !bind_run. cbn [fst snd].
    repeat (rewrite log_emit || rewrite log_setFont).
    rewrite Hy, Hlog, !fillTexts_app, fillTexts_rows64, Hc4. cbn.
    by rewrite <- !List.app_assoc.
  - cbn [mret draw_ret snd].
    by rewrite Hlog, !fillTexts_app, fillTexts_rows64, Hc4, List.app_nil_r.
Qed.

(** X10.  The texts a card of the generator shows, in the arithmetic of
    the code: the [fillText] calls of [renderCard] are the lines
    [wrapTextSmart] makes of the quote under the quote font, in order, one
    line height apart from the safe start, and then the author when there
    is one; the clip, the background, the doodles and the accents draw no
    text.  The font size is the floor of the rounded product of the width,
    0.05 and the quote multiplier. *)
Theorem renderCard_draws_lines h p canvas quote author design format radius so :
  let out :=
    Generator64.renderCard h p canvas quote author design format radius so in
  let W := Canvas.width out in
  let H := Canvas.height out in
  let lines := Block64.quote_lines h p W H quote design in
  let x := Block64.text_x h W H design in
  let y := Block64.text_y h p W H quote author design in
  fillTexts (log out)
  = Block64.text_rows lines x y (Block64.line_height p W)
      ++ (if truthy (trim author)
          then [FillText author x
                  (Block64.after_rows lines y (Block64.line_height p W)
                   ⊕ Block64.author_gap p W author)]
          else []).
Proof.
  cbv zeta.
  destruct (renderCard64_canvas_size h p canvas quote author design format radius so)
    as [Hw Hh].
  cbv zeta in Hw, Hh. rewrite Hw, Hh.
  unfold Generator64.renderCard. cbv zeta.
  fold (Block64.paddingMargin (Generator.requestedWidth format so)).
  set (W := Generator.requestedWidth format so).
  set (H := Qmax _ _).
  rewrite bind_run.
  destruct (quiet64_backdrop h p W H radius design (resize W H))
    as (_ & _ & l1 & Hl1 & Hf1).
  set (c1 := (Generator64.backdrop _ _ _ _ _ _ _).2) in *.
  rewrite bind_run.
  destruct (quiet64_layoutAccents h W H (W ⊗ lit 0.1)
              (Generator.Design.palette design) (Generator.Design.layout design) c1)
    as (_ & _ & l2 & Hl2 & Hf2).
  rewrite (layoutAccents64_value h W H (W ⊗ lit 0.1) _ _ c1 (resize W H)).
  fold (Block64.layout_of h W H design).
  set (c2 := (Generator64.layoutAccents _ _ _ _ _ _ c1).2) in *.
  rewrite bind_run, log_restore, fillTexts_app.
  rewrite drawText64_texts.
  rewrite Hl2, Hl1. cbn [log resize]. rewrite !fillTexts_app, Hf1, Hf2. cbn.
  by rewrite List.app_nil_r.
Qed.

(** The font the code sets at width 1800 with the quote at 70%: 62 pixels,
    where the exact product [1800 * 0.05 * 0.7] is 63. *)
Example quote_px_rounds_down :
  let p :=
    {| Generator.Page.quoteText := "";
       Generator.Page.authorText := "";
       Generator.Page.formatSelect := Generator.landscape;
       Generator.Page.countSelect := 6;
       Generator.Page.radiusSelect := 26;
       Generator.Page.stylePack := "balanced";
       Generator.Page.liveUpdate := true;
       Generator.Page.quoteSize := 70;
       Generator.Page.authorSize := 100;
       Generator.Page.now := 1700000000000 |} in
  Block64.quote_px p 1800 = 62 /\ 1800 * 0.05 * (70 / 100) == 63.
Proof. split; vm_compute; reflexivity. Qed.

(** The layouts that keep the full line width. *)
Lemma layout_of_full_width64 h W H design :
  ~ In (Generator.Design.layout design) narrow_layouts ->
  Layout.innerMax (Block64.layout_of h W H design) = W ⊖ W ⊗ lit 0.1 ⊗ 2.
Proof.
  intros Hn. unfold Block64.layout_of, Generator64.layoutAccents. cbv zeta.
  assert (Hb : String.eqb (Generator.Design.layout design) "bordered" = false).
  { apply String.eqb_neq. intros E. apply Hn. rewrite E. cbn. tauto. }
  assert (Hc : String.eqb (Generator.Design.layout design) "corner-frame" = false).
  { apply String.eqb_neq. intros E. apply Hn. rewrite E. cbn. tauto. }
  assert (Hs : String.eqb (Generator.Design.layout design) "split" = false).
  { apply String.eqb_neq. intros E. apply Hn. rewrite E. cbn. tauto. }
  rewrite Hb, Hc, Hs. clear Hb Hc Hs.
  destruct (String.eqb (Generator.Design.layout design) "left"); [reflexivity|].
  destruct (String.eqb (Generator.Design.layout design) "icon-top");
    [reflexivity|].
  destruct (String.eqb (Generator.Design.layout design) "underline");
    [reflexivity|].
  destruct (String.eqb (Generator.Design.layout design) "footer");
    [reflexivity|].
  destruct (String.eqb (Generator.Design.layout design) "diagonal");
    reflexivity.
Qed.

(** Under such a layout the block drawn is the block measured. *)
Lemma block_height_measured h p W H quote author design :
  ~ In (Generator.Design.layout design) narrow_layouts ->
  Block64.block_height h p W H quote author design
  = Generator64.measuredBlockH h p W quote author design.
Proof.
  intros Hn. unfold Block64.block_height, Block64.quote_lines.
  rewrite layout_of_full_width64 by done. reflexivity.
Qed.

Lemma num_nonneg n : 0 <= num n.
Proof.
  unfold num. change 0 with (inject_Z 0). rewrite <- Zle_Qle. lia.
Qed.

Lemma height_of_nonneg p W author n :
  0 <= W ->
  0 <= Generator.Page.quoteSize p ->
  0 <= Generator.Page.authorSize p ->
  0 <= Block64.height_of p W author n.
Proof.
  intros HW Hq Ha.
  assert (H005 : 0 <= lit 0.05) by (by vm_compute).
  assert (H034 : 0 <= lit 0.034) by (by vm_compute).
  assert (H138 : 0 <= lit 1.38) by (by vm_compute).
  assert (H06 : 0 <= lit 0.6) by (by vm_compute).
  assert (H16 : 0 <= lit 1.6) by (by vm_compute).
  assert (Hqpx : 0 <= Block64.quote_px p W).
  { unfold Block64.quote_px, Generator64.getQuoteMul.
    apply floor_nonneg, fmul_nonneg; [by apply fmul_nonneg|].
    by apply fdiv_nonneg. }
  assert (Hapx : 0 <= Block64.author_px p W author).
  { unfold Block64.author_px, Generator64.getAuthorMul.
    destruct (truthy (trim author)); [|lra].
    apply floor_nonneg, fmul_nonneg; [by apply fmul_nonneg|].
    by apply fdiv_nonneg. }
  unfold Block64.height_of, Block64.line_height, Block64.author_gap,
    Block64.author_block.
  apply fadd_nonneg; [apply fadd_nonneg|].
  - apply fmul_nonneg; [apply num_nonneg | by apply fmul_nonneg].
  - destruct (truthy (trim author)); [by apply fmul_nonneg | lra].
  - destruct (truthy (trim author)); [by apply fmul_nonneg | lra].
Qed.

(** The room auto-grow leaves: a card [H] high, at least as high as the
    rounded sum of the block and the margin and at most a million pixels,
    has a safe zone that holds the block. *)
Lemma safe_zone_holds W H block :
  1080 <= W ->
  0 <= block ->
  block ⊕ Block64.paddingMargin W <= H ->
  H <= 1000000 ->
  Block64.safe_top W <= Block64.safe_bottom W H
  /\ block <= Block64.safe_bottom W H - Block64.safe_top W
  /\ 0 <= Block64.safe_bottom W H
  /\ Block64.safe_bottom W H + block <= 2000000.
Proof.
  intros HW Hb Hneed HH.
  unfold Block64.safe_bottom, Block64.safe_top, Block64.paddingMargin in *.
  rewrite lit_0_1, lit_0_9 in *. rewrite lit_2_6 in Hneed.
  destruct (fl_error_nonneg (W * (3602879701896397 # 36028797018963968)))
    as [Hp1 Hp2]; [lra|].
  fold (W ⊗ (3602879701896397 # 36028797018963968)) in Hp1, Hp2.
  set (pad := W ⊗ (3602879701896397 # 36028797018963968)) in *. clearbody pad.
  destruct (fl_error_nonneg (pad * (8106479329266893 # 9007199254740992)))
    as [Ht1 Ht2]; [unfold eps in *; lra|].
  fold (pad ⊗ (8106479329266893 # 9007199254740992)) in Ht1, Ht2.
  set (top := pad ⊗ (8106479329266893 # 9007199254740992)) in *. clearbody top.
  destruct (fl_error_nonneg (pad * (5854679515581645 # 2251799813685248)))
    as [Hm1 Hm2]; [unfold eps in *; lra|].
  fold (pad ⊗ (5854679515581645 # 2251799813685248)) in Hm1, Hm2.
  set (margin := pad ⊗ (5854679515581645 # 2251799813685248)) in *.
  clearbody margin.
  destruct (fl_error_nonneg (block + margin)) as [Hn1 Hn2];
    [unfold eps in *; lra|].
  fold (block ⊕ margin) in Hn1, Hn2.
  set (needed := block ⊕ margin) in *. clearbody needed.
  destruct (fl_error_nonneg (H - top)) as [Hs1 Hs2]; [unfold eps in *; lra|].
  fold (H ⊖ top) in Hs1, Hs2.
  set (bottom := H ⊖ top) in *. clearbody bottom.
  unfold eps in *. repeat split; lra.
Qed.

(** X11.  Auto-grow keeps the text inside the card, in the arithmetic of
    the code.  Under a layout that keeps the full line width (any but
    [bordered], [corner-frame] and [split]), with the size sliders at 0 or
    more and a card at most a million pixels high, the text block of a
    card of the generator starts at or below the top of the safe zone, and
    ends less than a billionth of a pixel below its bottom; the safe zone
    is 0.9 times the padding from the edges. *)
Theorem text_block_inside_safe_zone
  h p canvas quote author design format radius so :
  ~ In (Generator.Design.layout design) narrow_layouts ->
  0 <= Generator.Page.quoteSize p ->
  0 <= Generator.Page.authorSize p ->
  let out :=
    Generator64.renderCard h p canvas quote author design format radius so in
  let W := Canvas.width out in
  let H := Canvas.height out in
  let y := Block64.text_y h p W H quote author design in
  H <= 1000000 ->
  Block64.safe_top W <= y
  /\ y + Block64.block_height h p W H quote author design
     <= Block64.safe_bottom W H + (1 # 1000000000).
Proof.
  intros Hn Hq Ha out W H y HH.
  destruct (renderCard64_canvas_size h p canvas quote author design format radius so)
    as [Hw Hh].
  fold out in Hw, Hh. fold W in Hw. fold H in Hh. cbv zeta in Hw, Hh.
  pose proof (requestedWidth_min format so) as HW. rewrite <- Hw in HW, Hh.
  subst y. unfold Block64.text_y.
  assert (Hblock : Block64.block_height h p W H quote author design
                   = Generator64.measuredBlockH h p W quote author design)
    by (by apply block_height_measured).
  assert (Hb0 : 0 <= Block64.block_height h p W H quote author design).
  { apply height_of_nonneg; [lra|done|done]. }
  assert (Hneed : Block64.block_height h p W H quote author design
                  ⊕ Block64.paddingMargin W <= H).
  { rewrite Hblock, Hh. eapply Qle_trans; [|apply Q.le_max_r].
    apply ceil_bounds. }
  clearbody out W H.
  set (block := Block64.block_height h p W H quote author design) in *.
  clearbody block.
  destruct (safe_zone_holds W H block HW Hb0 Hneed HH) as (Hz & Hfit & Hsb & Hsum).
  destruct (computeSafeStartY64_bounds
              (Layout.contentY (Block64.layout_of h W H design)) block
              (Block64.safe_top W) (Block64.safe_bottom W H) Hb0 Hz)
    as (Htop & Hend & _).
  specialize (Hend Hfit). cbv zeta in Htop, Hend.
  rewrite (Qabs_pos (Block64.safe_bottom W H)) in Hend by done.
  split; [exact Htop|].
  unfold eps in Hend. lra.
Qed.

(** X11 for the quote [Thank you] signed Jane on the first design. *)
Lemma text_block_inside_safe_zone_witness :
  let h := plain_host 255 in
  let p := default_page "balanced" in
  let out :=
    Generator64.renderCard h p (resize 300 150) "Thank you" "Jane" first_design
      Generator.square 26 None in
  let W := Canvas.width out in
  let H := Canvas.height out in
  let y := Block64.text_y h p W H "Thank you" "Jane" first_design in
  ~ In (Generator.Design.layout first_design) narrow_layouts
  /\ 0 <= Generator.Page.quoteSize p
  /\ 0 <= Generator.Page.authorSize p
  /\ H <= 1000000
  /\ Block64.safe_top W <= y
  /\ y + Block64.block_height h p W H "Thank you" "Jane" first_design
     <= Block64.safe_bottom W H + (1 # 1000000000).
Proof.
  cbv zeta.
  assert (Hn : ~ In (Generator.Design.layout first_design) narrow_layouts).
  { cbn. intros [H|[H|[H|[]]]]; discriminate H. }
  assert (Hq : 0 <= Generator.Page.quoteSize (default_page "balanced"))
    by discriminate.
  assert (Ha : 0 <= Generator.Page.authorSize (default_page "balanced"))
    by discriminate.
  assert (HH : Canvas.height
                 (Generator64.renderCard (plain_host 255) (default_page "balanced")
                    (resize 300 150) "Thank you" "Jane" first_design
                    Generator.square 26 None) <= 1000000).
  { vm_compute. discriminate. }
  split; [exact Hn|]. split; [exact Hq|]. split; [exact Ha|]. split; [exact HH|].
  exact (text_block_inside_safe_zone (plain_host 255) (default_page "balanced")
           (resize 300 150) "Thank you" "Jane" first_design Generator.square 26
           None Hn Hq Ha HH).
Defined.

(** ** What a rendering depends on *)

Lemma renderCard_inputs h p1 p2 canvas1 canvas2 quote author design format radius so :
  Generator.Page.quoteSize p1 = Generator.Page.quoteSize p2 ->
  Generator.Page.authorSize p1 = Generator.Page.authorSize p2 ->
  Generator.Page.stylePack p1 = Generator.Page.stylePack p2 ->
  Generator.renderCard h p1 canvas1 quote author design format radius so
  = Generator.renderCard h p2 canvas2 quote author design format radius so.
Proof.
  intros Hq Ha Hp.
  unfold Generator.renderCard, Generator.measuredBlockH, Generator.backdrop,
    Generator.drawText, Generator.getQuoteMul, Generator.getAuthorMul.
  rewrite Hq, Ha, Hp. reflexivity.
Qed.

(** C1, as the code has it.  The canvas [renderCard] of the generator
    leaves (its size and the sequence of drawing calls, which fix the
    pixels) is the same for two invocations with the same host functions,
    quote, author, design, format, radius, size override, size
    multipliers and style pack, whatever the clock, the other controls of
    the page and the canvas were before. *)
Theorem renderCard_deterministic
  h p1 p2 canvas1 canvas2 quote author design format radius so :
  Generator.Page.quoteSize p1 = Generator.Page.quoteSize p2 ->
  Generator.Page.authorSize p1 = Generator.Page.authorSize p2 ->
  Generator.Page.stylePack p1 = Generator.Page.stylePack p2 ->
  Generator.renderCard h p1 canvas1 quote author design format radius so
  = Generator.renderCard h p2 canvas2 quote author design format radius so.
Proof. apply renderCard_inputs. Qed.

(** C1 for two pages that differ in the clock, the texts, the card count
    and the live-update box, and two canvases of different sizes. *)
Lemma renderCard_deterministic_witness :
  let h := plain_host 255 in
  let p1 := default_page "balanced" in
  let p2 :=
    {| Generator.Page.quoteText := "other";
       Generator.Page.authorText := "other";
       Generator.Page.formatSelect := Generator.portrait;
       Generator.Page.countSelect := 12;
       Generator.Page.radiusSelect := 34;
       Generator.Page.stylePack := "balanced";
       Generator.Page.liveUpdate := false;
       Generator.Page.quoteSize := 95;
       Generator.Page.authorSize := 105;
       Generator.Page.now := 1800000000000 |} in
  Generator.Page.quoteSize p1 = Generator.Page.quoteSize p2
  /\ Generator.Page.authorSize p1 = Generator.Page.authorSize p2
  /\ Generator.Page.stylePack p1 = Generator.Page.stylePack p2
  /\ Generator.renderCard h p1 (resize 300 150) "Thank you" "Jane" first_design
       Generator.square 26 None
     = Generator.renderCard h p2 (resize 1080 1080) "Thank you" "Jane"
         first_design Generator.square 26 None.
Proof.
  cbv zeta. split; [reflexivity|]. split; [reflexivity|]. split; [reflexivity|].
  apply (renderCard_deterministic (plain_host 255)); reflexivity.
Defined.

(** C1, as the claim states it, fails: with the same quote, author,
    design, format, radius and size multipliers, the style pack [minimal]
    leaves out the doodles that the pack [balanced] draws.  Here the ten
    doodles are hearts, each filled once. *)
Lemma renderCard_depends_on_style_pack :
  let h := plain_host 255 in
  let p1 := default_page "minimal" in
  let p2 := default_page "balanced" in
  let out1 :=
    Generator.renderCard h p1 (resize 300 150) "Thank you" "Jane" first_design
      Generator.square 26 None in
  let out2 :=
    Generator.renderCard h p2 (resize 300 150) "Thank you" "Jane" first_design
      Generator.square 26 None in
  Generator.Page.quoteSize p1 = Generator.Page.quoteSize p2
  /\ Generator.Page.authorSize p1 = Generator.Page.authorSize p2
  /\ fills (log out1) = 0%nat
  /\ fills (log out2) = 10%nat
  /\ out1 <> out2.
Proof.
  cbv zeta.
  set (out1 := Generator.renderCard _ (default_page "minimal") _ _ _ _ _ _ _).
  set (out2 := Generator.renderCard _ (default_page "balanced") _ _ _ _ _ _ _).
  assert (H1 : fills (log out1) = 0%nat) by (vm_compute; reflexivity).
  assert (H2 : fills (log out2) = 10%nat) by (vm_compute; reflexivity).
  clearbody out1 out2.
  split; [reflexivity|]. split; [reflexivity|].
  split; [exact H1|]. split; [exact H2|].
  intros Heq. subst out2. rewrite H1 in H2. discriminate.
Qed.

(** ** Batches of designs *)

Lemma seededRandom_range h seed :
  0 <= seededRandom h seed /\ seededRandom h seed < 1.
Proof.
  unfold seededRandom, floor. cbv zeta.
  pose proof (Qfloor_le (sin h seed * 10000)) as Hlo.
  pose proof (Qlt_floor (sin h seed * 10000)) as Hhi.
  rewrite inject_Z_plus in Hhi. change (inject_Z 1) with 1 in Hhi.
  split; lra.
Qed.

Lemma pick_in_range {T} h (arr : list T) seed :
  arr <> [] -> exists x, Generator.pick h arr seed = Some x /\ In x arr.
Proof.
  intros Hne. unfold Generator.pick. cbv zeta.
  destruct (seededRandom_range h seed) as [Hlo Hhi].
  set (r := seededRandom h seed) in *.
  assert (Hlen : 0 < num (length arr)).
  { unfold num. change 0 with (inject_Z 0). rewrite <- Zlt_Qlt.
    destruct arr; [done | cbn [length]; lia]. }
  assert (H0 : (0 <= Qfloor (r * num (length arr)))%Z).
  { change 0%Z with (Qfloor (inject_Z 0)). apply Qfloor_resp_le.
    change (inject_Z 0) with 0. nra. }
  assert (H1 : (Qfloor (r * num (length arr)) < Z.of_nat (length arr))%Z).
  { rewrite Zlt_Qlt. apply Qle_lt_trans with (r * num (length arr)).
    - apply Qfloor_le.
    - fold (num (length arr)). nra. }
  destruct (Z.ltb_spec (Qfloor (r * num (length arr))) 0) as [Hneg|_]; [lia|].
  destruct (nth_error arr (Z.to_nat (Qfloor (r * num (length arr))))) as [x|] eqn:Hx.
  - exists x. split; [reflexivity|]. eapply nth_error_In, Hx.
  - apply nth_error_None in Hx. lia.
Qed.

Lemma selected_pack_nonempty p :
  Generator.StylePack.bgTypes (selected_pack p) <> []
  /\ Generator.StylePack.layouts (selected_pack p) <> [].
Proof.
  unfold selected_pack.
  destruct (Generator.STYLE_PACKS !! Generator.Page.stylePack p) as [pack|] eqn:Hp;
    cbn [default]; [|done].
  apply elem_of_list_to_map_2 in Hp.
  repeat (apply elem_of_cons in Hp as [Hp|Hp]; [by inversion Hp|]).
  by apply elem_of_nil in Hp.
Qed.

Lemma generateDesign_total h p seed :
  exists d,
    Generator.generateDesign h p seed = Some d
    /\ In (Generator.Design.palette d) Generator.PALETTES
    /\ In (Generator.Design.gradient d) Generator.GRADIENTS
    /\ In (Generator.Design.font d) Generator.FONTS
    /\ In (Generator.Design.bgType d) (Generator.StylePack.bgTypes (selected_pack p))
    /\ In (Generator.Design.layout d) (Generator.StylePack.layouts (selected_pack p))
    /\ Generator.Design.seed d = seed + 1 + 1 + 1 + 1 + 1.
Proof.
  unfold Generator.generateDesign. fold (selected_pack p). cbv zeta.
  destruct (selected_pack_nonempty p) as [Hb Hl].
  destruct (pick_in_range h Generator.PALETTES seed) as (pa & -> & Hpa); [done|].
  destruct (pick_in_range h Generator.GRADIENTS (seed + 1)) as (gr & -> & Hgr); [done|].
  destruct (pick_in_range h Generator.FONTS (seed + 1 + 1)) as (fo & -> & Hfo); [done|].
  destruct (pick_in_range h (Generator.StylePack.bgTypes (selected_pack p))
              (seed + 1 + 1 + 1)) as (bg & -> & Hbg); [done|].
  destruct (pick_in_range h (Generator.StylePack.layouts (selected_pack p))
              (seed + 1 + 1 + 1 + 1)) as (la & -> & Hla); [done|].
  eexists. split; [reflexivity|]. cbn. done.
Qed.

Lemma design_key_hash d1 d2 :
  design_key d1 = design_key d2 ->
  Generator.design_hash d1 = Generator.design_hash d2.
Proof.
  unfold design_key, Generator.design_hash. intros [= -> -> -> ->]. reflexivity.
Qed.

(** The retry loop: with enough iterations for the tries that are left it
    ends, having generated at most 60 designs (or one, when entered with 60
    or more), and it ends on a key in use only when the budget is spent. *)
Lemma attempts_end h p baseSeed used i fuel :
  forall tries,
    (60 <= fuel + tries)%nat -> (0 < fuel)%nat ->
    exists a,
      Generator.attempts fuel h p baseSeed used i tries = Some a
      /\ (tries < Generator.Attempt.tries a)%nat
      /\ (Generator.Attempt.tries a <= Nat.max 60 (S tries))%nat
      /\ Generator.Attempt.hash a = Generator.design_hash (Generator.Attempt.design a)
      /\ Generator.generateDesign h p
           (baseSeed + num i * 1000
            + num (Nat.pred (Generator.Attempt.tries a)) * 111)
         = Some (Generator.Attempt.design a)
      /\ (Generator.Attempt.hash a ∈ used -> (60 <= Generator.Attempt.tries a)%nat).
Proof.
  induction fuel as [|fuel IH]; intros tries Hfuel Hpos; [lia|].
  cbn [Generator.attempts]. cbv zeta.
  destruct (generateDesign_total h p (baseSeed + num i * 1000 + num tries * 111))
    as (d & Hd & _).
  rewrite Hd. cbn [mbind option_bind].
  destruct (bool_decide (Generator.design_hash d ∈ used)) eqn:Hin;
    destruct (Nat.ltb_spec (S tries) 60) as [Hlt|Hge]; cbn [andb].
  - destruct (IH (S tries)) as (a & Ha & H1 & H2 & H3 & H4 & H5); [lia|lia|].
    exists a. rewrite Ha. repeat split; try done; lia.
  - eexists. split; [reflexivity|]. cbn. repeat split; try done; lia.
  - eexists. split; [reflexivity|]. cbn. repeat split; try done; try lia.
    intros Hu. apply bool_decide_eq_false in Hin. done.
  - eexists. split; [reflexivity|]. cbn. repeat split; try done; lia.
Qed.

Lemma attempts_fuel h p baseSeed used i fuel :
  forall tries,
    (60 <= fuel + tries)%nat -> (0 < fuel)%nat ->
    Generator.attempts (S fuel) h p baseSeed used i tries
    = Generator.attempts fuel h p baseSeed used i tries.
Proof.
  induction fuel as [|fuel IH]; intros tries Hfuel Hpos; [lia|].
  change (Generator.attempts (S (S fuel)) h p baseSeed used i tries)
    with (d ← Generator.generateDesign h p (baseSeed + num i * 1000 + num tries * 111);
          if (bool_decide (Generator.design_hash d ∈ used) && (S tries <? 60)%nat)%bool
          then Generator.attempts (S fuel) h p baseSeed used i (S tries)
          else Some {| Generator.Attempt.design := d;
                       Generator.Attempt.hash := Generator.design_hash d;
                       Generator.Attempt.tries := S tries |}).
  change (Generator.attempts (S fuel) h p baseSeed used i tries)
    with (d ← Generator.generateDesign h p (baseSeed + num i * 1000 + num tries * 111);
          if (bool_decide (Generator.design_hash d ∈ used) && (S tries <? 60)%nat)%bool
          then Generator.attempts fuel h p baseSeed used i (S tries)
          else Some {| Generator.Attempt.design := d;
                       Generator.Attempt.hash := Generator.design_hash d;
                       Generator.Attempt.tries := S tries |}).
  destruct (Generator.generateDesign h p _) as [d|]; [|reflexivity].
  cbn [mbind option_bind].
  destruct (bool_decide _); [|reflexivity].
  destruct (Nat.ltb_spec (S tries) 60) as [Hlt|Hge]; [|reflexivity].
  cbn [andb]. apply IH; lia.
Qed.

Lemma attempts_enough h p baseSeed used i fuel :
  (60 <= fuel)%nat ->
  Generator.attempts fuel h p baseSeed used i 0
  = Generator.attempts 60 h p baseSeed used i 0.
Proof.
  intros Hfuel. replace fuel with ((fuel - 60) + 60)%nat by lia.
  induction (fuel - 60)%nat as [|k IH]; [reflexivity|].
  rewrite <- IH. apply attempts_fuel; lia.
Qed.

Lemma design_loop_enough h p baseSeed fuel :
  (60 <= fuel)%nat ->
  forall cards done used,
    Generator.design_loop fuel h p baseSeed cards done used
    = Generator.design_loop 60 h p baseSeed cards done used.
Proof.
  intros Hfuel cards. induction cards as [|i rest IH]; intros done used; [reflexivity|].
  cbn [Generator.design_loop]. rewrite (attempts_enough _ _ _ _ _ fuel Hfuel).
  destruct (Generator.attempts 60 h p baseSeed used i 0) as [a|]; [|reflexivity].
  cbn [mbind option_bind]. apply IH.
Qed.

Lemma design_loop_ok h p baseSeed cards :
  forall done used,
    batch_ok done ->
    (forall k, k ∈ used <-> In k (map Generator.Attempt.hash done)) ->
    exists run,
      Generator.design_loop 60 h p baseSeed cards done used = Some run
      /\ batch_ok run
      /\ length run = (length done + length cards)%nat.
Proof.
  induction cards as [|i rest IH]; intros done used Hok Hused.
  - exists done. cbn. split; [done|]. split; [done|lia].
  - cbn [Generator.design_loop].
    destruct (attempts_end h p baseSeed used i 60 0)
      as (a & Ha & H1 & H2 & H3 & _ & H5); [lia|lia|].
    rewrite Ha. cbn [mbind option_bind].
    destruct (IH (done ++ [a]) ({[Generator.Attempt.hash a]} ∪ used))
      as (run & Hrun & Hrok & Hlen).
    + constructor; [done|lia|done|].
      intros Hin. apply Hused in Hin. apply H5 in Hin. lia.
    + intros k. rewrite map_app, in_app_iff, elem_of_union, elem_of_singleton.
      rewrite Hused. cbn. intuition congruence.
    + exists run. split; [done|]. split; [done|].
      rewrite Hlen, length_app. cbn. lia.
Qed.

Lemma batch_ok_tries run :
  batch_ok run ->
  List.Forall (fun a => (1 <= Generator.Attempt.tries a <= 60)%nat) run.
Proof.
  induction 1 as [|done a _ IH Ht _ _]; [constructor|].
  apply List.Forall_app. split; [done|]. by constructor.
Qed.

Lemma batch_ok_split run :
  batch_ok run ->
  forall pre a post,
    run = pre ++ a :: post ->
    In (design_key (Generator.Attempt.design a))
       (map design_key (map Generator.Attempt.design pre)) ->
    Generator.Attempt.tries a = 60%nat.
Proof.
  induction 1 as [|done b Hok IH Ht Hh Hdup]; intros pre a post Heq Hin.
  - by destruct pre.
  - destruct (list_eq_nil_dec post) as [->|Hpost].
    + apply app_inj_tail in Heq as [-> ->].
      apply Hdup. rewrite Hh.
      rewrite map_map in Hin. apply in_map_iff in Hin as (c & Hc & Hcin).
      assert (Hcok : Generator.Attempt.hash c
                     = Generator.design_hash (Generator.Attempt.design c)).
      { clear -Hok Hcin. induction Hok as [|done' c' _ IH' _ Hh' _]; [done|].
        apply in_app_iff in Hcin as [Hcin|[<-|[]]]; [by apply IH'|done]. }
      apply in_map_iff. exists c. split; [|done].
      rewrite Hcok. by apply design_key_hash.
    + destruct (exists_last Hpost) as (post' & z & ->).
      rewrite app_comm_cons, List.app_assoc in Heq.
      apply app_inj_tail in Heq as [-> ->].
      by eapply IH.
Qed.

Lemma batch_ok_distinct run :
  batch_ok run ->
  List.Forall (fun a => (Generator.Attempt.tries a < 60)%nat) run ->
  List.NoDup (map design_key (map Generator.Attempt.design run)).
Proof.
  intros Hok. pose proof (batch_ok_split run Hok) as Hsplit. clear Hok.
  induction run as [|a rest IH] using rev_ind; intros Hlt; [constructor|].
  apply List.Forall_app in Hlt as [Hrest Ha]. inversion Ha as [|? ? Hlast _]; subst.
  rewrite !map_app. cbn [map].
  apply List.NoDup_app.
  - apply IH; [|done]. intros pre b post -> Hin.
    eapply (Hsplit pre b (post ++ [a])); [|done]. by rewrite <- List.app_assoc.
  - repeat constructor. intros [].
  - intros k Hin [<-|[]]. specialize (Hsplit rest a [] eq_refl Hin). lia.
Qed.

(** The designs the retry loop threw away: every try before the last gave
    a design whose key was in use. *)
Lemma attempts_trace h p baseSeed used i fuel :
  forall tries a,
    Generator.attempts fuel h p baseSeed used i tries = Some a ->
    forall k, (tries <= k < Nat.pred (Generator.Attempt.tries a))%nat ->
      exists d,
        Generator.generateDesign h p (baseSeed + num i * 1000 + num k * 111) = Some d
        /\ Generator.design_hash d ∈ used.
Proof.
  induction fuel as [|fuel IH]; intros tries a Ha k Hk; [done|].
  cbn [Generator.attempts] in Ha. cbv zeta in Ha.
  destruct (Generator.generateDesign h p (baseSeed + num i * 1000 + num tries * 111))
    as [d|] eqn:Hd; [|done].
  cbn [mbind option_bind] in Ha.
  destruct (bool_decide (Generator.design_hash d ∈ used)) eqn:Hin;
    destruct (Nat.ltb_spec (S tries) 60) as [Hlt|Hge]; cbn [andb] in Ha;
    try (injection Ha as <-; cbn in Hk; lia).
  destruct (Nat.eq_dec k tries) as [->|Hne].
  - exists d. split; [done|]. by apply bool_decide_eq_true in Hin.
  - apply (IH (S tries) a Ha). lia.
Qed.

Lemma design_loop_traced h p n :
  forall done used,
    batch_traced h p done ->
    (forall k, k ∈ used
               <-> In k (map Generator.design_hash (map Generator.Attempt.design done))) ->
    exists run,
      Generator.design_loop 60 h p (Generator.Page.now p) (seq (length done) n)
        done used = Some run
      /\ batch_traced h p run.
Proof.
  induction n as [|n IH]; intros done used Hok Hused.
  - exists done. by cbn.
  - cbn [seq Generator.design_loop].
    destruct (attempts_end h p (Generator.Page.now p) used (length done) 60 0)
      as (a & Ha & H1 & H2 & H3 & H4 & H5); [lia|lia|].
    pose proof (attempts_trace h p (Generator.Page.now p) used (length done) 60 0 a Ha)
      as Htrace.
    rewrite Ha. cbn [mbind option_bind].
    assert (Hok' : batch_traced h p (done ++ [a])).
    { constructor; [done|lia| |].
      - split; [done|]. intros k Hk. destruct (Htrace k) as (d & Hd & Hin); [lia|].
        exists d. split; [done|]. by apply Hused.
      - intros Hin. apply Hused in Hin. rewrite <- H3 in Hin. apply H5 in Hin. lia. }
    destruct (IH (done ++ [a]) ({[Generator.Attempt.hash a]} ∪ used) Hok')
      as (run & Hrun & Hrok).
    + intros k. rewrite !map_app, in_app_iff, elem_of_union, elem_of_singleton.
      rewrite Hused, H3. cbn. intuition congruence.
    + exists run. rewrite length_app in Hrun. cbn [length] in Hrun.
      replace (S (length done)) with (length done + 1)%nat by lia. done.
Qed.

Lemma batch_traced_lookup h p run :
  batch_traced h p run ->
  forall j a,
    nth_error run j = Some a ->
    (1 <= Generator.Attempt.tries a <= 60)%nat
    /\ retried h p (map Generator.Attempt.design (firstn j run)) j
         (Generator.Attempt.design a) (Nat.pred (Generator.Attempt.tries a))
    /\ (In (Generator.design_hash (Generator.Attempt.design a))
           (map Generator.design_hash
              (map Generator.Attempt.design (firstn j run))) ->
        Generator.Attempt.tries a = 60%nat).
Proof.
  induction 1 as [|done b Hok IH Ht Hr Hdup]; intros j a Hj.
  - by destruct j.
  - destruct (Nat.lt_ge_cases j (length done)) as [Hlt|Hge].
    + rewrite nth_error_app1 in Hj by done.
      rewrite firstn_app. replace (j - length done)%nat with 0%nat by lia.
      cbn [firstn]. rewrite List.app_nil_r. by apply IH.
    + rewrite nth_error_app2 in Hj by done.
      destruct (j - length done)%nat as [|m] eqn:Hm; [|by destruct m].
      injection Hj as <-. assert (j = length done) as -> by lia.
      rewrite firstn_app, Nat.sub_diag, firstn_all. cbn [firstn].
      by rewrite List.app_nil_r.
Qed.

Lemma nodup_by_prefix {A B} (f : A -> B) (l : list A) :
  (forall j d, nth_error l j = Some d -> ~ In (f d) (map f (firstn j l))) ->
  List.NoDup (map f l).
Proof.
  induction l as [|a l IH] using rev_ind; intros H; [constructor|].
  rewrite map_app. apply List.NoDup_app.
  - apply IH. intros j d Hj Hin.
    assert (Hlt : (j < length l)%nat) by (apply nth_error_Some; by rewrite Hj).
    apply (H j d).
    + by rewrite nth_error_app1.
    + rewrite firstn_app. replace (j - length l)%nat with 0%nat by lia.
      cbn [firstn]. by rewrite List.app_nil_r.
  - repeat constructor. intros [].
  - intros k Hin [<-|[]]. apply (H (length l) a).
    + rewrite nth_error_app2 by lia. by rewrite Nat.sub_diag.
    + rewrite firstn_app, Nat.sub_diag, firstn_all. cbn [firstn].
      by rewrite List.app_nil_r.
Qed.

(** C6.  For every batch size (12 or less in particular) [makeDesigns]
    returns one design per card; each card's retry loop generates at most
    60 designs, and more iterations than 60 are never used.  The design
    of card [j] is the one [generateDesign] gives for the seed of its last
    try, [now + 1000 j + 111 k] with [k < 60], and every earlier try gave
    a design whose key was in use; when the tuple (background kind, layout
    kind, palette index, quote font) of the card is that of an earlier
    card, [k] is 59: all 60 tries were spent, each on a design whose key
    was in use.  So the tuples are pairwise distinct when every card has,
    among its 60 seeds, one whose design has a key no earlier card has. *)
Theorem makeDesigns_distinct_or_spent h p count :
  exists run,
    Generator.makeDesigns_run 60 h p count = Some run
    /\ (forall fuel, (60 <= fuel)%nat ->
          Generator.makeDesigns_run fuel h p count = Some run)
    /\ Generator.makeDesigns h p count = Some (map Generator.Attempt.design run)
    /\ length run = count
    /\ List.Forall (fun a => (1 <= Generator.Attempt.tries a <= 60)%nat) run
    /\ (forall pre a post,
          run = pre ++ a :: post ->
          In (design_key (Generator.Attempt.design a))
             (map design_key (map Generator.Attempt.design pre)) ->
          Generator.Attempt.tries a = 60%nat)
    /\ (List.Forall (fun a => (Generator.Attempt.tries a < 60)%nat) run ->
        List.NoDup (map design_key (map Generator.Attempt.design run)))
    /\ (forall j d,
          nth_error (map Generator.Attempt.design run) j = Some d ->
          let earlier := firstn j (map Generator.Attempt.design run) in
          exists k,
            (k < 60)%nat
            /\ retried h p earlier j d k
            /\ (In (design_key d) (map design_key earlier) -> k = 59%nat))
    /\ ((forall j, (j < count)%nat ->
           exists k d,
             (k < 60)%nat
             /\ Generator.generateDesign h p (card_seed p j k) = Some d
             /\ ~ In (Generator.design_hash d)
                     (map Generator.design_hash
                        (firstn j (map Generator.Attempt.design run)))) ->
        List.NoDup (map design_key (map Generator.Attempt.design run))).
Proof.
  destruct (design_loop_ok h p (Generator.Page.now p) (seq 0 count) [] ∅)
    as (run & Hrun & Hok & Hlen).
  { constructor. }
  { intros k. cbn. set_solver. }
  destruct (design_loop_traced h p count [] ∅) as (run' & Hrun' & Htraced).
  { constructor. }
  { intros k. cbn. set_solver. }
  cbn [length] in Hrun'. rewrite Hrun in Hrun'. injection Hrun' as <-.
  assert (Hlen' : length run = count) by (rewrite Hlen, length_seq; cbn; lia).
  assert (Hcards : forall j d,
            nth_error (map Generator.Attempt.design run) j = Some d ->
            exists k,
              (k < 60)%nat
              /\ retried h p (firstn j (map Generator.Attempt.design run)) j d k
              /\ (In (Generator.design_hash d)
                     (map Generator.design_hash
                        (firstn j (map Generator.Attempt.design run))) ->
                  k = 59%nat)).
  { intros j d Hj. rewrite nth_error_map in Hj.
    destruct (nth_error run j) as [a|] eqn:Ha; [|done]. injection Hj as <-.
    destruct (batch_traced_lookup h p run Htraced j a Ha) as (Ht & Hr & Hdup).
    rewrite firstn_map. exists (Nat.pred (Generator.Attempt.tries a)).
    split; [lia|]. split; [done|]. intros Hin. apply Hdup in Hin. lia. }
  exists run. unfold Generator.makeDesigns, Generator.makeDesigns_run. cbv zeta.
  split; [done|]. split.
  { intros fuel Hfuel. by rewrite design_loop_enough. }
  split; [by rewrite Hrun|].
  split; [done|].
  split; [by apply batch_ok_tries|].
  split; [by apply batch_ok_split|].
  split; [by apply batch_ok_distinct|].
  split.
  { intros j d Hj. destruct (Hcards j d Hj) as (k & Hk & Hr & Hdup).
    exists k. split; [done|]. split; [done|]. intros Hin. apply Hdup.
    apply in_map_iff in Hin as (d' & Hkey & Hd').
    apply in_map_iff. exists d'. split; [by apply design_key_hash | done]. }
  intros Hfresh.
  apply nodup_by_prefix. intros j d Hj Hin.
  assert (Hjc : (j < count)%nat).
  { rewrite <- Hlen', <- (length_map Generator.Attempt.design).
    apply nth_error_Some. by rewrite Hj. }
  destruct (Hcards j d Hj) as (k & Hk & [Hgen Hearlier] & Hdup).
  destruct (Hfresh j Hjc) as (k' & d' & Hk' & Hgen' & Hnew).
  assert (Hk59 : k = 59%nat).
  { apply Hdup. apply in_map_iff in Hin as (d0 & Hkey & Hd0).
    apply in_map_iff. exists d0. split; [by apply design_key_hash | done]. }
  destruct (Nat.eq_dec k' k) as [->|Hne].
  - rewrite Hgen in Hgen'. injection Hgen' as <-. apply Hnew.
    apply in_map_iff in Hin as (d0 & Hkey & Hd0).
    apply in_map_iff. exists d0. split; [by apply design_key_hash | done].
  - destruct (Hearlier k') as (d'' & Hgen'' & Hused); [lia|].
    rewrite Hgen' in Hgen''. injection Hgen'' as <-. done.
Qed.

(** ** More on wrapping *)

(** X1 for the fixed-pitch metric, the text [thank you all] and lines of
    5 characters. *)
Lemma wrap_lines_fit_when_chars_fit_witness :
  (forall ch, fits char_count 5 (String ch ""))
  /\ Forall (fits char_count 5)
       (Wall.wrapTextSmart char_count "thank you all" 5).
Proof.
  assert (H : forall ch, fits char_count 5 (String ch "")).
  { intros ch. vm_compute. discriminate. }
  split; [exact H|].
  apply (wrap_lines_fit_when_chars_fit char_count "thank you all" 5 H).
Defined.

(** X2 for the fixed-pitch metric, the text [thank you all] and lines of
    9 characters. *)
Lemma wrap_lossless_fitting_witness :
  Forall (fits char_count 9) (tokens "thank you all")
  /\ tokens (join_sp (Wall.wrapTextSmart char_count "thank you all" 9))
     = tokens "thank you all".
Proof.
  assert (H : Forall (fits char_count 9) (tokens "thank you all")).
  { repeat constructor; vm_compute; discriminate. }
  split; [exact H|].
  apply (wrap_lossless_fitting char_count "thank you all" 9 H).
Defined.

Lemma split_fold_nonempty ctx maxWidth cs :
  forall lines chunk,
    Forall (fun l => l <> "") lines ->
    Forall (fun l => l <> "")
      (fst (fold_left (Wall.split_step ctx maxWidth) cs (lines, chunk))).
Proof.
  induction cs as [|ch cs IH]; intros lines chunk Hl; [done|].
  cbn [fold_left].
  replace (Wall.split_step ctx maxWidth (lines, chunk) ch)
    with (if leb (ctx (chunk +:+ String ch "")) maxWidth
          then (lines, chunk +:+ String ch "")
          else ((if truthy chunk then lines ++ [chunk] else lines), String ch ""))
    by reflexivity.
  destruct (leb _ _); [by apply IH|].
  apply IH. destruct (truthy chunk) eqn:Ht; [|done].
  apply Forall_app. split; [done|]. constructor; [|constructor].
  by apply truthy_true.
Qed.

Lemma push_line_nonempty lines current :
  Forall (fun l => l <> "") lines ->
  Forall (fun l => l <> "") (Wall.push_line lines current).
Proof.
  intros Hl. unfold Wall.push_line. destruct (truthy current) eqn:Ht; [|done].
  apply Forall_app. split; [done|]. constructor; [|constructor].
  by apply truthy_true.
Qed.

Lemma token_step_nonempty ctx maxWidth lines current tok :
  Forall (fun l => l <> "") lines ->
  Forall (fun l => l <> "")
    (fst (Wall.token_step ctx maxWidth (lines, current) tok)).
Proof.
  intros Hl. unfold Wall.token_step.
  destruct (leb (ctx _) maxWidth); [done|].
  assert (Hl' : Forall (fun l => l <> "")
                  (if truthy current then Wall.push_line lines current else lines)).
  { destruct (truthy current); [by apply push_line_nonempty|done]. }
  destruct (leb (ctx tok) maxWidth); [done|].
  pose proof (split_fold_nonempty ctx maxWidth (chars tok) _ "" Hl') as H.
  by destruct (fold_left _ _ _).
Qed.

Lemma token_fold_nonempty ctx maxWidth toks :
  forall lines current,
    Forall (fun l => l <> "") lines ->
    Forall (fun l => l <> "")
      (fst (fold_left (Wall.token_step ctx maxWidth) toks (lines, current))).
Proof.
  induction toks as [|tok toks IH]; intros lines current Hl; [done|].
  cbn [fold_left].
  pose proof (token_step_nonempty ctx maxWidth lines current tok Hl) as H.
  destruct (Wall.token_step _ _ _ _) as [lines1 current1]. by apply IH.
Qed.

(** X3.  [wrapTextSmart] returns no empty line: the number of lines, which
    sets the height of the text block, counts lines that hold text. *)
Theorem wrap_lines_nonempty ctx text maxWidth :
  Forall (fun line => line <> "") (Wall.wrapTextSmart ctx text maxWidth).
Proof.
  unfold Wall.wrapTextSmart.
  pose proof (token_fold_nonempty ctx maxWidth (tokens text) [] ""
                (List.Forall_nil _)) as H.
  destruct (fold_left _ _ _) as [lines current].
  by apply push_line_nonempty.
Qed.

Lemma join_sp_snoc pre tok :
  pre <> [] -> join_sp (pre ++ [tok]) = join_sp pre +:+ " " +:+ tok.
Proof.
  induction pre as [|a pre IH]; intros Hne; [done|].
  destruct pre as [|b pre].
  - reflexivity.
  - change (join_sp ((a :: b :: pre) ++ [tok]))
      with (a +:+ " " +:+ join_sp ((b :: pre) ++ [tok])).
    rewrite IH by done.
    change (join_sp (a :: b :: pre)) with (a +:+ " " +:+ join_sp (b :: pre)).
    by rewrite !app_assoc.
Qed.

Lemma join_sp_truthy pre :
  pre <> [] -> Forall (fun w => w <> "") pre -> truthy (join_sp pre) = true.
Proof.
  intros Hne Hw. destruct pre as [|a pre]; [done|].
  apply Forall_cons in Hw as [Ha _]. apply truthy_true.
  destruct a as [|c a]; [done|]. by destruct pre.
Qed.

(** While every line built so far fits, the tokens gather on one line. *)
Lemma token_fold_one_line ctx maxWidth rest :
  forall pre lines,
    pre <> [] -> Forall (fun w => w <> "") (pre ++ rest) ->
    (forall k, fits ctx maxWidth (join_sp (pre ++ firstn k rest))) ->
    fold_left (Wall.token_step ctx maxWidth) rest (lines, join_sp pre)
    = (lines, join_sp (pre ++ rest)).
Proof.
  induction rest as [|tok rest IH]; intros pre lines Hne Hw Hfit.
  - by rewrite List.app_nil_r.
  - cbn [fold_left]. unfold Wall.token_step at 2.
    assert (Hpre : Forall (fun w => w <> "") pre).
    { by apply Forall_app in Hw as [? _]. }
    rewrite (join_sp_truthy pre Hne Hpre).
    rewrite <- (join_sp_snoc pre tok Hne).
    pose proof (Hfit 1%nat) as H1.
    change (firstn 1 (tok :: rest)) with [tok] in H1.
    unfold fits in H1. apply Qle_bool_iff in H1. unfold leb. rewrite H1.
    replace (pre ++ tok :: rest) with ((pre ++ [tok]) ++ rest) in *
      by (by rewrite <- List.app_assoc).
    apply IH; [by destruct pre | done |].
    intros k. specialize (Hfit (S k)).
    change (firstn (S k) (tok :: rest)) with (tok :: firstn k rest) in Hfit.
    by rewrite <- List.app_assoc.
Qed.

(** The line of the first [k] words begins the line of all words. *)
Lemma join_sp_firstn toks k :
  exists tail, join_sp toks = join_sp (firstn k toks) +:+ tail.
Proof.
  revert k. induction toks as [|a toks IH]; intros k.
  - exists "". by destruct k.
  - destruct k as [|k]; [by exists (join_sp (a :: toks))|].
    destruct toks as [|b toks].
    + exists "". replace (firstn (S k) [a]) with [a] by (by destruct k).
      by rewrite app_nil_r.
    + destruct k as [|k].
      * exists (" " +:+ join_sp (b :: toks)). reflexivity.
      * destruct (IH (S k)) as (tail & Htail). exists tail.
        change (join_sp (a :: b :: toks))
          with (a +:+ " " +:+ join_sp (b :: toks)).
        rewrite Htail.
        change (firstn (S (S k)) (a :: b :: toks))
          with (a :: b :: firstn k toks).
        change (firstn (S k) (b :: toks)) with (b :: firstn k toks).
        change (join_sp (a :: b :: firstn k toks))
          with (a +:+ " " +:+ join_sp (b :: firstn k toks)).
        by rewrite !app_assoc.
Qed.

(** X4.  A text that fits on one line comes back as one line, its words
    separated by single spaces, under a metric for which a text is at least
    as wide as each of its beginnings. *)
Theorem wrap_one_line ctx text maxWidth :
  (forall s t, ctx s <= ctx (s +:+ t)) ->
  tokens text <> [] ->
  fits ctx maxWidth (join_sp (tokens text)) ->
  Wall.wrapTextSmart ctx text maxWidth = [join_sp (tokens text)].
Proof.
  intros Hmono Hne Hfit. unfold Wall.wrapTextSmart.
  pose proof (tokens_words text) as Hw.
  assert (Hw' : Forall (fun w => w <> "") (tokens text)).
  { eapply List.Forall_impl; [|exact Hw]. by intros w [? _]. }
  assert (Hfits : forall k,
             fits ctx maxWidth (join_sp (firstn k (tokens text)))).
  { intros k. destruct (join_sp_firstn (tokens text) k) as (tail & Htail).
    unfold fits in *. rewrite Htail in Hfit.
    eapply Qle_trans; [apply Hmono | exact Hfit]. }
  destruct (tokens text) as [|tok rest] eqn:Htoks; [done|].
  cbn [fold_left]. unfold Wall.token_step at 2.
  change (truthy "") with false. cbv iota.
  pose proof (Hfits 1%nat) as H1. change (firstn 1 (tok :: rest)) with [tok] in H1.
  change (join_sp [tok]) with tok in H1.
  unfold fits in H1. apply Qle_bool_iff in H1. unfold leb. rewrite H1.
  change tok with (join_sp [tok]) at 1.
  rewrite (token_fold_one_line ctx maxWidth rest [tok] []); [| done | done |].
  - unfold Wall.push_line. by rewrite join_sp_truthy.
  - intros k. apply (Hfits (S k)).
Qed.

(** X4 for the fixed-pitch metric, the text [thank  you] with two spaces
    and lines of 9 characters. *)
Lemma wrap_one_line_witness :
  (forall s t, char_count s <= char_count (s +:+ t))
  /\ tokens "thank  you" <> []
  /\ fits char_count 9 (join_sp (tokens "thank  you"))
  /\ Wall.wrapTextSmart char_count "thank  you" 9
     = [join_sp (tokens "thank  you")].
Proof.
  assert (H1 : forall s t, char_count s <= char_count (s +:+ t)).
  { intros s t. unfold char_count, num. rewrite <- Zle_Qle.
    apply inj_le.
    induction s as [|c s IH];
      [rewrite app_nil_l; cbn [String.length]; lia
      |rewrite app_cons; cbn [String.length]; lia]. }
  assert (H2 : tokens "thank  you" <> []) by (vm_compute; discriminate).
  assert (H3 : fits char_count 9 (join_sp (tokens "thank  you")))
    by (vm_compute; discriminate).
  split; [exact H1|]. split; [exact H2|]. split; [exact H3|].
  apply (wrap_one_line char_count "thank  you" 9 H1 H2 H3).
Defined.

(** ** Numbers and colours *)

(** X5.  [seededRandom], in the arithmetic of the code, returns a number
    from 0 to 1, for every seed and whatever [Math.sin] returns.  It can
    return 1 itself: when the sine is [-1e-21] the product is a tiny
    negative number, and its distance to the floor, just below 1, is
    rounded to 1. *)
Theorem seededRandom_fraction h seed :
  0 <= Helpers64.seededRandom h seed
  /\ Helpers64.seededRandom h seed <= 1
  /\ (sin h seed = lit (- (1 # 1000000000000000000000)) ->
      Helpers64.seededRandom h seed = 1).
Proof.
  unfold Helpers64.seededRandom. cbv zeta.
  set (x := sin h seed ⊗ 10000).
  destruct (floor_bounds x) as [Hlo Hhi]. fold (floor x) in Hlo, Hhi.
  split; [apply fl_nonneg; lra|]. split; [apply fl_below_one; lra|].
  intros Hsin. subst x. rewrite Hsin. vm_compute. reflexivity.
Qed.

(** X5 for a sine of [-1e-21]. *)
Lemma seededRandom_fraction_witness :
  let h :=
    {| sin := fun _ => lit (- (1 # 1000000000000000000000));
       cos := fun _ => 0;
       PI := 3;
       pow := fun x _ => x;
       hypot := fun x y => Qmax x (- x) + Qmax y (- y);
       measureWidth := fun f s => font_px f * char_count s;
       imageData := fun _ _ _ _ _ _ _ => [] |} in
  Helpers64.seededRandom h 0 = 1.
Proof.
  cbv zeta.
  match goal with
  | |- Helpers64.seededRandom ?h _ = _ =>
      apply (proj2 (proj2 (seededRandom_fraction h 0)))
  end.
  reflexivity.
Defined.

Lemma land_byte n : (0 <= Z.land n 255 <= 255)%Z.
Proof.
  replace (Z.land n 255) with (n mod 256)%Z.
  - pose proof (Z.mod_pos_bound n 256) as H. lia.
  - change 255%Z with (Z.ones 8). by rewrite Z.land_ones by lia.
Qed.

(** X6.  Every channel [hexToRgb] returns is a whole number from 0 to 255,
    whatever the string; and a string in which [parseInt] finds no
    hexadecimal number, such as a colour in functional notation or the
    empty string, gives black, never [NaN]. *)
Theorem hexToRgb_bytes hex :
  byte_rgb (hexToRgb hex)
  /\ (parseInt16 (hex_text hex) = None -> hexToRgb hex = black)
  /\ hexToRgb "rgba(255,255,255,1)" = black
  /\ hexToRgb "" = black.
Proof.
  split; [|split; [|split; reflexivity]].
  - unfold hexToRgb, byte_rgb. cbv zeta. do 3 eexists. split; [reflexivity|].
    repeat split; apply land_byte.
  - unfold hexToRgb, hex_text. cbv zeta. by intros ->.
Qed.

Lemma hex_digit_range c d : hex_digit c = Some d -> (0 <= d < 16)%Z.
Proof.
  unfold hex_digit. cbv zeta.
  repeat match goal with
         | |- context [if ?b then _ else _] => destruct b eqn:?
         end; intros [= <-]; lia.
Qed.

Lemma hex_digit_plain c d :
  hex_digit c = Some d ->
  is_space c = false /\ c <> "#"%char /\ c <> "-"%char /\ c <> "+"%char
  /\ c <> "x"%char /\ c <> "X"%char.
Proof.
  intros H.
  assert (Hn : (48 <= Z.of_N (N_of_ascii c) <= 57
                \/ 97 <= Z.of_N (N_of_ascii c) <= 102
                \/ 65 <= Z.of_N (N_of_ascii c) <= 70)%Z).
  { revert H. unfold hex_digit. cbv zeta.
    repeat match goal with
           | |- context [if ?b then _ else _] => destruct b eqn:?
           end; intros [= <-]; lia. }
  clear H. split.
  - unfold is_space. cbv zeta.
    repeat (apply orb_false_intro); apply N.eqb_neq; lia.
  - repeat split; intros ->; cbn in Hn; lia.
Qed.

Lemma parseInt16_digits a b s da db :
  hex_digit a = Some da -> hex_digit b = Some db ->
  parseInt16 (String a (String b s))
  = match hex_prefix None (String a (String b s)) with
    | None => None
    | Some v => Some (1 * v)%Z
    end.
Proof.
  intros Ha Hb. unfold parseInt16.
  destruct (hex_digit_plain a da Ha) as (Hsa & _).
  cbn [trim_start]. rewrite Hsa.
  destruct a as [[] [] [] [] [] [] [] []];
    try (vm_compute in Ha; discriminate Ha); try reflexivity.
  destruct b as [[] [] [] [] [] [] [] []];
    try (vm_compute in Hb; discriminate Hb); reflexivity.
Qed.

Lemma trim_plain a s z :
  is_space a = false -> is_space z = false ->
  trim (String a (s +:+ String z "")) = String a (s +:+ String z "").
Proof.
  intros Ha Hz. unfold trim. cbn [trim_start]. rewrite Ha.
  assert (Hrev : forall t, reverse (reverse t) = t).
  { intros t. unfold reverse, chars.
    by rewrite list_ascii_of_string_of_list_ascii, rev_involutive,
      string_of_list_ascii_of_string. }
  assert (Hlast : reverse (String a (s +:+ String z ""))
                  = String z (reverse (String a s))).
  { unfold reverse, chars.
    change (String a (s +:+ String z "")) with (String a s +:+ String z "").
    generalize (String a s). intros t.
    replace (list_ascii_of_string (t +:+ String z ""))
      with (list_ascii_of_string t ++ [z]).
    - by rewrite rev_app_distr.
    - induction t as [|c t IH]; [done|]. rewrite app_cons. cbn. by rewrite IH. }
  rewrite Hlast. cbn [trim_start]. rewrite Hz. rewrite <- Hlast. apply Hrev.
Qed.

Lemma shorthand_channels da db dc :
  (0 <= da < 16)%Z -> (0 <= db < 16)%Z -> (0 <= dc < 16)%Z ->
  let n := (16 * (16 * (16 * (16 * (16 * da + da) + db) + db) + dc) + dc)%Z in
  to_int32 (Some (1 * n)%Z) = n
  /\ Z.land (Z.shiftr n 16) 255 = (17 * da)%Z
  /\ Z.land (Z.shiftr n 8) 255 = (17 * db)%Z
  /\ Z.land n 255 = (17 * dc)%Z.
Proof.
  intros Ha Hb Hc n. unfold to_int32.
  assert (Hland : forall m, Z.land m 255 = (m mod 256)%Z).
  { intros m. change 255%Z with (Z.ones 8). by rewrite Z.land_ones by lia. }
  rewrite !Hland, !Z.shiftr_div_pow2 by lia.
  change (2 ^ 16)%Z with 65536%Z. change (2 ^ 8)%Z with 256%Z.
  subst n. repeat split; Z.div_mod_to_equations; lia.
Qed.

(** X7.  The three-digit shorthand: for hexadecimal digits [a], [b] and [c],
    [hexToRgb] reads [#abc] as it reads [#aabbcc], each channel 17 times
    its digit. *)
Theorem hexToRgb_shorthand a b c da db dc :
  hex_digit a = Some da -> hex_digit b = Some db -> hex_digit c = Some dc ->
  hexToRgb (String "#" (String a (String b (String c ""))))
  = {| Rgb.r := inject_Z (17 * da); Rgb.g := inject_Z (17 * db);
       Rgb.b := inject_Z (17 * dc) |}
  /\ hexToRgb (String "#" (String a (String a (String b (String b
                 (String c (String c "")))))))
     = hexToRgb (String "#" (String a (String b (String c "")))).
Proof.
  intros Ha Hb Hc.
  destruct (hex_digit_plain a da Ha) as (Hsa & _).
  destruct (hex_digit_plain c dc Hc) as (Hsc & _).
  pose proof (hex_digit_range a da Ha) as Hra.
  pose proof (hex_digit_range b db Hb) as Hrb.
  pose proof (hex_digit_range c dc Hc) as Hrc.
  destruct (shorthand_channels da db dc Hra Hrb Hrc) as (Hn & Hr & Hg & Hbl).
  assert (H3 : hexToRgb (String "#" (String a (String b (String c ""))))
               = {| Rgb.r := inject_Z (17 * da); Rgb.g := inject_Z (17 * db);
                    Rgb.b := inject_Z (17 * dc) |}).
  { unfold hexToRgb. cbv zeta.
    change (remove_hash (String "#" (String a (String b (String c "")))))
      with (String a (String b (String c ""))).
    replace (trim (String a (String b (String c ""))))
      with (String a (String b (String c "")))
      by (symmetry; apply (trim_plain a (String b "") c Hsa Hsc)).
    change (String.length (String a (String b (String c ""))) =? 3)%nat with true.
    cbv iota. cbn [double_chars].
    rewrite (parseInt16_digits a a _ da da Ha Ha).
    cbn [hex_prefix]. rewrite Ha, Hb, Hc. cbn [hex_prefix].
    rewrite Hn, Hr, Hg, Hbl. reflexivity. }
  split; [exact H3|]. rewrite H3.
  unfold hexToRgb. cbv zeta.
  change (remove_hash (String "#" ?s)) with s.
  replace (trim (String a (String a (String b (String b (String c (String c "")))))))
    with (String a (String a (String b (String b (String c (String c ""))))))
    by (symmetry;
        apply (trim_plain a (String a (String b (String b (String c "")))) c
                 Hsa Hsc)).
  change (String.length _ =? 3)%nat with false. cbv iota.
  rewrite (parseInt16_digits a a _ da da Ha Ha).
  cbn [hex_prefix]. rewrite Ha, Hb, Hc. cbn [hex_prefix].
  rewrite Hn, Hr, Hg, Hbl. reflexivity.
Qed.

(** X7 for the colour [#fa3]. *)
Lemma hexToRgb_shorthand_witness :
  hex_digit "f" = Some 15%Z /\ hex_digit "a" = Some 10%Z
  /\ hex_digit "3" = Some 3%Z
  /\ hexToRgb "#fa3"
     = {| Rgb.r := inject_Z (17 * 15); Rgb.g := inject_Z (17 * 10);
          Rgb.b := inject_Z (17 * 3) |}
  /\ hexToRgb "#ffaa33" = hexToRgb "#fa3".
Proof.
  split; [reflexivity|]. split; [reflexivity|]. split; [reflexivity|].
  apply (hexToRgb_shorthand "f" "a" "3" 15 10 3); reflexivity.
Defined.

Lemma round_between za zb x :
  inject_Z za <= x -> x <= inject_Z zb ->
  (za <= Qfloor (x + (1 # 2)) <= zb)%Z.
Proof.
  intros Hlo Hhi.
  pose proof (Qfloor_le (x + (1 # 2))) as Hf.
  pose proof (Qlt_floor (x + (1 # 2))) as Hc.
  rewrite inject_Z_plus in Hc. change (inject_Z 1) with 1 in Hc.
  split.
  - apply Z.lt_succ_r. rewrite Zlt_Qlt. unfold Z.succ.
    rewrite inject_Z_plus. change (inject_Z 1) with 1. lra.
  - apply Z.lt_succ_r. rewrite Zlt_Qlt. unfold Z.succ.
    rewrite inject_Z_plus. change (inject_Z 1) with 1. lra.
Qed.

Lemma mix_channel za zb t :
  0 <= t -> t <= 1 -> (0 <= za <= 255)%Z -> (0 <= zb <= 255)%Z ->
  exists z,
    round (inject_Z za + (inject_Z zb - inject_Z za) * t) = inject_Z z
    /\ (0 <= z <= 255)%Z
    /\ between (inject_Z za) (inject_Z zb) (inject_Z z).
Proof.
  intros Ht0 Ht1 Ha Hb. unfold round. eexists. split; [reflexivity|].
  set (x := inject_Z za + (inject_Z zb - inject_Z za) * t).
  destruct (Z.le_ge_cases za zb) as [Hab|Hab].
  - assert (Hq : inject_Z za <= inject_Z zb) by (by rewrite <- Zle_Qle).
    destruct (round_between za zb x) as [H1 H2]; [subst x; nra | subst x; nra |].
    split; [lia|]. unfold between.
    rewrite (Q.min_l _ _ Hq), (Q.max_r _ _ Hq), <- !Zle_Qle. done.
  - assert (Hq : inject_Z zb <= inject_Z za) by (by rewrite <- Zle_Qle).
    destruct (round_between zb za x) as [H1 H2]; [subst x; nra | subst x; nra |].
    split; [lia|]. unfold between.
    rewrite (Q.min_r _ _ Hq), (Q.max_l _ _ Hq), <- !Zle_Qle. done.
Qed.

(** X8.  Mixing two colours with whole-number channels from 0 to 255 in a
    proportion [t] between 0 and 1 gives such a colour again, each channel
    between the channels mixed. *)
Theorem mixRgb_between a b t :
  0 <= t -> t <= 1 -> byte_rgb a -> byte_rgb b ->
  byte_rgb (mixRgb a b t)
  /\ between (Rgb.r a) (Rgb.r b) (Rgb.r (mixRgb a b t))
  /\ between (Rgb.g a) (Rgb.g b) (Rgb.g (mixRgb a b t))
  /\ between (Rgb.b a) (Rgb.b b) (Rgb.b (mixRgb a b t)).
Proof.
  intros Ht0 Ht1 (ra & ga & ba & -> & Hra & Hga & Hba)
    (rb & gb & bb & -> & Hrb & Hgb & Hbb).
  unfold mixRgb. cbn [Rgb.r Rgb.g Rgb.b].
  destruct (mix_channel ra rb t Ht0 Ht1 Hra Hrb) as (r & -> & Hr & Hr').
  destruct (mix_channel ga gb t Ht0 Ht1 Hga Hgb) as (g & -> & Hg & Hg').
  destruct (mix_channel ba bb t Ht0 Ht1 Hba Hbb) as (b & -> & Hb & Hb').
  split; [|done]. by exists r, g, b.
Qed.

(** X8 for the mix [chooseTextColors] makes: 55% of the way from the accent
    [#E53E3E] to the quote colour [#111827]. *)
Lemma mixRgb_between_witness :
  let a := hexToRgb "#E53E3E" in
  let b := hexToRgb "#111827" in
  byte_rgb (mixRgb a b 0.55)
  /\ between (Rgb.r a) (Rgb.r b) (Rgb.r (mixRgb a b 0.55))
  /\ between (Rgb.g a) (Rgb.g b) (Rgb.g (mixRgb a b 0.55))
  /\ between (Rgb.b a) (Rgb.b b) (Rgb.b (mixRgb a b 0.55)).
Proof.
  apply (mixRgb_between (hexToRgb "#E53E3E") (hexToRgb "#111827") 0.55).
  - vm_compute. discriminate.
  - vm_compute. discriminate.
  - exists 229%Z, 62%Z, 62%Z. split; [reflexivity|lia].
  - exists 17%Z, 24%Z, 39%Z. split; [reflexivity|lia].
Defined.

Lemma to_uint8_clamped_byte x : (0 <= to_uint8_clamped x <= 255)%Z.
Proof.
  unfold to_uint8_clamped.
  destruct (ltb_cases x 0) as [[-> _]|[-> H0]]; [lia|].
  destruct (ltb_cases 255 x) as [[-> _]|[-> H255]]; [lia|].
  cbv zeta.
  pose proof (Qfloor_le x) as Hf. pose proof (Qlt_floor x) as Hc.
  rewrite inject_Z_plus in Hc. change (inject_Z 1) with 1 in Hc.
  assert (Hlo : (0 <= Qfloor x)%Z).
  { apply Z.lt_succ_r. rewrite Zlt_Qlt. unfold Z.succ.
    rewrite inject_Z_plus. change (inject_Z 1) with 1. change (inject_Z 0) with 0.
    lra. }
  assert (Hhi : (Qfloor x <= 255)%Z).
  { rewrite Zle_Qle. change (inject_Z 255) with 255. lra. }
  assert (Hup : (1 # 2) <= x - inject_Z (Qfloor x) -> (Qfloor x + 1 <= 255)%Z).
  { intros Hd. apply Z.lt_succ_r. rewrite Zlt_Qlt. unfold Z.succ.
    rewrite !inject_Z_plus. change (inject_Z 1) with 1.
    change (inject_Z 255) with 255. lra. }
  destruct (ltb_cases (x - inject_Z (Qfloor x)) (1 # 2)) as [[-> _]|[-> Hd]];
    [lia|].
  destruct (ltb (1 # 2) _); [specialize (Hup Hd); lia|].
  destruct (Z.even _); [lia | specialize (Hup Hd); lia].
Qed.

(** Four bytes to a pixel: the positions of the alpha bytes. *)
Lemma grain_pixels h amount seed n :
  forall data i,
    (length data <= n)%nat ->
    length (grain h amount seed i data) = length data
    /\ (forall k, (k mod 4 = 3)%nat ->
          nth_error (grain h amount seed i data) k = nth_error data k)
    /\ (forall k v, (k mod 4 <> 3)%nat ->
          nth_error (grain h amount seed i data) k = Some v ->
          (0 <= v <= 255)%Z).
Proof.
  induction n as [|n IH]; intros data i Hlen.
  - destruct data; [|cbn in Hlen; lia]. cbn. split; [done|]. split; [done|].
    intros k v _ Hk. by destruct k.
  - destruct data as [|r0 [|g0 [|b0 [|a0 rest]]]].
    + cbn. split; [done|]. split; [done|]. intros k v _ Hk. by destruct k.
    + cbn. split; [done|]. split.
      * intros [|k] Hk; [cbn in Hk; lia|]. by destruct k.
      * intros [|[|k]] v _ [= <-]. apply to_uint8_clamped_byte.
    + cbn. split; [done|]. split.
      * intros [|[|k]] Hk; try (cbn in Hk; lia). by destruct k.
      * intros [|[|[|k]]] v _ [= <-]; apply to_uint8_clamped_byte.
    + cbn. split; [done|]. split.
      * intros [|[|[|k]]] Hk; try (cbn in Hk; lia). by destruct k.
      * intros [|[|[|[|k]]]] v _ [= <-]; apply to_uint8_clamped_byte.
    + destruct (IH rest (i + 4)) as (H1 & H2 & H3); [cbn in Hlen; lia|].
      change (grain h amount seed i (r0 :: g0 :: b0 :: a0 :: rest))
        with (let n0 := (seededRandom h (seed + i) - 0.5) * 255 * amount in
              let put v := to_uint8_clamped (Qmax 0 (Qmin 255 (inject_Z v + n0))) in
              put r0 :: put g0 :: put b0 :: a0
                :: grain h amount seed (i + 4) rest).
      cbv zeta. split; [|split].
      * cbn [length]. by rewrite H1.
      * intros [|[|[|[|k]]]] Hk; try (cbn in Hk; lia); [done|].
        cbn [nth_error]. apply H2.
        replace (S (S (S (S k)))) with (k + 1 * 4)%nat in Hk by lia.
        by rewrite Nat.Div0.mod_add in Hk.
      * intros [|[|[|[|k]]]] v Hk Hv; cbn [nth_error] in Hv.
        -- injection Hv as <-. apply to_uint8_clamped_byte.
        -- injection Hv as <-. apply to_uint8_clamped_byte.
        -- injection Hv as <-. apply to_uint8_clamped_byte.
        -- cbn in Hk. lia.
        -- apply (H3 k v); [|done].
           replace (S (S (S (S k)))) with (k + 1 * 4)%nat in Hk by lia.
           by rewrite Nat.Div0.mod_add in Hk.
Qed.

(** X9.  [addGrain] reads the bitmap once and writes it back once, with as
    many bytes as it read: every alpha byte as it was, every colour byte a
    whole number from 0 to 255; it issues no other call. *)
Theorem addGrain_keeps_alpha h w ht amount seed c :
  let data := imageData h (Canvas.width c) (Canvas.height c) (log c) 0 0 w ht in
  exists out,
    log (addGrain h w ht amount seed c).2 = log c ++ [PutImageData out 0 0]
    /\ length out = length data
    /\ (forall k, (k mod 4 = 3)%nat -> nth_error out k = nth_error data k)
    /\ (forall k v, (k mod 4 <> 3)%nat -> nth_error out k = Some v ->
          (0 <= v <= 255)%Z).
Proof.
  intros data. eexists. split; [reflexivity|].
  apply (grain_pixels h amount seed (length data)). done.
Qed.
(** ** The text block *)

(** X12.  Under the frame layout the text can leave the card: the height
    is measured with the quote wrapped at the full line width, the quote is
    drawn wrapped at the narrower line of the frame.  Fourteen words that
    measure as seven lines are drawn as fourteen; the card stays 1080 high
    and the block, started at the top of the safe zone, ends below the
    bottom edge. *)
Lemma framed_text_block_overflows :
  let h := plain_host 255 in
  let p := default_page "balanced" in
  let out :=
    Generator.renderCard h p (resize 300 150) fourteen_words "" bordered_design
      Generator.square 26 None in
  let W := Canvas.width out in
  let H := Canvas.height out in
  In (Generator.Design.layout bordered_design) narrow_layouts
  /\ H == 1080
  /\ length (quote_lines h p W H fourteen_words bordered_design) = 14%nat
  /\ text_y h p W H fourteen_words "" bordered_design == W * 0.1 * 0.9
  /\ H < text_y h p W H fourteen_words "" bordered_design
         + block_height h p W H fourteen_words "" bordered_design.
Proof.
  cbv zeta. split; [cbn; tauto|].
  split; [by vm_compute|]. split; [by vm_compute|].
  split; by vm_compute.
Qed.

(** ** Resizing a card *)

Lemma whole_max x y : whole x -> whole y -> whole (Qmax x y).
Proof.
  intros Hx Hy. destruct (Q.max_dec x y) as [E|E]; unfold whole in *.
  - destruct Hx as [z Hz]. exists z. by rewrite E.
  - destruct Hy as [z Hz]. exists z. by rewrite E.
Qed.

Lemma whole_min x y : whole x -> whole y -> whole (Qmin x y).
Proof.
  intros Hx Hy. destruct (Q.min_dec x y) as [E|E]; unfold whole in *.
  - destruct Hx as [z Hz]. exists z. by rewrite E.
  - destruct Hy as [z Hz]. exists z. by rewrite E.
Qed.

Lemma whole_inject z : whole (inject_Z z).
Proof. by exists z. Qed.

Lemma whole_minWidth format :
  whole (Generator.Format.minWidth (Generator.FORMATS format)).
Proof. destruct format; [exists 1080%Z | exists 1080%Z | exists 1600%Z]; done. Qed.

Lemma whole_minHeight format :
  whole (Generator.Format.minHeight (Generator.FORMATS format)).
Proof. destruct format; [exists 1080%Z | exists 1350%Z | exists 900%Z]; done. Qed.

(** X13.  The size a drag stores for a card: the height is the height at
    pointer-down; the width is a whole number, at most the widest export
    the panel leaves room for (the floor of the rounded quotient of the
    room by 0.28), and at least the minimum of the format when that cap is
    not below it; the preview is at least 260 pixels wide, and at most the
    room of the panel when that is 260 or more. *)
Theorem dragSize_bounds d clientX format rightPanel :
  let st := Generator.dragSize d clientX format rightPanel in
  let minW := Generator.Format.minWidth (Generator.FORMATS format) in
  exists w pw,
    Generator.CardState.w st = Some w
    /\ Generator.CardState.h st = Some (Generator.Drag.startH d)
    /\ Generator.CardState.previewW st = Some pw
    /\ whole w
    /\ w <= Generator.maxExportW rightPanel
    /\ (minW <= Generator.maxExportW rightPanel -> minW <= w)
    /\ 260 <= pw
    /\ (260 <= Generator.maxPreview rightPanel ->
        pw <= Generator.maxPreview rightPanel).
Proof.
  cbv zeta. unfold Generator.dragSize. cbv zeta. cbn [Generator.CardState.w
    Generator.CardState.h Generator.CardState.previewW].
  eexists _, _. split; [reflexivity|]. split; [reflexivity|].
  split; [reflexivity|]. unfold Generator.dragWidth. cbv zeta.
  split.
  { apply whole_min; [apply whole_max; [apply whole_minWidth|apply whole_inject]|].
    apply whole_inject. }
  split; [apply Q.le_min_r|].
  split.
  { intros Hroom. apply Q.min_glb; [apply Q.le_max_l|done]. }
  unfold Generator.clamp. split; [apply Q.le_max_l|].
  intros Hroom. apply Q.max_lub; [done|apply Q.le_min_l].
Qed.

(** The cap for panels 504 and 756 pixels wide: the quotients [448 / 0.28]
    and [700 / 0.28] round to numbers below 1600 and 2500. *)
Example maxExportW_rounds_down :
  Generator.maxExportW (Some 504) = 1599
  /\ Generator.maxExportW (Some 756) = 2499.
Proof. split; vm_compute; reflexivity. Qed.

(** X14.  The canvas of a card of the generator gets whole-number sizes:
    when the size override, if any, holds whole numbers, the width and the
    height [renderCard] assigns are whole numbers, so the canvas keeps
    them as they are. *)
Theorem renderCard_whole_size h p canvas quote author design format radius so :
  whole_size so ->
  let out := Generator.renderCard h p canvas quote author design format radius so in
  whole (Canvas.width out) /\ whole (Canvas.height out).
Proof.
  intros Hso. cbv zeta.
  destruct (renderCard_canvas_size h p canvas quote author design format radius so)
    as [Hw Hh].
  cbv zeta in Hw, Hh. rewrite Hw, Hh.
  unfold Generator.requestedWidth, Generator.requestedHeight,
    Generator.override_w, Generator.override_h, Generator.ceil. cbv zeta.
  split.
  - apply whole_max; [apply whole_minWidth|].
    destruct so as [st|]; [|apply whole_minWidth]. destruct Hso as [Hsw _].
    destruct (Generator.CardState.w st) as [w|]; [by apply Hsw|].
    apply whole_minWidth.
  - apply whole_max; [|apply whole_inject].
    apply whole_max; [apply whole_minHeight|].
    destruct so as [st|]; [|apply whole_minHeight]. destruct Hso as [_ Hsh].
    destruct (Generator.CardState.h st) as [ht|]; [by apply Hsh|].
    apply whole_minHeight.
Qed.

(** X14 for a card dragged to 1200 by 1080. *)
Lemma renderCard_whole_size_witness :
  let so :=
    Some {| Generator.CardState.w := Some 1200;
            Generator.CardState.h := Some 1080;
            Generator.CardState.previewW := Some 336 |} in
  let out :=
    Generator.renderCard (plain_host 255) (default_page "balanced")
      (resize 300 150) "Thank you" "Jane" first_design Generator.square 26 so in
  whole_size so /\ whole (Canvas.width out) /\ whole (Canvas.height out).
Proof.
  assert (H : whole_size
                (Some {| Generator.CardState.w := Some 1200;
                         Generator.CardState.h := Some 1080;
                         Generator.CardState.previewW := Some 336 |})).
  { split; intros x [= <-]; [exists 1200%Z | exists 1080%Z]; reflexivity. }
  split; [exact H|].
  apply (renderCard_whole_size (plain_host 255) (default_page "balanced")
           (resize 300 150) "Thank you" "Jane" first_design Generator.square 26
           _ H).
Defined.

(** ** The grid of the generator *)

Lemma makeDesigns_length h p count :
  exists designs,
    Generator.makeDesigns h p count = Some designs /\ length designs = count.
Proof.
  destruct (design_loop_ok h p (Generator.Page.now p) (seq 0 count) [] ∅)
    as (run & Hrun & _ & Hlen).
  { constructor. }
  { intros k. cbn. set_solver. }
  exists (map Generator.Attempt.design run).
  unfold Generator.makeDesigns, Generator.makeDesigns_run. cbv zeta.
  rewrite Hrun. split; [done|].
  rewrite length_map, Hlen, length_seq. cbn. lia.
Qed.

Lemma rebuild_all h p designs states cards :
  Forall (fun i => (i < length designs)%nat) cards ->
  exists built,
    Generator.rebuild h p designs states cards = Some built
    /\ Forall2 (fun i card =>
                  Generator.drawCard h p designs states i (resize 300 150)
                  = Some card) cards built.
Proof.
  induction cards as [|i rest IH]; intros Hin.
  - exists []. split; [done|constructor].
  - apply Forall_cons in Hin as [Hi Hrest].
    destruct (IH Hrest) as (built & Hbuilt & Hall).
    destruct (lookup_lt_is_Some_2 designs i Hi) as [design Hd].
    cbn [Generator.rebuild]. unfold Generator.drawCard at 1. cbv zeta.
    rewrite Hd. cbn [mbind option_bind]. rewrite Hbuilt. cbn [mbind option_bind].
    eexists. split; [reflexivity|]. constructor; [|done].
    unfold Generator.drawCard. cbv zeta. by rewrite Hd.
Qed.

(** The designs and sizes [renderAll] goes on with. *)
Lemma renderAll_designs h p newDesigns s :
  let count := Generator.Page.countSelect p in
  exists designs states,
    (if (newDesigns
         || negb (length (Generator.State.designsCache s) =? count)%nat)%bool
     then
       designs ← Generator.makeDesigns h p count;
       Some (designs, replicate count (Some Generator.no_size))
     else Some (Generator.State.designsCache s, Generator.State.cardState s))
    = Some (designs, states)
    /\ length designs = count
    /\ (newDesigns = false ->
        length (Generator.State.designsCache s) = count ->
        designs = Generator.State.designsCache s
        /\ states = Generator.State.cardState s).
Proof.
  cbv zeta.
  destruct newDesigns.
  - cbn [orb]. destruct (makeDesigns_length h p (Generator.Page.countSelect p))
      as (designs & -> & Hlen).
    eexists _, _. split; [reflexivity|]. split; [done|]. done.
  - cbn [orb].
    destruct (Nat.eqb_spec (length (Generator.State.designsCache s))
                (Generator.Page.countSelect p)) as [E|E]; cbn [negb].
    + eexists _, _. split; [reflexivity|]. done.
    + destruct (makeDesigns_length h p (Generator.Page.countSelect p))
        as (designs & -> & Hlen).
      eexists _, _. split; [reflexivity|]. split; [done|]. done.
Qed.

(** X15.  A full [renderAll] with a quote that is not blank never throws
    and leaves the grid in step with the designs: as many designs and
    cards as the count select says, card [i] drawn on a fresh canvas from
    design [i] at the size kept for it.  Without [newDesigns], and with as
    many designs cached as the count, the designs and the dragged sizes
    are kept: editing the text does not reshuffle the styles. *)
Theorem renderAll_rebuilds h p newDesigns s :
  truthy (trim (Generator.Page.quoteText p)) = true ->
  let count := Generator.Page.countSelect p in
  exists s',
    Generator.renderAll h p newDesigns None s = Some s'
    /\ length (Generator.State.designsCache s') = count
    /\ length (Generator.State.domCards s') = count
    /\ (forall i, (i < count)%nat ->
          exists design card,
            Generator.State.designsCache s' !! i = Some design
            /\ Generator.State.domCards s' !! i = Some card
            /\ Generator.DomCard.canvas card
               = Generator.renderCard h p (resize 300 150)
                   (Generator.Page.quoteText p) (Generator.Page.authorText p)
                   design (Generator.Page.formatSelect p)
                   (Generator.Page.radiusSelect p)
                   (Generator.at_index (Generator.State.cardState s') i))
    /\ (newDesigns = false ->
        length (Generator.State.designsCache s) = count ->
        Generator.State.designsCache s' = Generator.State.designsCache s
        /\ Generator.State.cardState s' = Generator.State.cardState s).
Proof.
  intros Hq. cbv zeta. unfold Generator.renderAll. cbv zeta. rewrite Hq.
  cbn [negb].
  destruct (renderAll_designs h p newDesigns s) as (designs & states & -> & Hlen & Hkeep).
  cbn [mbind option_bind].
  destruct (rebuild_all h p designs states (seq 0 (Generator.Page.countSelect p)))
    as (built & -> & Hall).
  { apply Forall_forall. intros i Hi%elem_of_seq. lia. }
  cbn [mbind option_bind]. eexists. split; [reflexivity|].
  cbn [Generator.State.designsCache Generator.State.domCards
       Generator.State.cardState].
  split; [done|].
  assert (Hb : length built = Generator.Page.countSelect p).
  { apply Forall2_length in Hall. by rewrite length_seq in Hall. }
  split; [done|]. split; [|done].
  intros i Hi.
  destruct (lookup_lt_is_Some_2 designs i) as [design Hd]; [lia|].
  destruct (lookup_lt_is_Some_2 built i) as [card Hc]; [lia|].
  exists design, card. split; [done|]. split; [done|].
  assert (Hs : seq 0 (Generator.Page.countSelect p) !! i = Some i).
  { by apply lookup_seq. }
  pose proof (Forall2_lookup_lr _ _ _ _ _ _ Hall Hs Hc) as Hdraw.
  unfold Generator.drawCard in Hdraw. cbv zeta in Hdraw. rewrite Hd in Hdraw.
  cbn [mbind option_bind] in Hdraw. by injection Hdraw as <-.
Qed.

(** X15 for the default page with the quote [Thank you]. *)
Lemma renderAll_rebuilds_witness :
  let p :=
    {| Generator.Page.quoteText := "Thank you";
       Generator.Page.authorText := "Jane";
       Generator.Page.formatSelect := Generator.square;
       Generator.Page.countSelect := 6;
       Generator.Page.radiusSelect := 26;
       Generator.Page.stylePack := "balanced";
       Generator.Page.liveUpdate := true;
       Generator.Page.quoteSize := 95;
       Generator.Page.authorSize := 105;
       Generator.Page.now := 1700000000000 |} in
  let s :=
    {| Generator.State.designsCache := [];
       Generator.State.cardState := [];
       Generator.State.domCards := [];
       Generator.State.toast := None |} in
  truthy (trim (Generator.Page.quoteText p)) = true
  /\ exists s',
       Generator.renderAll (plain_host 255) p true None s = Some s'
       /\ length (Generator.State.designsCache s') = 6%nat
       /\ length (Generator.State.domCards s') = 6%nat.
Proof.
  cbv zeta. split; [reflexivity|].
  destruct (renderAll_rebuilds (plain_host 255)
              {| Generator.Page.quoteText := "Thank you";
                 Generator.Page.authorText := "Jane";
                 Generator.Page.formatSelect := Generator.square;
                 Generator.Page.countSelect := 6;
                 Generator.Page.radiusSelect := 26;
                 Generator.Page.stylePack := "balanced";
                 Generator.Page.liveUpdate := true;
                 Generator.Page.quoteSize := 95;
                 Generator.Page.authorSize := 105;
                 Generator.Page.now := 1700000000000 |}
              true
              {| Generator.State.designsCache := [];
                 Generator.State.cardState := [];
                 Generator.State.domCards := [];
                 Generator.State.toast := None |} eq_refl)
    as (s' & H1 & H2 & H3 & _).
  exists s'. split; [exact H1|]. split; [exact H2|exact H3].
Defined.

Lemma renderAll_one_card h p i item s :
  truthy (trim (Generator.Page.quoteText p)) = true ->
  length (Generator.State.designsCache s) = Generator.Page.countSelect p ->
  (i < Generator.Page.countSelect p)%nat ->
  Generator.State.domCards s !! i = Some item ->
  exists card,
    Generator.renderAll h p false (Some i) s
    = Some {| Generator.State.designsCache := Generator.State.designsCache s;
              Generator.State.cardState := Generator.State.cardState s;
              Generator.State.domCards := <[i := card]> (Generator.State.domCards s);
              Generator.State.toast := Generator.State.toast s |}
    /\ Generator.drawCard h p (Generator.State.designsCache s)
         (Generator.State.cardState s) i (resize 300 150)
       = Some card.
Proof.
  intros Hq Hlen Hi Hitem. unfold Generator.renderAll. cbv zeta. rewrite Hq.
  cbn [negb orb]. rewrite Hlen, Nat.eqb_refl. cbn [negb mbind option_bind].
  rewrite Hitem.
  destruct (lookup_lt_is_Some_2 (Generator.State.designsCache s) i) as [design Hd];
    [lia|].
  unfold Generator.drawCard. cbv zeta. rewrite Hd. cbn [mbind option_bind].
  rewrite (renderCard_inputs h p p (Generator.DomCard.canvas item) (resize 300 150))
    by reflexivity.
  eexists. split; reflexivity.
Qed.

(** X16.  Redrawing one card: with a quote that is not blank, as many
    designs cached as the count, and a card [i] in the grid, [renderAll]
    for that card alone keeps the designs, the sizes, the toast and every
    other card, and puts in its place the very card a full rebuild draws
    for [i]: the canvas drawn on makes no difference. *)
Theorem renderAll_redraws_one h p i item s :
  truthy (trim (Generator.Page.quoteText p)) = true ->
  length (Generator.State.designsCache s) = Generator.Page.countSelect p ->
  (i < Generator.Page.countSelect p)%nat ->
  Generator.State.domCards s !! i = Some item ->
  exists card,
    Generator.renderAll h p false (Some i) s
    = Some {| Generator.State.designsCache := Generator.State.designsCache s;
              Generator.State.cardState := Generator.State.cardState s;
              Generator.State.domCards := <[i := card]> (Generator.State.domCards s);
              Generator.State.toast := Generator.State.toast s |}
    /\ Generator.drawCard h p (Generator.State.designsCache s)
         (Generator.State.cardState s) i (resize 300 150)
       = Some card.
Proof. apply renderAll_one_card. Qed.

(** X16 for the second of six cards. *)
Lemma renderAll_redraws_one_witness :
  let p :=
    {| Generator.Page.quoteText := "Thank you";
       Generator.Page.authorText := "Jane";
       Generator.Page.formatSelect := Generator.square;
       Generator.Page.countSelect := 6;
       Generator.Page.radiusSelect := 26;
       Generator.Page.stylePack := "balanced";
       Generator.Page.liveUpdate := true;
       Generator.Page.quoteSize := 95;
       Generator.Page.authorSize := 105;
       Generator.Page.now := 1700000000000 |} in
  let item :=
    {| Generator.DomCard.canvas := resize 1080 1080;
       Generator.DomCard.previewW := 302 |} in
  let s :=
    {| Generator.State.designsCache := replicate 6 first_design;
       Generator.State.cardState := replicate 6 (Some Generator.no_size);
       Generator.State.domCards := replicate 6 item;
       Generator.State.toast := None |} in
  exists card,
    Generator.renderAll (plain_host 255) p false (Some 1%nat) s
    = Some {| Generator.State.designsCache := Generator.State.designsCache s;
              Generator.State.cardState := Generator.State.cardState s;
              Generator.State.domCards := <[1%nat := card]> (Generator.State.domCards s);
              Generator.State.toast := Generator.State.toast s |}
    /\ Generator.drawCard (plain_host 255) p (Generator.State.designsCache s)
         (Generator.State.cardState s) 1 (resize 300 150)
       = Some card.
Proof.
  cbv zeta.
  apply (renderAll_redraws_one (plain_host 255) _ 1
           {| Generator.DomCard.canvas := resize 1080 1080;
              Generator.DomCard.previewW := 302 |});
    [reflexivity | reflexivity | cbn; lia | reflexivity].
Defined.

Lemma at_index_assign {T} (arr : list (option T)) i (v : T) :
  Generator.at_index (Generator.assign arr i v) i = Some v
  /\ forall j, j <> i ->
       Generator.at_index (Generator.assign arr i v) j = Generator.at_index arr j.
Proof.
  unfold Generator.at_index, Generator.assign.
  destruct (Nat.ltb_spec i (length arr)) as [Hlt|Hge].
  - split.
    + by rewrite list_lookup_insert_eq.
    + intros j Hj. by rewrite list_lookup_insert_ne.
  - split.
    + rewrite lookup_app_r by done.
      rewrite lookup_app_r by (rewrite length_replicate; lia).
      rewrite length_replicate.
      by replace (i - length arr - (i - length arr))%nat with 0%nat by lia.
    + intros j Hj. destruct (Nat.lt_ge_cases j (length arr)) as [Hj1|Hj1].
      * by rewrite lookup_app_l.
      * rewrite lookup_app_r by done.
        rewrite (lookup_ge_None_2 arr j) by done. cbn.
        destruct (Nat.lt_ge_cases (j - length arr) (i - length arr)) as [Hj2|Hj2].
        -- rewrite lookup_app_l by (by rewrite length_replicate).
           by rewrite lookup_replicate_2.
        -- rewrite lookup_app_r by (by rewrite length_replicate).
           rewrite length_replicate.
           destruct (j - length arr - (i - length arr))%nat as [|k] eqn:E; [lia|].
           done.
Qed.

(** X17.  A pointer move during a drag: with a quote that is not blank, as
    many designs cached as the count, and the dragged card [index] in the
    grid, [onMove] does not throw, and either leaves the page as it is
    (the size is the size kept already) or keeps the designs, stores the
    new size for the card and redraws that card alone, on a canvas as
    wide as the dragged width, never narrower than the minimum of the
    format nor wider than the panel allows, and at least as high as at
    pointer-down. *)
Theorem onMove_resizes h p d clientX rightPanel index item s :
  Generator.Drag.dragging d = true ->
  truthy (trim (Generator.Page.quoteText p)) = true ->
  length (Generator.State.designsCache s) = Generator.Page.countSelect p ->
  (index < Generator.Page.countSelect p)%nat ->
  Generator.State.domCards s !! index = Some item ->
  let format := Generator.Page.formatSelect p in
  let minW := Generator.Format.minWidth (Generator.FORMATS format) in
  exists s',
    Generator.onMove h p d clientX rightPanel index s = Some s'
    /\ (s' = s
        \/ exists card,
             Generator.State.designsCache s' = Generator.State.designsCache s
             /\ Generator.at_index (Generator.State.cardState s') index
                = Some (Generator.dragSize d clientX format rightPanel)
             /\ (forall j, j <> index ->
                   Generator.at_index (Generator.State.cardState s') j
                   = Generator.at_index (Generator.State.cardState s) j)
             /\ Generator.State.domCards s'
                = <[index := card]> (Generator.State.domCards s)
             /\ Canvas.width (Generator.DomCard.canvas card)
                = Qmax minW (Generator.dragWidth d clientX format rightPanel)
             /\ minW <= Canvas.width (Generator.DomCard.canvas card)
             /\ Canvas.width (Generator.DomCard.canvas card)
                <= Qmax minW (Generator.maxExportW rightPanel)
             /\ Generator.Drag.startH d
                <= Canvas.height (Generator.DomCard.canvas card)).
Proof.
  intros Hdrag Hq Hlen Hi Hitem. cbv zeta. unfold Generator.onMove. cbv zeta.
  rewrite Hdrag. cbn [negb].
  destruct (Generator.same_size _ _ _); [by exists s; split; [|left]|].
  set (st := Generator.dragSize d clientX (Generator.Page.formatSelect p) rightPanel).
  set (s1 := {| Generator.State.designsCache := Generator.State.designsCache s;
                Generator.State.cardState :=
                  Generator.assign (Generator.State.cardState s) index st;
                Generator.State.domCards := Generator.State.domCards s;
                Generator.State.toast := Generator.State.toast s |}).
  destruct (renderAll_one_card h p index item s1 Hq Hlen Hi Hitem)
    as (card & Hrender & Hcard).
  eexists. split; [exact Hrender|]. right. exists card.
  cbn [Generator.State.designsCache Generator.State.cardState
       Generator.State.domCards].
  destruct (at_index_assign (Generator.State.cardState s) index st) as [Hat Hother].
  split; [done|]. split; [done|]. split; [done|]. split; [done|].
  unfold Generator.drawCard in Hcard. cbv zeta in Hcard.
  subst s1. cbn [Generator.State.designsCache Generator.State.cardState] in Hcard.
  rewrite Hat in Hcard.
  destruct (Generator.State.designsCache s !! index) as [design|]; [|done].
  cbn [mbind option_bind] in Hcard. injection Hcard as <-.
  cbn [Generator.DomCard.canvas].
  destruct (renderCard_canvas_size h p (resize 300 150)
              (Generator.Page.quoteText p) (Generator.Page.authorText p) design
              (Generator.Page.formatSelect p) (Generator.Page.radiusSelect p)
              (Some st)) as [Hw Hh].
  cbv zeta in Hw, Hh. rewrite Hw, Hh.
  unfold Generator.requestedWidth, Generator.requestedHeight. cbv zeta.
  change (Generator.override_w (Some st) _)
    with (Generator.dragWidth d clientX (Generator.Page.formatSelect p) rightPanel).
  change (Generator.override_h (Some st) _) with (Generator.Drag.startH d).
  split; [done|]. split; [apply Q.le_max_l|]. split.
  - apply Q.max_le_compat_l. unfold Generator.dragWidth. cbv zeta.
    apply Q.le_min_r.
  - eapply Qle_trans; [apply Q.le_max_r|]. apply Q.le_max_l.
Qed.

(** X17 for a drag of the second of six square cards, 100 pixels to the
    right at scale 1, in a panel 1256 pixels wide. *)
Lemma onMove_resizes_witness :
  let p :=
    {| Generator.Page.quoteText := "Thank you";
       Generator.Page.authorText := "Jane";
       Generator.Page.formatSelect := Generator.square;
       Generator.Page.countSelect := 6;
       Generator.Page.radiusSelect := 26;
       Generator.Page.stylePack := "balanced";
       Generator.Page.liveUpdate := true;
       Generator.Page.quoteSize := 95;
       Generator.Page.authorSize := 105;
       Generator.Page.now := 1700000000000 |} in
  let item :=
    {| Generator.DomCard.canvas := resize 1080 1080;
       Generator.DomCard.previewW := 302 |} in
  let s :=
    {| Generator.State.designsCache := replicate 6 first_design;
       Generator.State.cardState := replicate 6 (Some Generator.no_size);
       Generator.State.domCards := replicate 6 item;
       Generator.State.toast := None |} in
  let d := Generator.onDown 500 400 (resize 1080 1080) 1080 in
  Generator.Drag.dragging d = true
  /\ exists s',
       Generator.onMove (plain_host 255) p d 600 (Some 1256) 1 s = Some s'
       /\ (s' = s
           \/ exists card,
                Generator.State.designsCache s' = Generator.State.designsCache s
                /\ Generator.State.domCards s'
                   = <[1%nat := card]> (Generator.State.domCards s)
                /\ Generator.Drag.startH d
                   <= Canvas.height (Generator.DomCard.canvas card)).
Proof.
  cbv zeta. split; [reflexivity|].
  destruct (onMove_resizes (plain_host 255)
              {| Generator.Page.quoteText := "Thank you";
                 Generator.Page.authorText := "Jane";
                 Generator.Page.formatSelect := Generator.square;
                 Generator.Page.countSelect := 6;
                 Generator.Page.radiusSelect := 26;
                 Generator.Page.stylePack := "balanced";
                 Generator.Page.liveUpdate := true;
                 Generator.Page.quoteSize := 95;
                 Generator.Page.authorSize := 105;
                 Generator.Page.now := 1700000000000 |}
              (Generator.onDown 500 400 (resize 1080 1080) 1080) 600 (Some 1256)
              1
              {| Generator.DomCard.canvas := resize 1080 1080;
                 Generator.DomCard.previewW := 302 |}
              {| Generator.State.designsCache := replicate 6 first_design;
                 Generator.State.cardState := replicate 6 (Some Generator.no_size);
                 Generator.State.domCards :=
                   replicate 6 {| Generator.DomCard.canvas := resize 1080 1080;
                                  Generator.DomCard.previewW := 302 |};
                 Generator.State.toast := None |}
              eq_refl eq_refl eq_refl)
    as (s' & Hs' & Hcases); [cbn; lia | reflexivity |].
  exists s'. split; [exact Hs'|].
  destruct Hcases as [->|(card & H1 & _ & _ & H4 & _ & _ & _ & H8)];
    [by left|].
  right. exists card. split; [exact H1|]. split; [exact H4|exact H8].
Defined.

(** ** From the generator to the wall *)

Lemma tokens_from_leading ws s :
  blank ws = true -> tokens_from "" (ws +:+ s) = tokens_from "" s.
Proof.
  unfold blank. induction ws as [|c ws IH]; [done|].
  cbn [chars list_ascii_of_string forallb]. intros [Hc Hws]%andb_true_iff.
  rewrite app_cons. cbn [tokens_from]. rewrite Hc. cbn. by apply IH.
Qed.

Lemma tokens_from_trailing ws :
  blank ws = true ->
  forall s piece, tokens_from piece (s +:+ ws) = tokens_from piece s.
Proof.
  intros Hws. induction s as [|c s IH]; intros piece.
  - rewrite app_nil_l. revert piece.
    unfold blank in Hws. induction ws as [|c ws IHws]; intros piece; [done|].
    cbn [chars list_ascii_of_string forallb] in Hws.
    apply andb_true_iff in Hws as [Hc Hws].
    cbn [tokens_from]. rewrite Hc.
    destruct (truthy piece); by rewrite (IHws Hws "").
  - rewrite app_cons. cbn [tokens_from].
    destruct (is_space c); [destruct (truthy piece)|]; by rewrite IH.
Qed.

Lemma trim_start_split s :
  exists ws, blank ws = true /\ s = ws +:+ trim_start s.
Proof.
  induction s as [|c s (ws & Hws & IH)]; [by exists ""|].
  cbn [trim_start]. destruct (is_space c) eqn:Hc.
  - exists (String c ws). split.
    + unfold blank in *. cbn. by rewrite Hc.
    + by rewrite app_cons, <- IH.
  - by exists "".
Qed.

Lemma reverse_involutive s : reverse (reverse s) = s.
Proof.
  unfold reverse, chars.
  by rewrite list_ascii_of_string_of_list_ascii, rev_involutive,
    string_of_list_ascii_of_string.
Qed.

Lemma chars_string_of_list l : chars (string_of_list_ascii l) = l.
Proof. apply list_ascii_of_string_of_list_ascii. Qed.

Lemma string_of_list_app l1 l2 :
  string_of_list_ascii (l1 ++ l2)
  = string_of_list_ascii l1 +:+ string_of_list_ascii l2.
Proof. induction l1 as [|c l1 IH]; [done|]. cbn. by rewrite app_cons, IH. Qed.

Lemma reverse_app s1 s2 : reverse (s1 +:+ s2) = reverse s2 +:+ reverse s1.
Proof. unfold reverse. by rewrite chars_app, rev_app_distr, string_of_list_app. Qed.

Lemma blank_reverse s : blank s = true -> blank (reverse s) = true.
Proof.
  unfold blank, reverse. rewrite chars_string_of_list.
  rewrite !forallb_forall. intros H c Hc. apply H. by apply in_rev.
Qed.

(** Trimming strips whitespace at the two ends only. *)
Lemma trim_split s :
  exists ws1 ws2,
    blank ws1 = true /\ blank ws2 = true /\ s = ws1 +:+ trim s +:+ ws2.
Proof.
  destruct (trim_start_split s) as (ws1 & H1 & Hs).
  destruct (trim_start_split (reverse (trim_start s))) as (ws2 & H2 & Hr).
  exists ws1, (reverse ws2). split; [done|]. split; [by apply blank_reverse|].
  unfold trim. rewrite <- reverse_app, <- Hr, reverse_involutive. exact Hs.
Qed.

Lemma tokens_trim s : tokens (trim s) = tokens s.
Proof.
  destruct (trim_split s) as (ws1 & ws2 & H1 & H2 & Hs).
  rewrite Hs at 2. rewrite !tokens_tokens_from.
  by rewrite tokens_from_leading, tokens_from_trailing.
Qed.

Lemma wrap_wall_generator ctx text maxWidth :
  Wall.wrapTextSmart ctx (trim text) maxWidth
  = Generator.wrapTextSmart ctx text maxWidth.
Proof.
  unfold Wall.wrapTextSmart, Generator.wrapTextSmart. rewrite tokens_trim.
  destruct (token_fold_copies ctx maxWidth (tokens text) ([], "")) as [-> ->].
  by destruct (fold_left _ _ _).
Qed.

Lemma or_else_nonzero x d : ~ x == 0 -> Wall.or_else x d = x.
Proof.
  intros Hx. unfold Wall.or_else. destruct (Qeq_bool x 0) eqn:E; [|done].
  by apply Qeq_bool_iff in E.
Qed.

Lemma wall_size_kept x : 1 < x -> Qmax 1 (Wall.or_else x 1) = x.
Proof.
  intros Hx. rewrite or_else_nonzero by lra.
  unfold Qmax, GenericMinMax.gmax. by rewrite (proj1 (Qlt_alt 1 x) Hx).
Qed.

Lemma backdrop_agrees h p W H radius design :
  Generator.Page.stylePack p <> "minimal" ->
  Generator.backdrop h p W H radius design
  = Wall.backdrop h W H radius (Generator.Design.palette design)
      (Generator.Design.gradient design) (Generator.Design.bgType design)
      (Generator.Design.seed design).
Proof.
  intros Hp. unfold Generator.backdrop, Wall.backdrop. cbv zeta.
  apply String.eqb_neq in Hp. by rewrite Hp.
Qed.

Lemma layoutAccents_agrees h W H pad palette layout :
  ~ In layout generator_only_layouts ->
  Generator.layoutAccents h W H pad palette layout
  = Wall.layoutAccents h W H pad palette layout.
Proof.
  intros Hn. unfold Generator.layoutAccents, Wall.layoutAccents. cbv zeta.
  assert (H1 : String.eqb layout "bordered" = false).
  { apply String.eqb_neq. intros E. apply Hn. rewrite E. cbn. tauto. }
  assert (H2 : String.eqb layout "underline" = false).
  { apply String.eqb_neq. intros E. apply Hn. rewrite E. cbn. tauto. }
  assert (H3 : String.eqb layout "footer" = false).
  { apply String.eqb_neq. intros E. apply Hn. rewrite E. cbn. tauto. }
  assert (H4 : String.eqb layout "corner-frame" = false).
  { apply String.eqb_neq. intros E. apply Hn. rewrite E. cbn. tauto. }
  assert (H5 : String.eqb layout "diagonal" = false).
  { apply String.eqb_neq. intros E. apply Hn. rewrite E. cbn. tauto. }
  by rewrite H1, H2, H3, H4, H5.
Qed.

Lemma renderCard_min_size h p canvas quote author design format radius so :
  let out := Generator.renderCard h p canvas quote author design format radius so in
  1 < Canvas.width out /\ 1 < Canvas.height out.
Proof.
  cbv zeta.
  destruct (renderCard_canvas_size h p canvas quote author design format radius so)
    as [Hw Hh].
  cbv zeta in Hw, Hh. rewrite Hw, Hh. split.
  - pose proof (requestedWidth_min format so). lra.
  - eapply Qlt_le_trans; [|apply Q.le_max_l].
    unfold Generator.requestedHeight. cbv zeta.
    eapply Qlt_le_trans; [|apply Q.le_max_l]. by destruct format.
Qed.

Lemma bind_ext_run {A B} (m : Draw A) (k1 k2 : A -> Draw B) c :
  (forall a c', k1 a c' = k2 a c') -> (m ≫= k1) c = (m ≫= k2) c.
Proof. intros Hk. rewrite !bind_run. apply Hk. Qed.

(** The text block of the wall, for the author [author'] of the record, is
    that of the generator. *)
Lemma wall_text_agrees h p W H quote author author' design lay c :
  author' = author ->
  ~ Generator.Page.quoteSize p == 0 ->
  ~ Generator.Page.authorSize p == 0 ->
  (Generator.drawText h p W H quote author design lay ;; restore) c
  = (let quoteMul := Wall.or_else (Generator.Page.quoteSize p) 100 / 100 in
     let authorMul := Wall.or_else (Generator.Page.authorSize p) 100 / 100 in
     let qSize := floor (W * 0.05 * quoteMul) in
     let qLine := qSize * 1.38 in
     let aSize := if truthy (trim author') then floor (W * 0.034 * authorMul) else 0 in
     let font := Generator.Design.font design in
     colors ← chooseTextColors h W H (Generator.Design.palette design);
     emit (SetTextAlign (Layout.align lay)) ;;
     emit (SetTextBaseline "top") ;;
     setFont {| font_weight := None; font_px := qSize;
                font_family := FontPack.quote font |} ;;
     emit (SetFillStyle (Css (TextColors.quoteColor colors))) ;;
     let safeTop := W * 0.1 * 0.9 in
     let safeBottom := H - W * 0.1 * 0.9 in
     textLines ← (fun c =>
       (Wall.wrapTextSmart (measureText h c) (trim quote) (Layout.innerMax lay), c));
     let quoteH := num (length textLines) * qLine in
     let aGap := if truthy (trim author') then aSize * 0.6 else 0 in
     let aBlock := if truthy (trim author') then aSize * 1.6 else 0 in
     let totalH := quoteH + aGap + aBlock in
     let y := Layout.contentY lay - totalH / 2 in
     let y := if ltb y safeTop then safeTop else y in
     let y := if ltb safeBottom (y + totalH) then safeBottom - totalH else y in
     let y := if ltb y safeTop then safeTop else y in
     let x := if String.eqb (Layout.align lay) "left"
              then Layout.contentX lay else W / 2 in
     y ← fillLines textLines x y qLine;
     (if truthy (trim author') then
        let y := y + aGap in
        setFont {| font_weight := Some 800%Z; font_px := aSize;
                   font_family := FontPack.author font |} ;;
        emit (SetFillStyle (Css (TextColors.authorColor colors))) ;;
        emit (FillText author' x y)
      else mret tt) ;;
     restore) c.
Proof.
  intros -> Hq Hs. cbv zeta.
  rewrite !or_else_nonzero by done.
  unfold Generator.drawText, Generator.getQuoteMul, Generator.getAuthorMul,
    Generator.computeSafeStartY. cbv zeta.
  rewrite !bind_run.
  destruct (chooseTextColors h W H (Generator.Design.palette design) c)
    as [colors c3]. cbn [fst snd].
  rewrite ?bind_run. cbn [fst snd].
  rewrite wrap_wall_generator.
  destruct (truthy (trim author)); rewrite ?bind_run; reflexivity.
Qed.

(** X18.  What is uploaded is what the wall shows.  For a card of the
    generator drawn from the page as it stands, with a quote that is not
    blank, an author without whitespace at the ends, a style pack other
    than [minimal], a layout the walls know (none of [bordered],
    [underline], [footer], [corner-frame], [diagonal]) and size
    multipliers other than 0, [uploadToWall] pushes a record from which
    [renderCard] of the wall draws the same canvas: the same size and the
    same calls in the same order. *)
Theorem wall_reproduces_generator
  h p designs index design so canvas0 wallCanvas key iso :
  designs !! index = Some design ->
  truthy (trim (Generator.Page.quoteText p)) = true ->
  trim (Generator.Page.authorText p) = Generator.Page.authorText p ->
  Generator.Page.stylePack p <> "minimal" ->
  ~ In (Generator.Design.layout design) generator_only_layouts ->
  ~ Generator.Page.quoteSize p == 0 ->
  ~ Generator.Page.authorSize p == 0 ->
  let canvas :=
    Generator.renderCard h p canvas0 (Generator.Page.quoteText p)
      (Generator.Page.authorText p) design (Generator.Page.formatSelect p)
      (Generator.Page.radiusSelect p) so in
  exists card,
    Generator.uploadToWall p designs canvas index key iso true
    = Generator.Pushed card
    /\ Wall.renderCard h (Some wallCanvas) card = Some canvas.
Proof.
  intros Hd Hq Ha Hp Hl Hqs Has. cbv zeta.
  unfold Generator.uploadToWall. cbv zeta. rewrite Hq, Hd. cbn [negb].
  eexists. split; [reflexivity|].
  unfold Wall.renderCard. cbv zeta.
  cbn [Wall.CardData.width Wall.CardData.height Wall.CardData.palette
       Wall.CardData.gradient Wall.CardData.font Wall.CardData.bgType
       Wall.CardData.layout Wall.CardData.seed Wall.CardData.radius
       Wall.CardData.quoteSizeMultiplier Wall.CardData.authorSizeMultiplier
       Wall.CardData.quote Wall.CardData.author].
  destruct (renderCard_min_size h p canvas0 (Generator.Page.quoteText p)
              (Generator.Page.authorText p) design (Generator.Page.formatSelect p)
              (Generator.Page.radiusSelect p) so) as [HW HH].
  cbv zeta in HW, HH.
  rewrite !(wall_size_kept _ HW), !(wall_size_kept _ HH).
  destruct (renderCard_canvas_size h p canvas0 (Generator.Page.quoteText p)
              (Generator.Page.authorText p) design (Generator.Page.formatSelect p)
              (Generator.Page.radiusSelect p) so) as [Hw Hh].
  cbv zeta in Hw, Hh. rewrite Hw, Hh. clear HW HH Hw Hh.
  f_equal. unfold Generator.renderCard. cbv zeta.
  fold (paddingMargin (Generator.requestedWidth (Generator.Page.formatSelect p) so)).
  set (W := Generator.requestedWidth (Generator.Page.formatSelect p) so).
  set (H := Qmax _ _).
  rewrite (backdrop_agrees h p W H _ design Hp).
  rewrite (layoutAccents_agrees h W H (W * 0.1) _ _ Hl).
  f_equal. apply bind_ext_run. intros _ c1. apply bind_ext_run. intros lay c2.
  symmetry.
  apply (wall_text_agrees h p W H (Generator.Page.quoteText p)
           (Generator.Page.authorText p) (trim (Generator.Page.authorText p))
           design lay c2 Ha Hqs Has).
Qed.

(** X18 for the first of six cards of the page [thanks_page]. *)
Lemma wall_reproduces_generator_witness :
  let canvas :=
    Generator.renderCard (plain_host 255) thanks_page (resize 300 150)
      (Generator.Page.quoteText thanks_page)
      (Generator.Page.authorText thanks_page) first_design
      (Generator.Page.formatSelect thanks_page)
      (Generator.Page.radiusSelect thanks_page) None in
  exists card,
    Generator.uploadToWall thanks_page (replicate 6 first_design) canvas 0
      "-Nabc" "2026-01-01T00:00:00.000Z" true
    = Generator.Pushed card
    /\ Wall.renderCard (plain_host 255) (Some (resize 300 150)) card
       = Some canvas.
Proof.
  apply (wall_reproduces_generator (plain_host 255) thanks_page
           (replicate 6 first_design) 0 first_design None (resize 300 150)
           (resize 300 150) "-Nabc" "2026-01-01T00:00:00.000Z").
  - reflexivity.
  - reflexivity.
  - reflexivity.
  - discriminate.
  - cbn. intros [H|[H|[H|[H|[H|[]]]]]]; discriminate H.
  - intros E. vm_compute in E. discriminate E.
  - intros E. vm_compute in E. discriminate E.
Defined.

(** ** Cards on the walls *)

Lemma wall_layoutAccents_unknown h W H pad palette layout :
  ~ In layout wall_layouts ->
  Wall.layoutAccents h W H pad palette layout = mret (centered W H pad).
Proof.
  intros Hn. unfold Wall.layoutAccents. cbv zeta.
  assert (H1 : String.eqb layout "left" = false).
  { apply String.eqb_neq. intros E. apply Hn. rewrite E. cbn. tauto. }
  assert (H2 : String.eqb layout "icon-top" = false).
  { apply String.eqb_neq. intros E. apply Hn. rewrite E. cbn. tauto. }
  assert (H3 : String.eqb layout "split" = false).
  { apply String.eqb_neq. intros E. apply Hn. rewrite E. cbn. tauto. }
  by rewrite H1, H2, H3.
Qed.

(** X19.  The walls know three layouts.  A card whose layout tag is none
    of [left], [icon-top] and [split] (so also a card the generator drew
    with [bordered], [underline], [footer], [corner-frame] or [diagonal])
    is drawn by [renderCard] of the walls exactly as the same record with
    the layout [centered]: no accent is drawn. *)
Theorem wall_draws_unknown_layout_centered h canvas card :
  ~ In (Wall.CardData.layout card) wall_layouts ->
  Wall.renderCard h canvas card
  = Wall.renderCard h canvas (with_layout card "centered").
Proof.
  intros Hn. unfold Wall.renderCard. cbv zeta. destruct canvas as [c|]; [|done].
  cbn [with_layout Wall.CardData.width Wall.CardData.height Wall.CardData.palette
       Wall.CardData.gradient Wall.CardData.font Wall.CardData.bgType
       Wall.CardData.layout Wall.CardData.seed Wall.CardData.radius
       Wall.CardData.quoteSizeMultiplier Wall.CardData.authorSizeMultiplier
       Wall.CardData.quote Wall.CardData.author].
  rewrite (wall_layoutAccents_unknown h _ _ _ _ (Wall.CardData.layout card) Hn).
  rewrite (wall_layoutAccents_unknown h _ _ _ _ "centered"); [done|].
  cbn. intros [H|[H|[H|[]]]]; discriminate H.
Qed.

(** X19 for a card with the layout [underline]. *)
Lemma wall_draws_unknown_layout_centered_witness :
  let card :=
    {| Wall.CardData.id := "card-1";
       Wall.CardData.quote := "Thank you";
       Wall.CardData.author := "Jane";
       Wall.CardData.width := 1080;
       Wall.CardData.height := 1080;
       Wall.CardData.palette := Generator.mkPalette "#FFF5F5" "#2D3748" "#E53E3E";
       Wall.CardData.gradient := ("#667eea", "#764ba2");
       Wall.CardData.font := Generator.mkFont "Georgia, serif";
       Wall.CardData.bgType := "solid";
       Wall.CardData.layout := "underline";
       Wall.CardData.seed := 47;
       Wall.CardData.format := "square";
       Wall.CardData.radius := 26;
       Wall.CardData.quoteSizeMultiplier := 95;
       Wall.CardData.authorSizeMultiplier := 105;
       Wall.CardData.createdAt := "2026-01-01T00:00:00.000Z" |} in
  Wall.renderCard (plain_host 255) (Some (resize 300 150)) card
  = Wall.renderCard (plain_host 255) (Some (resize 300 150))
      (with_layout card "centered").
Proof.
  cbv zeta. apply (wall_draws_unknown_layout_centered (plain_host 255)).
  cbn. intros [H|[H|[H|[]]]]; discriminate H.
Defined.




(** ** The feed of the walls *)

Lemma insert_card_perm time c l : Permutation (c :: l) (Wall.insert_card time c l).
Proof.
  induction l as [|d rest IH]; [done|]. cbn [Wall.insert_card].
  destruct (leb _ _); [done|].
  rewrite perm_swap. by constructor.
Qed.

Lemma sort_perm time l : Permutation l (Wall.sort_newest_first time l).
Proof.
  induction l as [|c rest IH]; [done|]. cbn [Wall.sort_newest_first fold_right].
  rewrite <- insert_card_perm. by constructor.
Qed.

Lemma insert_card_sorted time c l :
  newest_first time l -> newest_first time (Wall.insert_card time c l).
Proof.
  unfold newest_first. induction 1 as [|d rest Hrest IH Hd].
  - repeat constructor.
  - cbn [Wall.insert_card].
    destruct (leb _ _) eqn:E.
    + apply Qle_bool_iff in E. constructor; [by constructor|].
      constructor; [done|].
      eapply List.Forall_impl; [|exact Hd]. intros x Hx. unfold not_older in *.
      lra.
    + constructor; [done|].
      assert (Hlt : time (Wall.CardData.createdAt c)
                    <= time (Wall.CardData.createdAt d)).
      { destruct (Qlt_le_dec (time (Wall.CardData.createdAt c))
                    (time (Wall.CardData.createdAt d))) as [Hlt|Hge]; [lra|].
        apply Qle_bool_iff in Hge. unfold leb in E. congruence. }
      apply (Permutation_Forall (insert_card_perm time c rest)).
      by constructor.
Qed.

Lemma sort_sorted time l : newest_first time (Wall.sort_newest_first time l).
Proof.
  induction l as [|c rest IH]; [constructor|]. by apply insert_card_sorted.
Qed.

(** X21.  The live wall shows every card of the snapshot once, newest
    first: the cards after a snapshot are a rearrangement of its entries in
    which every card is at least as new as the cards after it; an empty
    node shows no card. *)
Theorem onSnapshot_newest_first time snap :
  match snap with
  | None => LiveWall.onSnapshot time snap = []
  | Some entries =>
      Permutation entries (LiveWall.onSnapshot time snap)
      /\ newest_first time (LiveWall.onSnapshot time snap)
  end.
Proof.
  destruct snap as [entries|]; [|done].
  split; [apply sort_perm | apply sort_sorted].
Qed.

Lemma newest_first_tail time l : newest_first time l -> newest_first time (List.tl l).
Proof. destruct 1; [constructor|done]. Qed.

Lemma newest_first_firstn time n l :
  newest_first time l -> newest_first time (firstn n l).
Proof.
  unfold newest_first. intros H. revert n.
  induction H as [|d rest Hrest IH Hd]; intros [|n]; try constructor; [done|].
  apply Forall_forall. intros x Hx. rewrite Forall_forall in Hd. apply Hd.
  by eapply subseteq_take.
Qed.

Lemma newest_first_filter time f l :
  newest_first time l -> newest_first time (List.filter f l).
Proof.
  unfold newest_first. induction 1 as [|d rest Hrest IH Hd]; [constructor|].
  cbn. destruct (f d); [|done]. constructor; [done|].
  apply List.Forall_forall. intros x [Hx _]%List.filter_In.
  rewrite List.Forall_forall in Hd. by apply Hd.
Qed.

Lemma In_firstn {T} n (l : list T) x : In x (firstn n l) -> In x l.
Proof.
  revert n. induction l as [|y l IH]; intros [|n]; cbn; try tauto.
  intros [->|H]; [by left|right; by eapply IH].
Qed.

(** X22.  The first page of the paginated wall.  After [fetchPage]
    without a date the two loading flags are off, and either both
    requests were rejected and the cards and [hasMore] are as before, or
    the cards shown are entries the database returned, newest first, and
    [hasMore] says whether there are [pageSize] of them or more. *)
Theorem fetchPage_first_page time db e s :
  Wall.given e = false ->
  let s' := Wall.fetchPage time db e s in
  Wall.PageState.loading s' = false
  /\ Wall.PageState.loadingMore s' = false
  /\ ((Wall.get_query db None Wall.pageSize = None
       /\ Wall.get_all db = None
       /\ Wall.PageState.cards s' = Wall.PageState.cards s
       /\ Wall.PageState.hasMore s' = Wall.PageState.hasMore s)
      \/ (newest_first time (Wall.PageState.cards s')
          /\ Wall.PageState.hasMore s'
             = (Wall.pageSize <=? length (Wall.PageState.cards s'))%nat
          /\ forall c, In c (Wall.PageState.cards s') ->
               exists entries,
                 (Wall.get_query db None Wall.pageSize = Some (Some entries)
                  \/ Wall.get_all db = Some (Some entries))
                 /\ In c entries)).
Proof.
  intros He. cbv zeta. unfold Wall.fetchPage. cbv zeta. rewrite He.
  destruct (Wall.get_query db None Wall.pageSize) as [[entries|]|] eqn:Hq.
  - unfold Wall.show_page. rewrite He. cbn.
    split; [done|]. split; [done|]. right.
    split; [apply sort_sorted|]. split; [done|].
    intros c Hc. exists entries. split; [by left|].
    by apply (Permutation_in _ (Permutation_sym (sort_perm time entries))).
  - unfold Wall.show_nothing. rewrite He. cbn.
    split; [done|]. split; [done|]. right.
    split; [constructor|]. split; [done|]. by intros c [].
  - destruct (Wall.get_all db) as [[entries|]|] eqn:Ha.
    + unfold Wall.show_page. rewrite He. cbn [negb].
      cbn [Wall.PageState.loading Wall.PageState.loadingMore
           Wall.PageState.cards Wall.PageState.hasMore].
      split; [done|]. split; [done|]. right.
      split; [apply newest_first_firstn, sort_sorted|]. split; [done|].
      intros c Hc. exists entries. split; [by right|].
      apply (Permutation_in _ (Permutation_sym (sort_perm time entries))).
      by eapply In_firstn.
    + unfold Wall.show_nothing. rewrite He. cbn.
      split; [done|]. split; [done|]. right.
      split; [constructor|]. split; [done|]. by intros c [].
    + cbn. split; [done|]. split; [done|]. by left.
Qed.

(** X22 for the page as it starts and a database with two cards. *)
Lemma fetchPage_first_page_witness :
  let s' := Wall.fetchPage char_count (sample_db true) None fresh_wall in
  Wall.given None = false
  /\ Wall.PageState.loading s' = false
  /\ Wall.PageState.loadingMore s' = false
  /\ Wall.PageState.cards s' = [sample_card "b" "2026-01"; sample_card "a" "2026"].
Proof.
  cbv zeta. split; [reflexivity|].
  destruct (fetchPage_first_page char_count (sample_db true) None fresh_wall
              eq_refl) as (H1 & H2 & _).
  split; [exact H1|]. split; [exact H2|]. reflexivity.
Defined.

(** X23.  Loading more never loses a card.  After [fetchPage] with the
    date of the oldest card shown, the two loading flags are off and the
    cards are the cards shown before followed by further cards, which are
    entries the database returned, newest first; when the indexed query
    was rejected and the whole node was read instead, these are at most
    [pageSize] cards, each older than the date given. *)
Theorem fetchPage_appends time db e s :
  Wall.given e = true ->
  let s' := Wall.fetchPage time db e s in
  Wall.PageState.loading s' = false
  /\ Wall.PageState.loadingMore s' = false
  /\ exists more,
       Wall.PageState.cards s' = Wall.PageState.cards s ++ more
       /\ newest_first time more
       /\ (forall c, In c more ->
             exists entries,
               (Wall.get_query db e (Wall.pageSize + 1) = Some (Some entries)
                \/ Wall.get_all db = Some (Some entries))
               /\ In c entries)
       /\ (Wall.get_query db e (Wall.pageSize + 1) = None ->
           (length more <= Wall.pageSize)%nat
           /\ forall c, In c more -> Wall.older_than time e c = true).
Proof.
  intros He. cbv zeta. unfold Wall.fetchPage. cbv zeta. rewrite He.
  destruct (Wall.get_query db e (Wall.pageSize + 1)) as [[entries|]|] eqn:Hq.
  - unfold Wall.show_page. rewrite He. cbn [negb].
    cbn [Wall.PageState.loading Wall.PageState.loadingMore Wall.PageState.cards].
    split; [done|]. split; [done|]. eexists. split; [reflexivity|].
    assert (Hin : forall c,
               In c (if (Wall.pageSize <? length (Wall.sort_newest_first time entries))%nat
                     then List.tl (Wall.sort_newest_first time entries)
                     else Wall.sort_newest_first time entries) ->
               In c entries).
    { intros c Hc.
      apply (Permutation_in _ (Permutation_sym (sort_perm time entries))).
      destruct (_ <? _)%nat; [|done].
      destruct (Wall.sort_newest_first time entries); [done|by right]. }
    split.
    { destruct (_ <? _)%nat; [apply newest_first_tail|]; apply sort_sorted. }
    split; [|done].
    intros c Hc. exists entries. split; [by left|by apply Hin].
  - unfold Wall.show_nothing. rewrite He. cbn.
    split; [done|]. split; [done|]. exists []. rewrite List.app_nil_r.
    split; [done|]. split; [constructor|]. split; [by intros c []|done].
  - destruct (Wall.get_all db) as [[entries|]|] eqn:Ha.
    + unfold Wall.show_page. rewrite He. cbn [negb].
      cbn [Wall.PageState.loading Wall.PageState.loadingMore Wall.PageState.cards].
      split; [done|]. split; [done|].
      set (older := List.filter (Wall.older_than time e)
                      (Wall.sort_newest_first time entries)).
      assert (Hshort : (length (firstn Wall.pageSize older) <= Wall.pageSize)%nat).
      { rewrite length_take. lia. }
      replace (Wall.pageSize <? length (firstn Wall.pageSize older))%nat with false
        by (symmetry; apply Nat.ltb_ge; exact Hshort).
      eexists. split; [reflexivity|].
      split; [apply newest_first_firstn, newest_first_filter, sort_sorted|].
      split.
      * intros c Hc%In_firstn. exists entries. split; [by right|].
        apply List.filter_In in Hc as [Hc _].
        by apply (Permutation_in _ (Permutation_sym (sort_perm time entries))).
      * intros _. split; [done|].
        intros c Hc%In_firstn. by apply List.filter_In in Hc as [_ Hc].
    + unfold Wall.show_nothing. rewrite He. cbn.
      split; [done|]. split; [done|]. exists []. rewrite List.app_nil_r.
      split; [done|]. split; [constructor|]. split; [by intros c []|].
      intros _. split; [cbn; lia|by intros c []].
    + cbn. split; [done|]. split; [done|]. exists []. rewrite List.app_nil_r.
      split; [done|]. split; [constructor|]. split; [by intros c []|].
      intros _. split; [cbn; lia|by intros c []].
Qed.

(** X23 for a page that shows the newer of two cards, the indexed query
    being rejected. *)
Lemma fetchPage_appends_witness :
  let s :=
    {| Wall.PageState.cards := [sample_card "b" "2026-01"];
       Wall.PageState.loading := false; Wall.PageState.loadingMore := false;
       Wall.PageState.hasMore := true |} in
  let s' := Wall.fetchPage char_count (sample_db false) (Some "2026-01") s in
  Wall.given (Some "2026-01") = true
  /\ Wall.PageState.loading s' = false
  /\ Wall.PageState.loadingMore s' = false
  /\ Wall.PageState.cards s' = [sample_card "b" "2026-01"; sample_card "a" "2026"].
Proof.
  cbv zeta. split; [reflexivity|].
  destruct (fetchPage_appends char_count (sample_db false) (Some "2026-01")
              {| Wall.PageState.cards := [sample_card "b" "2026-01"];
                 Wall.PageState.loading := false;
                 Wall.PageState.loadingMore := false;
                 Wall.PageState.hasMore := true |} eq_refl) as (H1 & H2 & _).
  split; [exact H1|]. split; [exact H2|]. reflexivity.
Defined.

(** X24.  A page of [pageSize] entries or fewer is appended whole.  When
    the indexed query with the date of the oldest card shown returns at
    most [pageSize] entries, [fetchPage] drops none of them; an entry that
    is a card shown already (the query is bounded by [endAt], which
    includes the date given) is then shown twice. *)
Theorem fetchPage_repeats_boundary_card time db e s entries c :
  Wall.given e = true ->
  Wall.get_query db e (Wall.pageSize + 1) = Some (Some entries) ->
  (length entries <= Wall.pageSize)%nat ->
  In c (Wall.PageState.cards s) ->
  In c entries ->
  let s' := Wall.fetchPage time db e s in
  Wall.PageState.cards s'
  = Wall.PageState.cards s ++ Wall.sort_newest_first time entries
  /\ ~ List.NoDup (Wall.PageState.cards s').
Proof.
  intros He Hq Hlen Hshown Hentry. cbv zeta. unfold Wall.fetchPage. cbv zeta.
  rewrite He, Hq. unfold Wall.show_page. rewrite He. cbn [negb].
  cbn [Wall.PageState.cards].
  assert (Hl : length (Wall.sort_newest_first time entries) = length entries).
  { symmetry. apply Permutation_length, sort_perm. }
  replace (Wall.pageSize <? length (Wall.sort_newest_first time entries))%nat
    with false by (symmetry; apply Nat.ltb_ge; lia).
  split; [done|]. intros Hnd.
  apply List.NoDup_app_remove_l in Hnd as Hnd2.
  apply in_split in Hshown as (l1 & l2 & Hs). rewrite Hs in Hnd.
  rewrite <- List.app_assoc in Hnd. cbn in Hnd.
  apply List.NoDup_remove_2 in Hnd. apply Hnd.
  rewrite !in_app_iff. right. right.
  by apply (Permutation_in _ (sort_perm time entries)).
Qed.

(** X24 for a page that shows the two cards of the database and is sent
    the older one again. *)
Lemma fetchPage_repeats_boundary_card_witness :
  let s :=
    {| Wall.PageState.cards := [sample_card "b" "2026-01"; sample_card "a" "2026"];
       Wall.PageState.loading := false; Wall.PageState.loadingMore := false;
       Wall.PageState.hasMore := true |} in
  let db :=
    {| Wall.get_query := fun _ _ => Some (Some [sample_card "a" "2026"]);
       Wall.get_all := None |} in
  let s' := Wall.fetchPage char_count db (Some "2026") s in
  Wall.PageState.cards s'
  = Wall.PageState.cards s
      ++ Wall.sort_newest_first char_count [sample_card "a" "2026"]
  /\ ~ List.NoDup (Wall.PageState.cards s').
Proof.
  cbv zeta.
  apply (fetchPage_repeats_boundary_card char_count _ (Some "2026") _
           [sample_card "a" "2026"] (sample_card "a" "2026")).
  - reflexivity.
  - reflexivity.
  - unfold Wall.pageSize. cbn. lia.
  - cbn. tauto.
  - cbn. tauto.
Defined.

Lemma renderCards_elsewhere h cards :
  forall refs id,
    ~ In id (map Wall.CardData.id cards) ->
    Wall.renderCards h cards refs !! id = refs !! id.
Proof.
  induction cards as [|c rest IH]; intros refs id Hid; [done|].
  cbn [Wall.renderCards]. cbv zeta. rewrite IH by (cbn in Hid; tauto).
  assert (Hne : Wall.CardData.id c <> id) by (cbn in Hid; tauto).
  destruct (refs !! Wall.CardData.id c) as [canvas|]; [|done].
  destruct (Wall.renderCard h (Some canvas) c) as [out|]; [|done].
  by rewrite lookup_insert_ne.
Qed.

Lemma renderCards_same_canvases h cards :
  forall refs id,
    is_Some (Wall.renderCards h cards refs !! id) <-> is_Some (refs !! id).
Proof.
  induction cards as [|c rest IH]; intros refs id; [done|].
  cbn [Wall.renderCards]. cbv zeta. rewrite IH.
  destruct (refs !! Wall.CardData.id c) as [canvas|] eqn:Hc; [|done].
  destruct (Wall.renderCard h (Some canvas) c) as [out|]; [|done].
  destruct (decide (Wall.CardData.id c = id)) as [<-|Hne].
  - rewrite lookup_insert_eq, Hc. split; eauto.
  - by rewrite lookup_insert_ne.
Qed.

(** X25.  The effect that draws the cards of a wall: it adds and removes
    no canvas, leaves the canvas of every id that is not an id of a card
    as it was, and, the ids of the cards being different, leaves on the
    canvas of each card what [renderCard] draws from the record of that
    card. *)
Theorem renderCards_draws_each h cards refs :
  (forall id,
     is_Some (Wall.renderCards h cards refs !! id) <-> is_Some (refs !! id))
  /\ (forall id,
        ~ In id (map Wall.CardData.id cards) ->
        Wall.renderCards h cards refs !! id = refs !! id)
  /\ (List.NoDup (map Wall.CardData.id cards) ->
      forall c canvas,
        In c cards ->
        refs !! Wall.CardData.id c = Some canvas ->
        Wall.renderCards h cards refs !! Wall.CardData.id c
        = Wall.renderCard h (Some canvas) c).
Proof.
  split; [apply renderCards_same_canvases|].
  split; [apply renderCards_elsewhere|].
  revert refs. induction cards as [|d rest IH]; intros refs Hnd c canvas Hc Href;
    [done|].
  apply List.NoDup_cons_iff in Hnd as [Hd Hnd].
  cbn [Wall.renderCards]. cbv zeta. destruct Hc as [->|Hc].
  - rewrite renderCards_elsewhere by done. rewrite Href.
    destruct (Wall.renderCard h (Some canvas) c) as [out|] eqn:E;
      [by rewrite lookup_insert_eq | discriminate E].
  - assert (Hne : Wall.CardData.id d <> Wall.CardData.id c).
    { intros E. apply Hd. rewrite E. by apply in_map. }
    destruct (refs !! Wall.CardData.id d) as [canvas'|] eqn:Hd'.
    + destruct (Wall.renderCard h (Some canvas') d) as [out|].
      * apply IH; [done|done|]. by rewrite lookup_insert_ne.
      * by apply IH.
    + by apply IH.
Qed.

(** ** More on batches *)

Lemma design_loop_generated h p baseSeed cards :
  forall done used run,
    Forall (generated h p) done ->
    Generator.design_loop 60 h p baseSeed cards done used = Some run ->
    Forall (generated h p) run.
Proof.
  induction cards as [|i rest IH]; intros done used run Hdone Hrun.
  - cbn in Hrun. by injection Hrun as <-.
  - cbn [Generator.design_loop] in Hrun.
    destruct (attempts_end h p baseSeed used i 60 0)
      as (a & Ha & _ & _ & _ & Hgen & _); [lia|lia|].
    rewrite Ha in Hrun. cbn [mbind option_bind] in Hrun.
    eapply IH; [|exact Hrun].
    apply Forall_app. split; [done|]. constructor; [|constructor]. by eexists.
Qed.

Lemma generated_from_pack h p a : generated h p a -> from_pack p (Generator.Attempt.design a).
Proof.
  intros [seed Hseed].
  destruct (generateDesign_total h p seed) as (d & Hd & H1 & H2 & H3 & H4 & H5 & _).
  rewrite Hseed in Hd. injection Hd as <-. by repeat split.
Qed.

(** X26.  A batch follows the style pack.  [makeDesigns] returns as many
    designs as asked for, and every one of them takes its palette, its
    gradient and its fonts from the catalogues and its background and
    layout from the lists of the selected style pack: no field is
    [undefined]. *)
Theorem makeDesigns_follow_pack h p count :
  exists designs,
    Generator.makeDesigns h p count = Some designs
    /\ length designs = count
    /\ Forall (from_pack p) designs.
Proof.
  destruct (design_loop_ok h p (Generator.Page.now p) (seq 0 count) [] ∅)
    as (run & Hrun & _ & Hlen).
  { constructor. }
  { intros k. cbn. set_solver. }
  exists (map Generator.Attempt.design run).
  unfold Generator.makeDesigns, Generator.makeDesigns_run. cbv zeta.
  rewrite Hrun. split; [done|].
  split; [rewrite length_map, Hlen, length_seq; cbn; lia|].
  apply Forall_map.
  eapply List.Forall_impl; [|eapply design_loop_generated; [|exact Hrun]].
  - intros a. apply generated_from_pack.
  - constructor.
Qed.

Lemma pick_stuck {T} h (arr : list T) s1 s2 :
  (forall x y, sin h x = sin h y) ->
  Generator.pick h arr s1 = Generator.pick h arr s2.
Proof.
  intros Hsin. unfold Generator.pick, seededRandom. cbv zeta.
  by rewrite (Hsin s1 s2).
Qed.

Lemma generateDesign_stuck h p s1 s2 d1 d2 :
  (forall x y, sin h x = sin h y) ->
  Generator.generateDesign h p s1 = Some d1 ->
  Generator.generateDesign h p s2 = Some d2 ->
  design_key d1 = design_key d2.
Proof.
  intros Hsin. unfold Generator.generateDesign. cbv zeta.
  rewrite (pick_stuck h Generator.PALETTES s1 s2 Hsin).
  rewrite (pick_stuck h Generator.GRADIENTS (s1 + 1) (s2 + 1) Hsin).
  rewrite (pick_stuck h Generator.FONTS (s1 + 1 + 1) (s2 + 1 + 1) Hsin).
  rewrite (pick_stuck h (Generator.StylePack.bgTypes _) (s1 + 1 + 1 + 1)
             (s2 + 1 + 1 + 1) Hsin).
  rewrite (pick_stuck h (Generator.StylePack.layouts _) (s1 + 1 + 1 + 1 + 1)
             (s2 + 1 + 1 + 1 + 1) Hsin).
  destruct (Generator.pick h Generator.PALETTES s2); [|done].
  destruct (Generator.pick h Generator.GRADIENTS _); [|done].
  destruct (Generator.pick h Generator.FONTS _); [|done].
  destruct (Generator.pick h (Generator.StylePack.bgTypes _) _); [|done].
  destruct (Generator.pick h (Generator.StylePack.layouts _) _); [|done].
  cbn. by intros [= <-] [= <-].
Qed.

Lemma design_loop_prefix h p baseSeed cards :
  forall done used run,
    Generator.design_loop 60 h p baseSeed cards done used = Some run ->
    exists more, run = done ++ more.
Proof.
  induction cards as [|i rest IH]; intros done used run Hrun.
  - cbn in Hrun. injection Hrun as <-. exists []. by rewrite List.app_nil_r.
  - cbn [Generator.design_loop] in Hrun.
    destruct (Generator.attempts 60 h p baseSeed used i 0) as [a|]; [|done].
    cbn [mbind option_bind] in Hrun.
    destruct (IH _ _ _ Hrun) as (more & ->).
    exists (a :: more). by rewrite <- List.app_assoc.
Qed.

(** X27.  Accepted duplicates.  When the sine gives the same value for
    every seed, every design of a batch has the same tuple (background,
    layout, palette index, quote font): [makeDesigns] still returns one
    design a card, the first after one try, every later one after all 60
    tries. *)
Theorem makeDesigns_repeats_when_stuck h p count :
  (forall x y, sin h x = sin h y) ->
  exists run,
    Generator.makeDesigns_run 60 h p count = Some run
    /\ Generator.makeDesigns h p count = Some (map Generator.Attempt.design run)
    /\ length run = count
    /\ (forall a b, In a run -> In b run ->
          design_key (Generator.Attempt.design a)
          = design_key (Generator.Attempt.design b))
    /\ (forall a rest, run = a :: rest ->
          Generator.Attempt.tries a = 1%nat
          /\ Forall (fun b => Generator.Attempt.tries b = 60%nat) rest).
Proof.
  intros Hsin.
  destruct (design_loop_ok h p (Generator.Page.now p) (seq 0 count) [] ∅)
    as (run & Hrun & Hok & Hlen).
  { constructor. }
  { intros k. cbn. set_solver. }
  assert (Hgen : Forall (generated h p) run).
  { eapply design_loop_generated; [|exact Hrun]. constructor. }
  assert (Hkeys : forall a b, In a run -> In b run ->
            design_key (Generator.Attempt.design a)
            = design_key (Generator.Attempt.design b)).
  { intros a b Ha Hb. rewrite List.Forall_forall in Hgen.
    destruct (Hgen a Ha) as [sa Hsa]. destruct (Hgen b Hb) as [sb Hsb].
    by eapply generateDesign_stuck. }
  exists run. unfold Generator.makeDesigns, Generator.makeDesigns_run. cbv zeta.
  rewrite Hrun. split; [done|]. split; [done|].
  split; [rewrite Hlen, length_seq; cbn; lia|]. split; [done|].
  intros a rest ->. split.
  - destruct count as [|count]; [cbn in Hrun; by injection Hrun|].
    change (seq 0 (S count)) with (0%nat :: seq 1 count) in Hrun.
    cbn [Generator.design_loop] in Hrun.
    destruct (generateDesign_total h p
                (Generator.Page.now p + num 0 * 1000 + num 0 * 111))
      as (d & Hd & _).
    change (Generator.attempts 60 h p (Generator.Page.now p) ∅ 0 0)
      with (d0 ← Generator.generateDesign h p
                   (Generator.Page.now p + num 0 * 1000 + num 0 * 111);
            if (bool_decide (Generator.design_hash d0 ∈ (∅ : gset string))
                && (1 <? 60)%nat)%bool
            then Generator.attempts 59 h p (Generator.Page.now p) ∅ 0 1
            else Some {| Generator.Attempt.design := d0;
                         Generator.Attempt.hash := Generator.design_hash d0;
                         Generator.Attempt.tries := 1 |}) in Hrun.
    rewrite Hd in Hrun. cbn [mbind option_bind] in Hrun.
    rewrite bool_decide_eq_false_2 in Hrun by set_solver.
    cbn [andb] in Hrun.
    destruct (design_loop_prefix h p (Generator.Page.now p) (seq 1 count) _ _ _ Hrun)
      as (more & Hmore).
    cbn in Hmore. injection Hmore as -> _. reflexivity.
  - apply List.Forall_forall. intros b Hb.
    apply in_split in Hb as (l1 & l2 & ->).
    apply (batch_ok_split _ Hok (a :: l1) b l2 eq_refl).
    cbn [map]. left. apply Hkeys; [by left|].
    right. apply in_app_iff. right. by left.
Qed.

(** X27 for the host of the examples, whose sine is 0, and three cards. *)
Lemma makeDesigns_repeats_when_stuck_witness :
  (forall x y, sin (plain_host 255) x = sin (plain_host 255) y)
  /\ exists run,
       Generator.makeDesigns_run 60 (plain_host 255) (default_page "balanced") 3
       = Some run
       /\ length run = 3%nat.
Proof.
  assert (H : forall x y, sin (plain_host 255) x = sin (plain_host 255) y)
    by reflexivity.
  split; [exact H|].
  destruct (makeDesigns_repeats_when_stuck (plain_host 255)
              (default_page "balanced") 3 H) as (run & H1 & _ & H3 & _).
  exists run. split; [exact H1|exact H3].
Defined.

(** ** The counted loops *)

Lemma ceiling_step x : (Qceiling (x - 1) = Qceiling x - 1)%Z.
Proof.
  unfold Qceiling.
  replace (Qfloor (- (x - 1))) with (Qfloor (- x) + 1)%Z; [lia|].
  assert (Hf := Qfloor_le (- x)). assert (Hc := Qlt_floor (- x)).
  rewrite inject_Z_plus in Hc. change (inject_Z 1) with 1 in Hc.
  assert (Hf1 := Qfloor_le (- (x - 1))). assert (Hc1 := Qlt_floor (- (x - 1))).
  rewrite inject_Z_plus in Hc1. change (inject_Z 1) with 1 in Hc1.
  assert (H1 : (Qfloor (- x) + 1 < Qfloor (- (x - 1)) + 1)%Z).
  { rewrite Zlt_Qlt, !inject_Z_plus. change (inject_Z 1) with 1. lra. }
  assert (H2 : (Qfloor (- (x - 1)) < Qfloor (- x) + 1 + 1)%Z).
  { rewrite Zlt_Qlt, !inject_Z_plus. change (inject_Z 1) with 1. lra. }
  lia.
Qed.

Lemma loop_fuel_done lo hi step :
  0 < step -> hi <= lo -> loop_fuel lo hi step = 0%nat.
Proof.
  intros Hs Hle. unfold loop_fuel.
  assert (H : (Qceiling ((hi - lo) / step) <= 0)%Z).
  { change 0%Z with (Qceiling 0). apply Qceiling_resp_le.
    apply Qle_shift_div_r; [done|]. lra. }
  lia.
Qed.

Lemma loop_fuel_next lo hi step :
  0 < step -> lo < hi ->
  loop_fuel lo hi step = S (loop_fuel (lo + step) hi step).
Proof.
  intros Hs Hlt. unfold loop_fuel.
  assert (E : (hi - (lo + step)) / step == (hi - lo) / step - 1).
  { field. lra. }
  rewrite (Qceiling_comp _ _ E), ceiling_step.
  assert (H : (0 < Qceiling ((hi - lo) / step))%Z).
  { rewrite Zlt_Qlt. eapply Qlt_le_trans; [|apply Qle_ceiling].
    change (inject_Z 0) with 0. apply Qlt_shift_div_l; [done|]. lra. }
  lia.
Qed.

Lemma loop_values_enough hi step :
  0 < step ->
  forall fuel lo,
    (loop_fuel lo hi step <= fuel)%nat ->
    loop_values fuel lo hi step = loop_values (loop_fuel lo hi step) lo hi step.
Proof.
  intros Hs. induction fuel as [|fuel IH]; intros lo Hfuel.
  - by replace (loop_fuel lo hi step) with 0%nat by lia.
  - destruct (ltb_cases lo hi) as [[Ht Hlt]|[Ht Hge]].
    + rewrite (loop_fuel_next lo hi step Hs Hlt) in *.
      cbn [loop_values]. rewrite Ht. f_equal. apply IH. lia.
    + rewrite (loop_fuel_done lo hi step Hs Hge). cbn [loop_values].
      by rewrite Ht.
Qed.

Lemma loop_values_below hi step :
  forall fuel lo, Forall (fun i => i < hi) (loop_values fuel lo hi step).
Proof.
  induction fuel as [|fuel IH]; intros lo; [constructor|].
  cbn [loop_values]. destruct (ltb_cases lo hi) as [[-> Hlt]|[-> Hge]];
    [|constructor].
  constructor; [done|apply IH].
Qed.

Lemma loop_values_length hi step :
  0 < step ->
  forall fuel lo,
    fuel = loop_fuel lo hi step ->
    length (loop_values fuel lo hi step) = fuel.
Proof.
  intros Hs. induction fuel as [|fuel IH]; intros lo Hfuel; [done|].
  destruct (ltb_cases lo hi) as [[Ht Hlt]|[Ht Hge]].
  - rewrite (loop_fuel_next lo hi step Hs Hlt) in Hfuel.
    cbn [loop_values]. rewrite Ht. cbn [length]. f_equal. apply IH. lia.
  - rewrite (loop_fuel_done lo hi step Hs Hge) in Hfuel. lia.
Qed.

(** X28.  The counted loops of the backgrounds end by their own test.  For
    a positive step, [for (let i = lo; i < hi; i += step)] runs
    [ceil((hi - lo) / step)] times, not at all when that is negative, on
    values below [hi]; allowing more iterations gives no further value,
    so the stripes and the halftone dots are those the loops of the
    source draw. *)
Theorem for_loop_complete lo hi step :
  0 < step ->
  length (for_loop lo hi step) = Z.to_nat (Qceiling ((hi - lo) / step))
  /\ Forall (fun i => i < hi) (for_loop lo hi step)
  /\ forall fuel,
       (loop_fuel lo hi step <= fuel)%nat ->
       loop_values fuel lo hi step = for_loop lo hi step.
Proof.
  intros Hs. unfold for_loop. split; [|split].
  - by apply loop_values_length.
  - apply loop_values_below.
  - intros fuel Hfuel. by apply loop_values_enough.
Qed.

(** X28 for the stripes of a square card: [i] from -1080 to 2160 in steps
    of 60. *)
Lemma for_loop_complete_witness :
  length (for_loop (- 1080) (1080 + 1080) 60) = 54%nat
  /\ Forall (fun i => i < 1080 + 1080) (for_loop (- 1080) (1080 + 1080) 60)
  /\ forall fuel,
       (loop_fuel (- 1080) (1080 + 1080) 60 <= fuel)%nat ->
       loop_values fuel (- 1080) (1080 + 1080) 60
       = for_loop (- 1080) (1080 + 1080) 60.
Proof.
  apply (for_loop_complete (- 1080) (1080 + 1080) 60). reflexivity.
Defined.

(** ** Lines are filled greedily *)

Lemma sorted_snoc {T} (R : T -> T -> Prop) l a b :
  Sorted R (l ++ [a]) -> R a b -> Sorted R (l ++ [a; b]).
Proof.
  intros Hs Hab. induction l as [|x l IH].
  - repeat constructor. done.
  - cbn in *. apply Sorted_inv in Hs as [Hs Hhd]. constructor; [by apply IH|].
    destruct l as [|y l]; cbn in *; constructor; by apply HdRel_inv in Hhd.
Qed.

Lemma sorted_replace_last {T} (R : T -> T -> Prop) l a a' :
  Sorted R (l ++ [a]) -> (forall x, R x a -> R x a') -> Sorted R (l ++ [a']).
Proof.
  intros Hs Himp. induction l as [|x l IH].
  - repeat constructor.
  - cbn in *. apply Sorted_inv in Hs as [Hs Hhd]. constructor; [by apply IH|].
    destruct l as [|y l]; cbn in *; constructor; apply HdRel_inv in Hhd;
      [by apply Himp|done].
Qed.

(** What the loop keeps true while every token fits: no line is empty,
    and each line but the last could not take the first word of the
    next. *)
Lemma token_step_greedy ctx maxWidth lines current tok :
  fits ctx maxWidth tok -> word tok ->
  (current = "" /\ lines = [])
  \/ (current <> "" /\ Sorted (full_before ctx maxWidth) (lines ++ [current])) ->
  let st := Wall.token_step ctx maxWidth (lines, current) tok in
  st.2 <> "" /\ Sorted (full_before ctx maxWidth) (st.1 ++ [st.2]).
Proof.
  intros Hfit [Hne Hsp] Hinv. cbv zeta. unfold Wall.token_step.
  apply Qle_bool_iff in Hfit as Hfitb. fold (leb (ctx tok) maxWidth) in Hfitb.
  destruct Hinv as [[-> ->]|[Hc Hs]].
  - change (truthy "") with false. cbv iota. rewrite Hfitb. cbn [fst snd].
    split; [done|]. repeat constructor.
  - apply truthy_true in Hc as Ht. rewrite Ht.
    destruct (leb (ctx (current +:+ " " +:+ tok)) maxWidth) eqn:E.
    + cbn [fst snd]. split; [by destruct current|].
      eapply sorted_replace_last; [exact Hs|].
      intros x (t & rest & Hb & Hx).
      exists t, (rest ++ tokens tok). split; [|done].
      change (current +:+ " " +:+ tok) with (current +:+ String " " tok).
      rewrite tokens_sep by done. by rewrite Hb.
    + rewrite Hfitb. cbn [fst snd]. split; [done|].
      unfold Wall.push_line. rewrite Ht. rewrite <- List.app_assoc.
      apply sorted_snoc; [done|].
      exists tok, []. split; [by apply tokens_word|]. by apply leb_not_fits.
Qed.

Lemma token_fold_greedy ctx maxWidth toks :
  Forall (fun tok => fits ctx maxWidth tok /\ word tok) toks ->
  forall lines current,
    (current = "" /\ lines = [])
    \/ (current <> "" /\ Sorted (full_before ctx maxWidth) (lines ++ [current])) ->
    let st := fold_left (Wall.token_step ctx maxWidth) toks (lines, current) in
    (st.2 = "" /\ st.1 = [])
    \/ (st.2 <> "" /\ Sorted (full_before ctx maxWidth) (st.1 ++ [st.2])).
Proof.
  induction 1 as [|tok toks [Hfit Hw] _ IH]; intros lines current Hinv; [done|].
  cbn [fold_left].
  pose proof (token_step_greedy ctx maxWidth lines current tok Hfit Hw Hinv) as Hst.
  cbv zeta in Hst. destruct (Wall.token_step _ _ _ _) as [lines1 current1].
  apply IH. by right.
Qed.

(** X29.  Lines are filled greedily.  When every token of the text fits
    in [maxWidth], each line [wrapTextSmart] returns, but the last, could
    not have taken the first word of the line after it: with that word
    added after a space it would be wider than [maxWidth]. *)
Theorem wrap_greedy ctx text maxWidth :
  Forall (fits ctx maxWidth) (tokens text) ->
  Sorted (full_before ctx maxWidth) (Wall.wrapTextSmart ctx text maxWidth).
Proof.
  intros Hfit. unfold Wall.wrapTextSmart.
  assert (Htoks : Forall (fun tok => fits ctx maxWidth tok /\ word tok)
                    (tokens text)).
  { pose proof (tokens_words text) as Hw.
    rewrite List.Forall_forall in *. intros tok Hin.
    split; [by apply Hfit | by apply Hw]. }
  pose proof (token_fold_greedy ctx maxWidth (tokens text) Htoks [] ""
                (or_introl (conj eq_refl eq_refl))) as Hst.
  cbv zeta in Hst. destruct (fold_left _ _ _) as [lines current].
  cbn [fst snd] in Hst. unfold Wall.push_line.
  destruct Hst as [[-> ->]|[Hc Hs]]; [constructor|].
  apply truthy_true in Hc. by rewrite Hc.
Qed.

(** X29 for the fixed-pitch metric, the text [thank you all] and lines of
    9 characters. *)
Lemma wrap_greedy_witness :
  Forall (fits char_count 9) (tokens "thank you all")
  /\ Sorted (full_before char_count 9)
       (Wall.wrapTextSmart char_count "thank you all" 9).
Proof.
  assert (H : Forall (fits char_count 9) (tokens "thank you all")).
  { repeat constructor; vm_compute; discriminate. }
  split; [exact H|]. apply (wrap_greedy char_count "thank you all" 9 H).
Defined.

(** ** Where the doodles go *)

Section Places.

Variable good : Q -> Q -> Prop.

Lemma places_ret {A} (x : A) : places good (mret x).
Proof. intros c. exists []. split; [by rewrite List.app_nil_r|constructor]. Qed.

Lemma places_bind {A B} (m : Draw A) (k : A -> Draw B) :
  places good m -> (forall a, places good (k a)) -> places good (m ≫= k).
Proof.
  intros Hm Hk c. rewrite bind_run.
  destruct (Hm c) as (l1 & Hl1 & Hp1).
  destruct (Hk (m c).1 (m c).2) as (l2 & Hl2 & Hp2).
  exists (l1 ++ l2). split; [by rewrite Hl2, Hl1, <- List.app_assoc|].
  by apply Forall_app.
Qed.

Lemma places_emit cmd : placed good cmd -> places good (emit cmd).
Proof. intros H c. exists [cmd]. split; [done|]. by repeat constructor. Qed.

Lemma places_save : places good save.
Proof. intros c. exists [Save]. split; [done|]. by repeat constructor. Qed.

Lemma places_restore : places good restore.
Proof.
  intros c. exists [Restore]. split; [apply log_restore|]. by repeat constructor.
Qed.

Lemma places_setGlobalAlpha a : places good (setGlobalAlpha a).
Proof.
  intros c. unfold setGlobalAlpha. destruct (leb 0 a && leb a 1)%bool.
  - exists [SetGlobalAlpha a]. split; [done|]. by repeat constructor.
  - apply (places_ret tt).
Qed.

Lemma places_scaleGlobalAlpha k : places good (scaleGlobalAlpha k).
Proof.
  unfold scaleGlobalAlpha. apply places_bind.
  - intros c. exists []. split; [by rewrite List.app_nil_r|constructor].
  - intros a. apply places_setGlobalAlpha.
Qed.

Lemma places_for_each {A} (l : list A) (body : A -> Draw unit) :
  (forall x, places good (body x)) -> places good (for_each l body).
Proof.
  intros Hbody. induction l as [|x l IH]; cbn [for_each].
  - apply places_ret.
  - apply places_bind; [apply Hbody | done].
Qed.

End Places.

(** One step in showing that an action places its calls well. *)
Ltac places_step :=
  lazymatch goal with
  | |- places _ (mret _) => apply places_ret
  | |- places _ (_ ≫= _) => apply places_bind; [|intros ?]
  | |- places _ (emit (Translate _ _)) => apply places_emit; assumption
  | |- places _ (emit _) => apply places_emit; exact I
  | |- places _ save => apply places_save
  | |- places _ restore => apply places_restore
  | |- places _ (setGlobalAlpha _) => apply places_setGlobalAlpha
  | |- places _ (scaleGlobalAlpha _) => apply places_scaleGlobalAlpha
  | |- places _ (for_each _ _) => apply places_for_each; intros ?
  | |- places _ (match ?x with _ => _ end) => destruct x
  end.

Lemma places_drawTinyHeart good h x y size s :
  good x y -> places good (drawTinyHeart h x y size s).
Proof. intros Hg. unfold drawTinyHeart. cbv zeta. repeat places_step. Qed.

Lemma places_drawTinyStar good h x y size s :
  good x y -> places good (drawTinyStar h x y size s).
Proof. intros Hg. unfold drawTinyStar. cbv zeta. repeat places_step. Qed.

Lemma places_drawDoodles h w ht color seed :
  0 < w -> 0 < ht ->
  places (doodle_spot h w ht) (drawDoodles h w ht color seed).
Proof.
  intros Hw Hh. unfold drawDoodles.
  apply places_bind; [apply places_save|]. intros _.
  apply places_bind; [apply places_setGlobalAlpha|]. intros _.
  do 4 (apply places_bind; [apply places_emit; exact I|]; intros _).
  apply places_bind; [|intros _; apply places_restore].
  apply places_for_each. intros k. cbv zeta.
  destruct (ltb_cases
              (hypot h (seededRandom h (seed + num k * 11) * w - w / 2)
                 (seededRandom h (seed + num k * 11 + 1) * ht - ht / 2))
              (Qmin w ht * 0.26)) as [[-> _]|[-> Hfar]];
    [apply places_ret|].
  assert (Hspot : doodle_spot h w ht (seededRandom h (seed + num k * 11) * w)
                    (seededRandom h (seed + num k * 11 + 1) * ht)).
  { destruct (seededRandom_range h (seed + num k * 11)) as [Hx0 Hx1].
    destruct (seededRandom_range h (seed + num k * 11 + 1)) as [Hy0 Hy1].
    unfold doodle_spot. repeat split; first [done | nra]. }
  destruct (Qeq_bool _ 0);
    [by apply places_drawTinyHeart | by apply places_drawTinyStar].
Qed.

(** X30.  Where the doodles go.  On a card of positive size, every
    [translate] call [drawDoodles] makes, which sets the place of one
    doodle, goes to a point on the card that is at least 0.26 times the
    shorter side away from the centre, as [Math.hypot] measures: the
    doodles keep out of the middle, where the quote is. *)
Theorem doodles_keep_clear h w ht color seed c :
  0 < w -> 0 < ht ->
  exists cmds,
    log (drawDoodles h w ht color seed c).2 = log c ++ cmds
    /\ forall x y, In (Translate x y) cmds -> doodle_spot h w ht x y.
Proof.
  intros Hw Hh.
  destruct (places_drawDoodles h w ht color seed Hw Hh c) as (cmds & Hlog & Hall).
  exists cmds. split; [done|]. intros x y Hin.
  rewrite List.Forall_forall in Hall. apply (Hall _ Hin).
Qed.

(** X30 for a square card on the host of the examples. *)
Lemma doodles_keep_clear_witness :
  exists cmds,
    log (drawDoodles (plain_host 255) 1080 1080 "#E53E3E" 1046
           (resize 1080 1080)).2
    = log (resize 1080 1080) ++ cmds
    /\ forall x y,
         In (Translate x y) cmds -> doodle_spot (plain_host 255) 1080 1080 x y.
Proof.
  apply (doodles_keep_clear (plain_host 255) 1080 1080 "#E53E3E" 1046
           (resize 1080 1080)); reflexivity.
Defined.
